(** * Sweet JS Compiler: the run controller and the sandbox message protocol

    A shallow embedding of [src/app.js]: the host page's handlers
    ([runCode], the [message] listener, [scheduleAutoRun], the [input] and
    [clear] listeners, [initState]) as functions on an explicit page state,
    and the script that [runCode] writes into the sandbox document as a
    function from what the user's code does to the messages it posts.  The
    copy button and the suggestion panel are left out, except for the edit
    a committed suggestion makes to the text. *)

From Stdlib Require Import ZArith Ascii String List Bool Lia.
From Stdlib Require Import DecimalString.
From stdpp Require Import base option list strings gmap.
Import ListNotations.
Local Open Scope string_scope.
Local Open Scope nat_scope.
Local Open Scope list_scope.

(** ** JavaScript strings

    A [string] stands for a JavaScript string whose UTF-16 code units are
    all below 256; the character with code [n] is the code unit [n]. *)

Module JsString.

(** ECMAScript WhiteSpace and LineTerminator code units below 256:
    TAB, LF, VT, FF, CR, SP and NBSP. *)
Definition is_white_space (c : ascii) : bool :=
  let n := nat_of_ascii c in
  ((9 <=? n) && (n <=? 13)) || (n =? 32) || (n =? 160).

Fixpoint trimStart (s : string) : string :=
  match s with
  | EmptyString => EmptyString
  | String c rest => if is_white_space c then trimStart rest else s
  end.

(** The string without its trailing white space, built from the right. *)
Fixpoint trimEnd (s : string) : string :=
  match s with
  | EmptyString => EmptyString
  | String c rest =>
      match trimEnd rest with
      | EmptyString => if is_white_space c then EmptyString else String c EmptyString
      | kept => String c kept
      end
  end.

(** [String.prototype.trim]. *)
Definition trim (s : string) : string := trimEnd (trimStart s).

(** A string is falsy exactly when it is empty. *)
Definition is_empty (s : string) : bool :=
  match s with EmptyString => true | _ => false end.

Definition all_white_space (s : string) : Prop :=
  Forall (fun c => is_white_space c = true) (list_ascii_of_string s).

Definition hex_digit (n : nat) : ascii :=
  ascii_of_nat (if n <? 10 then 48 + n else 87 + n).

Definition chr (n : nat) : string := String (ascii_of_nat n) EmptyString.
Definition dquote : string := chr 34.
Definition backslash : string := chr 92.
Definition newline : string := chr 10.

(** QuoteJSONString on one code unit: the two-character escapes, [\u00xx]
    for the other control characters, the unit itself otherwise. *)
Definition json_escape (c : ascii) : string :=
  let n := nat_of_ascii c in
  if n =? 8 then backslash +:+ "b"
  else if n =? 9 then backslash +:+ "t"
  else if n =? 10 then backslash +:+ "n"
  else if n =? 12 then backslash +:+ "f"
  else if n =? 13 then backslash +:+ "r"
  else if n =? 34 then backslash +:+ dquote
  else if n =? 92 then backslash +:+ backslash
  else if n <? 32 then
    backslash +:+ "u00" +:+ String (hex_digit (n / 16)) (String (hex_digit (n mod 16)) EmptyString)
  else String c EmptyString.

Fixpoint json_escape_all (s : string) : string :=
  match s with
  | EmptyString => EmptyString
  | String c rest => json_escape c +:+ json_escape_all rest
  end.

(** [JSON.stringify] applied to a string. *)
Definition json_quote (s : string) : string :=
  dquote +:+ json_escape_all s +:+ dquote.

(** [Array.prototype.join(' ')] on strings. *)
Fixpoint join_space (parts : list string) : string :=
  match parts with
  | [] => ""
  | [p] => p
  | p :: rest => p +:+ " " +:+ join_space rest
  end.

(** Decimal text of an integer, as [String] gives for an integral Number. *)
Definition decimal (n : Z) : string := NilZero.string_of_int (Z.to_int n).

End JsString.

(** ** JavaScript values, as far as the sandbox script observes them

    The script applies [typeof], [String], [JSON.stringify], truthiness, the
    [stack] and [message] properties and [postMessage] to the values the
    user's code hands it, and nothing else.  A primitive is modelled by
    itself (a Number by its value when that is an integer of magnitude below
    2^53); an object by the answers it gives to those observations, each of
    which is made at most once on it in a run.  Reading [stack] or
    [message] is taken to return a value. *)

Module Js.

Inductive outcome (E A : Type) : Type :=
| Normal (a : A)     (* the operation returns [a] *)
| Abrupt (e : E).    (* the operation throws [e] *)
Arguments Normal {E A} a.
Arguments Abrupt {E A} e.

Inductive value : Type :=
| VUndefined
| VNull
| VBool (b : bool)
| VNumber (n : Z)
| VString (s : string)
| VObject (o : object)
with object : Type :=
| Object
    (callable : bool)                        (* typeof is 'function', not 'object' *)
    (json : outcome value (option string))   (* JSON.stringify(o, null, 2); [None] is undefined *)
    (str : outcome value string)             (* String(o) *)
    (stack : value)                          (* o.stack *)
    (message : value)                        (* o.message *)
    (clones : bool).                         (* structured clone accepts o *)

Definition callable (o : object) : bool := let 'Object c _ _ _ _ _ := o in c.
Definition json (o : object) : outcome value (option string) := let 'Object _ j _ _ _ _ := o in j.
Definition str (o : object) : outcome value string := let 'Object _ _ s _ _ _ := o in s.
Definition stack (o : object) : value := let 'Object _ _ _ s _ _ := o in s.
Definition message (o : object) : value := let 'Object _ _ _ _ m _ := o in m.
Definition clones (o : object) : bool := let 'Object _ _ _ _ _ c := o in c.

(** [typeof v === 'object'] *)
Definition typeof_object (v : value) : bool :=
  match v with
  | VNull => true
  | VObject o => negb (callable o)
  | _ => false
  end.

(** ToBoolean *)
Definition truthy (v : value) : bool :=
  match v with
  | VUndefined | VNull => false
  | VBool b => b
  | VNumber n => negb (n =? 0)%Z
  | VString s => negb (JsString.is_empty s)
  | VObject _ => true
  end.

(** [String(v)] *)
Definition String_ (v : value) : outcome value string :=
  match v with
  | VUndefined => Normal "undefined"
  | VNull => Normal "null"
  | VBool b => Normal (if b then "true" else "false")
  | VNumber n => Normal (JsString.decimal n)
  | VString s => Normal s
  | VObject o => str o
  end.

(** [JSON.stringify(v, null, 2)] on a value whose typeof is 'object'. *)
Definition JSON_stringify (v : value) : outcome value (option string) :=
  match v with
  | VNull => Normal (Some "null")
  | VObject o => json o
  | VUndefined => Normal None
  | VBool b => Normal (Some (if b then "true" else "false"))
  | VNumber n => Normal (Some (JsString.decimal n))
  | VString s => Normal (Some (JsString.json_quote s))
  end.

(** [v.stack] and [v.message] on a truthy value; a primitive has neither. *)
Definition get_stack (v : value) : value :=
  match v with VObject o => stack o | _ => VUndefined end.
Definition get_message (v : value) : value :=
  match v with VObject o => message o | _ => VUndefined end.

(** Whether [postMessage] can clone the value. *)
Definition cloneable (v : value) : bool :=
  match v with
  | VObject o => negb (callable o) && clones o
  | _ => true
  end.

(** What [postMessage] throws on a value it cannot clone: a DOMException
    whose texts are the browser's. *)
Definition DataCloneError : value :=
  VObject (Object false (Normal (Some "{}")) (Normal "DataCloneError")
                  VUndefined (VString "DataCloneError") true).

(** [v === t] for a string literal [t]. *)
Definition strict_eq_string (v : value) (t : string) : bool :=
  match v with VString s => String.eqb s t | _ => false end.

(** A string or undefined, as a value. *)
Definition of_option (s : option string) : value :=
  match s with Some t => VString t | None => VUndefined end.

End Js.
Export Js(outcome, Normal, Abrupt, value, VUndefined, VNull, VBool, VNumber, VString, VObject, object, Object).

(** ** The sandbox script (the document [runCode] builds, lines 88-108)

    The script is taken to run as the document spells it, with the literal
    that [JSON.stringify(code)] writes denoting [code]. *)

Module Sandbox.

(** [{type, msg}], the data of one [postMessage]. *)
Record message := Message { type : string; msg : value }.

(** The four console methods the script overrides. *)
Inductive channel := Log | Info | Warn | Error.

Definition channel_name (k : channel) : string :=
  match k with Log => "log" | Info => "info" | Warn => "warn" | Error => "error" end.

(** What one execution of the user's function does, as the script sees it:
    the calls it makes to the overridden console methods before it
    completes, how it completes (returns a value or throws one; a
    SyntaxError of [new Function] is a throw with no call before it), and
    the console calls made afterwards by callbacks it left behind (timers,
    promises).  Code that also posts to the host by itself is described by
    [Instance.activity] further down. *)
Record behaviour := Behaviour {
  calls : list (channel * list value);
  completion : outcome value value;
  deferred : list (channel * list value) }.

(** Script computations: the messages posted so far are threaded through,
    and a computation returns or throws. *)
Definition M (A : Type) : Type := list message -> list message * outcome value A.

Definition ret {A} (a : A) : M A := fun posted => (posted, Normal a).
Definition bind {A B} (m : M A) (k : A -> M B) : M B :=
  fun posted =>
    match m posted with
    | (posted', Normal a) => k a posted'
    | (posted', Abrupt e) => (posted', Abrupt e)
    end.
Definition try_catch {A} (body : M A) (handler : value -> M A) : M A :=
  fun posted =>
    match body posted with
    | (posted', Normal a) => (posted', Normal a)
    | (posted', Abrupt e) => handler e posted'
    end.
Definition lift {A} (o : outcome value A) : M A := fun posted => (posted, o).

Notation "x <- m ;; k" := (bind m (fun x => k))
  (at level 100, m at next level, right associativity).
Notation "m ;;; k" := (bind m (fun _ => k))
  (at level 100, right associativity).

(** [const send=(type,msg)=>parent.postMessage({type,msg},'*')] *)
Definition send (type : string) (msg : value) : M unit :=
  fun posted =>
    if Js.cloneable msg then (posted ++ [Message type msg], Normal tt)
    else (posted, Abrupt Js.DataCloneError).

(** The callback of [args.map]: lines 93-95. *)
Definition serialize_arg (a : value) : M (option string) :=
  if Js.typeof_object a then
    try_catch (lift (Js.JSON_stringify a)) (fun _ => ret (Some "[object]"))
  else
    s <- lift (Js.String_ a) ;; ret (Some s).

Fixpoint map_args (args : list value) : M (list (option string)) :=
  match args with
  | [] => ret []
  | a :: rest => p <- serialize_arg a ;; ps <- map_args rest ;; ret (p :: ps)
  end.

(** [join(' ')]: an undefined element counts as the empty string. *)
Definition join (parts : list (option string)) : string :=
  JsString.join_space (map (fun p => match p with Some t => t | None => "" end) parts).

(** [console[k]=function(...args){ try{send(k, ...)}catch(e){} orig.apply(console,args); }];
    the original method posts nothing, and this is the call when it
    returns.  [Instance.console_shim] has the call with the original method
    ending either way. *)
Definition console_shim (k : channel) (args : list value) : M unit :=
  try_catch
    (parts <- map_args args ;; send (channel_name k) (VString (join parts)))
    (fun _ => ret tt).

Fixpoint console_calls (cs : list (channel * list value)) : M unit :=
  match cs with
  | [] => ret tt
  | (k, args) :: rest => console_shim k args ;;; console_calls rest
  end.

(** The messages a sequence of console calls posts. *)
Definition console_messages (cs : list (channel * list value)) : list message :=
  fst (console_calls cs []).

(** [new Function(code)] followed by [fn()]. *)
Definition call_fn (b : behaviour) : M value :=
  console_calls (calls b) ;;; lift (completion b).

(** [typeof result==='object' ? JSON.stringify(result,null,2) : String(result)] *)
Definition serialize_result (result : value) : M value :=
  if Js.typeof_object result then
    s <- lift (Js.JSON_stringify result) ;; ret (Js.of_option s)
  else
    s <- lift (Js.String_ result) ;; ret (VString s).

(** [e && (e.stack||e.message||String(e))] *)
Definition diagnostic (e : value) : M value :=
  if Js.truthy e then
    if Js.truthy (Js.get_stack e) then ret (Js.get_stack e)
    else if Js.truthy (Js.get_message e) then ret (Js.get_message e)
    else s <- lift (Js.String_ e) ;; ret (VString s)
  else ret e.

Definition is_undefined (v : value) : bool :=
  match v with VUndefined => true | _ => false end.

(** Lines 102-103: what follows a normal return of [fn()]. *)
Definition on_return (result : value) : M unit :=
  (if is_undefined result then ret tt
   else payload <- serialize_result result ;; send "result" payload) ;;;
  send "done" (VString "ok").

(** Lines 105-106: the body of the catch clause. *)
Definition on_throw (e : value) : M unit :=
  payload <- diagnostic e ;;
  send "error" payload ;;;
  send "done" (VString "error").

(** The try/catch of lines 99-107. *)
Definition script (b : behaviour) : M unit :=
  try_catch (result <- call_fn b ;; on_return result) on_throw.

(** The messages posted while the script runs, in posting order. *)
Definition sync_messages (b : behaviour) : list message := fst (script b []).

(** The messages posted afterwards by the deferred console calls. *)
Definition late_messages (b : behaviour) : list message :=
  console_messages (deferred b).

(** Everything one sandbox instance posts to the host. *)
Definition messages (b : behaviour) : list message :=
  sync_messages b ++ late_messages b.

End Sandbox.
Export Sandbox(message, Message, channel, Log, Info, Warn, Error, behaviour, Behaviour).


(** ** The host page *)

Module Page.

Definition STORAGE_KEY_CODE : string := "sweetjs_code_v1".
Definition STORAGE_KEY_THEME : string := "sweetjs_theme_v1".
Definition STORAGE_KEY_AC : string := "sweetjs_ac_v1".
Definition DEBOUNCE_MS : nat := 600.

(** A pending [setTimeout]; the only callback the modelled handlers
    register is the one of [scheduleAutoRun]. *)
Record timer := Timer { timer_id : nat; due : nat }.

(** The page state the handlers read and write. *)
Record state := State {
  code_value : string;                 (* els.code.value *)
  autorun_checked : bool;              (* els.autorun.checked *)
  ac_checked : bool;                   (* els.acToggle.checked *)
  dark_theme : bool;                   (* body has data-theme="dark" *)
  output : list (string * value);      (* els.output: the arguments of each appendLine *)
  status : string * string;            (* els.status: state class and text *)
  sandbox_docs : list string;          (* every srcdoc given to els.sandbox, latest first *)
  localStorage : gmap string string;
  debounceId : option nat;             (* null or a timer id *)
  lastRunCode : string;
  timers : list timer;                 (* the browser's pending timers, oldest first *)
  next_timer : nat;                    (* the id the next setTimeout returns *)
  now : nat }.                         (* the clock, in ms *)

Definition with_code (v : string) (s : state) : state :=
  State v (autorun_checked s) (ac_checked s) (dark_theme s) (output s) (status s)
        (sandbox_docs s) (localStorage s) (debounceId s) (lastRunCode s)
        (timers s) (next_timer s) (now s).
Definition with_autorun (v : bool) (s : state) : state :=
  State (code_value s) v (ac_checked s) (dark_theme s) (output s) (status s)
        (sandbox_docs s) (localStorage s) (debounceId s) (lastRunCode s)
        (timers s) (next_timer s) (now s).
Definition with_ac (v : bool) (s : state) : state :=
  State (code_value s) (autorun_checked s) v (dark_theme s) (output s) (status s)
        (sandbox_docs s) (localStorage s) (debounceId s) (lastRunCode s)
        (timers s) (next_timer s) (now s).
Definition with_dark (v : bool) (s : state) : state :=
  State (code_value s) (autorun_checked s) (ac_checked s) v (output s) (status s)
        (sandbox_docs s) (localStorage s) (debounceId s) (lastRunCode s)
        (timers s) (next_timer s) (now s).
Definition with_output (v : list (string * value)) (s : state) : state :=
  State (code_value s) (autorun_checked s) (ac_checked s) (dark_theme s) v (status s)
        (sandbox_docs s) (localStorage s) (debounceId s) (lastRunCode s)
        (timers s) (next_timer s) (now s).
Definition with_status (v : string * string) (s : state) : state :=
  State (code_value s) (autorun_checked s) (ac_checked s) (dark_theme s) (output s) v
        (sandbox_docs s) (localStorage s) (debounceId s) (lastRunCode s)
        (timers s) (next_timer s) (now s).
Definition with_sandbox_docs (v : list string) (s : state) : state :=
  State (code_value s) (autorun_checked s) (ac_checked s) (dark_theme s) (output s) (status s)
        v (localStorage s) (debounceId s) (lastRunCode s)
        (timers s) (next_timer s) (now s).
Definition with_localStorage (v : gmap string string) (s : state) : state :=
  State (code_value s) (autorun_checked s) (ac_checked s) (dark_theme s) (output s) (status s)
        (sandbox_docs s) v (debounceId s) (lastRunCode s)
        (timers s) (next_timer s) (now s).
Definition with_debounceId (v : option nat) (s : state) : state :=
  State (code_value s) (autorun_checked s) (ac_checked s) (dark_theme s) (output s) (status s)
        (sandbox_docs s) (localStorage s) v (lastRunCode s)
        (timers s) (next_timer s) (now s).
Definition with_lastRunCode (v : string) (s : state) : state :=
  State (code_value s) (autorun_checked s) (ac_checked s) (dark_theme s) (output s) (status s)
        (sandbox_docs s) (localStorage s) (debounceId s) v
        (timers s) (next_timer s) (now s).
Definition with_timers (v : list timer) (s : state) : state :=
  State (code_value s) (autorun_checked s) (ac_checked s) (dark_theme s) (output s) (status s)
        (sandbox_docs s) (localStorage s) (debounceId s) (lastRunCode s)
        v (next_timer s) (now s).
Definition with_next_timer (v : nat) (s : state) : state :=
  State (code_value s) (autorun_checked s) (ac_checked s) (dark_theme s) (output s) (status s)
        (sandbox_docs s) (localStorage s) (debounceId s) (lastRunCode s)
        (timers s) v (now s).
Definition with_now (v : nat) (s : state) : state :=
  State (code_value s) (autorun_checked s) (ac_checked s) (dark_theme s) (output s) (status s)
        (sandbox_docs s) (localStorage s) (debounceId s) (lastRunCode s)
        (timers s) (next_timer s) v.

(** [localStorage.setItem], [removeItem] and [getItem] *)
Definition setItem (k v : string) (s : state) : state :=
  with_localStorage (<[k := v]> (localStorage s)) s.
Definition removeItem (k : string) (s : state) : state :=
  with_localStorage (delete k (localStorage s)) s.
Definition getItem (k : string) (store : gmap string string) : option string :=
  store !! k.

Definition setTheme (mode : string) (s : state) : state :=
  if String.eqb mode "dark" then setItem STORAGE_KEY_THEME "dark" (with_dark true s)
  else setItem STORAGE_KEY_THEME "light" (with_dark false s).

Definition on_theme_click (s : state) : state :=
  setTheme (if dark_theme s then "light" else "dark") s.

Definition setStatus (st text : string) (s : state) : state :=
  with_status (st, text) s.

Definition appendLine (type : string) (msg : value) (s : state) : state :=
  with_output (output s ++ [(type, msg)]) s.

Definition clearOutput (s : state) : state := with_output [] s.

(** The text of the sandbox document for [code]: lines 86-109. *)
Definition sandboxDoc (code : string) : string :=
  let nl := JsString.newline in
  "<!DOCTYPE html><html><head><meta charset=" +:+ JsString.dquote +:+ "utf-8" +:+ JsString.dquote
    +:+ " /></head><body><script>" +:+ nl +:+
  "(function(){" +:+ nl +:+
  " const send=(type,msg)=>parent.postMessage({type,msg},'*');" +:+ nl +:+
  " ['log','info','warn','error'].forEach(k=>{" +:+ nl +:+
  "   const orig=console[k];" +:+ nl +:+
  "   console[k]=function(...args){" +:+ nl +:+
  "     try{send(k,args.map(a=>{" +:+ nl +:+
  "       if(typeof a==='object'){try{return JSON.stringify(a,null,2);}catch(e){return '[object]';}}" +:+ nl +:+
  "       return String(a);}).join(' '));}catch(e){}" +:+ nl +:+
  "     orig.apply(console,args);" +:+ nl +:+
  "   };" +:+ nl +:+
  " });" +:+ nl +:+
  " try {" +:+ nl +:+
  "   const fn = new Function(" +:+ JsString.json_quote code +:+ ");" +:+ nl +:+
  "   const result = fn();" +:+ nl +:+
  "   if(result!==undefined) send('result', (typeof result==='object'? JSON.stringify(result,null,2): String(result)));" +:+ nl +:+
  "   send('done','ok');" +:+ nl +:+
  " } catch(e){" +:+ nl +:+
  "   send('error', e && (e.stack||e.message||String(e)));" +:+ nl +:+
  "   send('done','error');" +:+ nl +:+
  " }" +:+ nl +:+
  "})();" +:+ nl +:+
  "</script></body></html>".

(** The status text "Running…" is kept as the source file spells it. *)
Definition runCode (s : state) : state :=
  let code := code_value s in
  if JsString.is_empty (JsString.trim code) then
    setStatus "idle" "Nothing to run" s
  else
    let s := clearOutput s in
    let s := setStatus "running" "Running…" s in
    let s := with_lastRunCode code s in
    with_sandbox_docs (sandboxDoc code :: sandbox_docs s) s.

(** The [message] listener.  [None] is an event whose data is falsy; a
    falsy [type] is the empty string. *)
Definition on_message (data : option message) (s : state) : state :=
  match data with
  | None => s
  | Some d =>
      if JsString.is_empty (Sandbox.type d) then s
      else if String.eqb (Sandbox.type d) "done" then
        if Js.strict_eq_string (Sandbox.msg d) "ok" then setStatus "success" "Completed" s
        else setStatus "error" "Error" s
      else appendLine (Sandbox.type d) (Sandbox.msg d) s
  end.

(** [clearTimeout]: a null or unknown id is ignored. *)
Definition clearTimeout (id : option nat) (s : state) : state :=
  match id with
  | None => s
  | Some i => with_timers (filter (fun t => timer_id t ≠ i) (timers s)) s
  end.

(** [setTimeout(callback, ms)]: returns the new id with the state. *)
Definition setTimeout (ms : nat) (s : state) : nat * state :=
  let id := next_timer s in
  (id, with_next_timer (S id) (with_timers (timers s ++ [Timer id (now s + ms)]) s)).

Definition scheduleAutoRun (s : state) : state :=
  if negb (autorun_checked s) then s
  else
    let s := clearTimeout (debounceId s) s in
    let '(id, s) := setTimeout DEBOUNCE_MS s in
    with_debounceId (Some id) s.

(** The callback [scheduleAutoRun] registers. *)
Definition autorun_callback (s : state) : state :=
  if String.eqb (code_value s) (lastRunCode s) then s else runCode s.

Definition on_clear_click (s : state) : state :=
  let s := with_code "" s in
  let s := clearOutput s in
  let s := setStatus "idle" "Cleared" s in
  removeItem STORAGE_KEY_CODE s.

(** The first [input] listener; the browser has put [text] in the editor.
    (The second one, [handleAutocomplete], only touches the suggestion
    panel.) *)
Definition on_input (text : string) (s : state) : state :=
  let s := with_code text s in
  let s := setItem STORAGE_KEY_CODE (code_value s) s in
  scheduleAutoRun s.

(** [findToken]: the leftmost match of [/[A-Za-z_$][\w.$]*$/] in the text
    before the caret, or the empty string. *)
Definition is_token_start (c : ascii) : bool :=
  let n := nat_of_ascii c in
  ((65 <=? n) && (n <=? 90)) || ((97 <=? n) && (n <=? 122)) || (n =? 95) || (n =? 36).
Definition is_token_char (c : ascii) : bool :=
  let n := nat_of_ascii c in
  is_token_start c || ((48 <=? n) && (n <=? 57)) || (n =? 46).

Fixpoint match_token (upTo : string) : string :=
  match upTo with
  | EmptyString => EmptyString
  | String c rest =>
      if is_token_start c && forallb is_token_char (list_ascii_of_string rest) then upTo
      else match_token rest
  end.

Definition findToken (text : string) (pos : nat) : string :=
  match_token (substring 0 pos text).

(** [commitAutocomplete(value)], with [pos] the caret ([selectionStart]). *)
Definition commitAutocomplete (value : string) (pos : nat) (s : state) : state :=
  let token := findToken (code_value s) pos in
  let start := pos - String.length token in
  let before := substring 0 start (code_value s) in
  let after := substring pos (String.length (code_value s) - pos) (code_value s) in
  let s := with_code (before +:+ value +:+ after) s in
  setItem STORAGE_KEY_CODE (code_value s) s.

Definition on_ac_change (checked : bool) (s : state) : state :=
  setItem STORAGE_KEY_AC (if checked then "on" else "off") (with_ac checked s).

(** The [keydown] listener of the window. *)
Definition on_keydown (meta alt : bool) (key : string) (s : state) : state :=
  let s := if meta && String.eqb key "Enter" then runCode s else s in
  if alt && (String.eqb key "c" || String.eqb key "C") then on_clear_click s else s.

(** The browser runs a timer's callback once the clock has reached its due
    time, oldest timer first, and forgets the timer. *)
Definition run_timers (s : state) : state :=
  let ready := filter (fun t => due t ≤ now s) (timers s) in
  let waiting := filter (fun t => ¬ (due t ≤ now s)) (timers s) in
  fold_left (fun s' _ => autorun_callback s') ready (with_timers waiting s).

Definition elapse (ms : nat) (s : state) : state :=
  run_timers (with_now (now s + ms) s).

(** What the page's markup fixes before the script runs. *)
Record markup := Markup {
  markup_code : string;        (* the textarea's default value *)
  markup_autorun : bool;       (* whether the autorun box starts checked *)
  markup_ac : bool;            (* whether the autocomplete box starts checked *)
  markup_dark : bool }.        (* whether body starts with data-theme="dark" *)

Definition fresh (m : markup) (store : gmap string string) : state :=
  State (markup_code m) (markup_autorun m) (markup_ac m) (markup_dark m)
        [] ("", "") [] store None "" [] 1 0.

Definition initState (s : state) : state :=
  let s := match getItem STORAGE_KEY_CODE (localStorage s) with
           | Some savedCode => if JsString.is_empty savedCode then s else with_code savedCode s
           | None => s
           end in
  let s := match getItem STORAGE_KEY_THEME (localStorage s) with
           | Some savedTheme => if String.eqb savedTheme "dark" then setTheme "dark" s else s
           | None => s
           end in
  match getItem STORAGE_KEY_AC (localStorage s) with
  | Some ac => with_ac (String.eqb ac "on") s
  | None => s
  end.

(** Loading the page: the top-level statements of the script, in order. *)
Definition load (m : markup) (store : gmap string string) : state :=
  setStatus "idle" "Idle" (initState (fresh m store)).

(** What can happen to the page. *)
Inductive event :=
| Input (text : string)            (* the user changes the editor text *)
| Commit (value : string) (pos : nat)   (* a suggestion is committed at the caret *)
| SetAutorun (checked : bool)      (* the user sets the autorun box *)
| ChangeAc (checked : bool)        (* the user sets the autocomplete box *)
| ClickRun
| ClickClear
| ClickTheme
| Keydown (meta alt : bool) (key : string)
| Post (data : option message)     (* a message event *)
| Elapse (ms : nat).               (* time passes *)

Definition step (s : state) (e : event) : state :=
  match e with
  | Input text => on_input text s
  | Commit value pos => commitAutocomplete value pos s
  | SetAutorun checked => with_autorun checked s
  | ChangeAc checked => on_ac_change checked s
  | ClickRun => runCode s
  | ClickClear => on_clear_click s
  | ClickTheme => on_theme_click s
  | Keydown meta alt key => on_keydown meta alt key s
  | Post data => on_message data s
  | Elapse ms => elapse ms s
  end.

Definition run (s : state) (es : list event) : state := fold_left step es s.

(** Delivering the messages of a sandbox instance, in order. *)
Definition deliver (ms : list message) (s : state) : state :=
  fold_left (fun s' m => on_message (Some m) s') ms s.

(** The messages a run trigger causes when the script of the instance it
    creates is executed and the code does [b]: those of the script, none
    when no instance is created.  Whether the browser gets to execute the
    script at all depends on the text as well: see [Live.instance_messages]. *)
Definition run_messages (s : state) (b : behaviour) : list message :=
  if length (sandbox_docs (runCode s)) =? length (sandbox_docs s) then []
  else Sandbox.messages b.

End Page.


(** ** A reference evaluator for the scenarios' JavaScript

    [new Function(code)] and the call of the function are the browser's.
    For the texts of the scenarios this module computes what they do, for a
    fragment of the language: statements [console.k(e, ...)], [return e]
    and [throw e] separated by semicolons on one line, over literals, [+]
    on two numbers or two strings and [new Error('...')].  Outside the
    fragment the evaluator answers [None]. *)

Module MiniJS.

Inductive token :=
| TWord (w : string)
| TNumber (n : Z)
| TString (s : string)
| TPunct (c : ascii).

Definition code_of (c : ascii) : nat := nat_of_ascii c.
Definition is_digit (c : ascii) : bool := (48 <=? code_of c) && (code_of c <=? 57).
Definition is_word_start (c : ascii) : bool :=
  let n := code_of c in
  ((65 <=? n) && (n <=? 90)) || ((97 <=? n) && (n <=? 122)) || (n =? 95) || (n =? 36).
Definition is_word_char (c : ascii) : bool := is_word_start c || is_digit c.
Definition is_blank (c : ascii) : bool := (code_of c =? 32) || (code_of c =? 9).
Definition is_quote (c : ascii) : bool := (code_of c =? 39) || (code_of c =? 34).
Definition is_punct (c : ascii) : bool :=
  existsb (Nat.eqb (code_of c)) [40; 41; 43; 44; 46; 59].   (* ( ) + , . ; *)

Fixpoint take_while (p : ascii -> bool) (s : string) : string * string :=
  match s with
  | String c rest =>
      if p c then let '(taken, remaining) := take_while p rest in (String c taken, remaining)
      else (EmptyString, s)
  | EmptyString => (EmptyString, EmptyString)
  end.

(** The body of a string literal up to the closing quote [q]; literals with
    an escape or a line break are outside the fragment. *)
Fixpoint read_quoted (q : ascii) (s : string) : option (string * string) :=
  match s with
  | EmptyString => None
  | String c rest =>
      if Ascii.eqb c q then Some (EmptyString, rest)
      else if (code_of c =? 92) || (code_of c <? 32) then None
      else match read_quoted q rest with
           | Some (body, remaining) => Some (String c body, remaining)
           | None => None
           end
  end.

Definition digits_value (d : string) : Z :=
  fold_left (fun acc c => (acc * 10 + Z.of_nat (code_of c - 48))%Z) (list_ascii_of_string d) 0%Z.

(** A decimal integer literal; a leading zero before more digits would be
    a legacy octal literal. *)
Definition number_token (d : string) : option token :=
  match d with
  | String c (String _ _) => if code_of c =? 48 then None else Some (TNumber (digits_value d))
  | _ => Some (TNumber (digits_value d))
  end.

Fixpoint lex (fuel : nat) (s : string) : option (list token) :=
  match fuel with
  | O => None
  | S fuel =>
      match s with
      | EmptyString => Some []
      | String c rest =>
          if is_blank c then lex fuel rest
          else if is_word_start c then
            let '(w, remaining) := take_while is_word_char s in
            ts ← lex fuel remaining; Some (TWord w :: ts)
          else if is_digit c then
            let '(d, remaining) := take_while is_digit s in
            t ← number_token d; ts ← lex fuel remaining; Some (t :: ts)
          else if is_quote c then
            '(body, remaining) ← read_quoted c rest;
            ts ← lex fuel remaining; Some (TString body :: ts)
          else if is_punct c then
            ts ← lex fuel rest; Some (TPunct c :: ts)
          else None
      end
  end.

Inductive expr :=
| ENum (n : Z)
| EStr (s : string)
| ENull
| EUndefined
| EBool (b : bool)
| ENewError (m : string)
| EAdd (a b : expr).

Inductive stmt :=
| SConsole (k : channel) (args : list expr)
| SReturn (e : option expr)
| SThrow (e : expr).

Definition punct (c : string) (t : token) : bool :=
  match t, c with
  | TPunct p, String q EmptyString => Ascii.eqb p q
  | _, _ => false
  end.

Definition parse_primary (ts : list token) : option (expr * list token) :=
  match ts with
  | TNumber n :: rest => Some (ENum n, rest)
  | TString s :: rest => Some (EStr s, rest)
  | TWord "null" :: rest => Some (ENull, rest)
  | TWord "undefined" :: rest => Some (EUndefined, rest)
  | TWord "true" :: rest => Some (EBool true, rest)
  | TWord "false" :: rest => Some (EBool false, rest)
  | TWord "new" :: TWord "Error" :: TPunct "("%char :: TString m :: TPunct ")"%char :: rest =>
      Some (ENewError m, rest)
  | _ => None
  end.

(** [primary (+ primary)*], associating to the left. *)
Fixpoint parse_sum (fuel : nat) (acc : expr) (ts : list token) : option (expr * list token) :=
  match fuel with
  | O => None
  | S fuel =>
      match ts with
      | TPunct "+"%char :: rest =>
          '(e, rest') ← parse_primary rest; parse_sum fuel (EAdd acc e) rest'
      | _ => Some (acc, ts)
      end
  end.

Definition parse_expr (fuel : nat) (ts : list token) : option (expr * list token) :=
  '(e, rest) ← parse_primary ts; parse_sum fuel e rest.

(** The arguments after an opening parenthesis, up to the closing one. *)
Fixpoint parse_more_args (fuel : nat) (ts : list token) : option (list expr * list token) :=
  match fuel with
  | O => None
  | S fuel =>
      match ts with
      | TPunct ")"%char :: rest => Some ([], rest)
      | TPunct ","%char :: rest =>
          '(e, rest') ← parse_expr fuel rest;
          '(es, rest'') ← parse_more_args fuel rest';
          Some (e :: es, rest'')
      | _ => None
      end
  end.

Definition parse_args (fuel : nat) (ts : list token) : option (list expr * list token) :=
  match ts with
  | TPunct ")"%char :: rest => Some ([], rest)
  | _ =>
      '(e, rest) ← parse_expr fuel ts;
      '(es, rest') ← parse_more_args fuel rest;
      Some (e :: es, rest')
  end.

Definition channel_of (w : string) : option channel :=
  if String.eqb w "log" then Some Log
  else if String.eqb w "info" then Some Info
  else if String.eqb w "warn" then Some Warn
  else if String.eqb w "error" then Some Error
  else None.

Definition parse_stmt (fuel : nat) (ts : list token) : option (stmt * list token) :=
  match ts with
  | TWord "console" :: TPunct "."%char :: TWord w :: TPunct "("%char :: rest =>
      k ← channel_of w;
      '(args, rest') ← parse_args fuel rest;
      Some (SConsole k args, rest')
  | TWord "return" :: rest =>
      match rest with
      | [] | TPunct ";"%char :: _ => Some (SReturn None, rest)
      | _ => '(e, rest') ← parse_expr fuel rest; Some (SReturn (Some e), rest')
      end
  | TWord "throw" :: rest =>
      '(e, rest') ← parse_expr fuel rest; Some (SThrow e, rest')
  | _ => None
  end.

Fixpoint parse_program (fuel : nat) (ts : list token) : option (list stmt) :=
  match fuel with
  | O => None
  | S fuel =>
      match ts with
      | [] => Some []
      | TPunct ";"%char :: rest => parse_program fuel rest
      | _ =>
          '(st, rest) ← parse_stmt fuel ts;
          match rest with
          | [] => Some [st]
          | TPunct ";"%char :: rest' => sts ← parse_program fuel rest'; Some (st :: sts)
          | _ => None
          end
      end
  end.

Section Evaluation.

(** The [stack] property the engine gives [new Error(m)] here: a text of
    the engine's own, or none. *)
Variable stack_of : string -> option string.

(** Integers a Number holds exactly. *)
Definition safe (n : Z) : bool := (Z.abs n <? 2 ^ 53)%Z.

Definition error_object (m : string) : value :=
  VObject (Object false
                  (Normal (Some "{}"))
                  (Normal (if JsString.is_empty m then "Error" else "Error: " +:+ m))
                  (Js.of_option (stack_of m))
                  (VString m)
                  true).

Fixpoint eval (e : expr) : option value :=
  match e with
  | ENum n => if safe n then Some (VNumber n) else None
  | EStr s => Some (VString s)
  | ENull => Some VNull
  | EUndefined => Some VUndefined
  | EBool b => Some (VBool b)
  | ENewError m => Some (error_object m)
  | EAdd a b =>
      va ← eval a; vb ← eval b;
      match va, vb with
      | VNumber x, VNumber y => if safe (x + y) then Some (VNumber (x + y)) else None
      | VString x, VString y => Some (VString (x +:+ y))
      | _, _ => None
      end
  end.

Fixpoint eval_all (es : list expr) : option (list value) :=
  match es with
  | [] => Some []
  | e :: rest => v ← eval e; vs ← eval_all rest; Some (v :: vs)
  end.

(** Runs the statements; [done] holds the console calls made so far,
    latest first. *)
Fixpoint exec (sts : list stmt) (done : list (channel * list value)) : option behaviour :=
  match sts with
  | [] => Some (Behaviour (rev done) (Normal VUndefined) [])
  | SConsole k args :: rest => vs ← eval_all args; exec rest ((k, vs) :: done)
  | SReturn None :: _ => Some (Behaviour (rev done) (Normal VUndefined) [])
  | SReturn (Some e) :: _ => v ← eval e; Some (Behaviour (rev done) (Normal v) [])
  | SThrow e :: _ => v ← eval e; Some (Behaviour (rev done) (Abrupt v) [])
  end.

Definition behaviour_of (code : string) : option behaviour :=
  let fuel := S (String.length code) in
  ts ← lex fuel code;
  sts ← parse_program (S (length ts)) ts;
  exec sts [].

End Evaluation.

End MiniJS.



(** ** The suggestion panel (lines 181-311 of [src/app.js]) *)

Module Suggest.
Import Page.

Definition JS_SUGGESTIONS : list string :=
  [ "console.log"; "console.info"; "console.warn"; "console.error";
    "Math.max"; "Math.min"; "Math.round"; "Math.floor"; "Math.ceil";
    "Array.prototype.map"; "Array.prototype.filter"; "Array.prototype.reduce";
    "JSON.parse"; "JSON.stringify";
    "setTimeout"; "setInterval"; "clearTimeout"; "clearInterval";
    "document.querySelector"; "document.querySelectorAll" ].

(** [String.prototype.toLowerCase] on code units below 256: the letters
    A-Z, and the accented capitals 192-222 other than the multiplication
    sign 215, move up by 32. *)
Definition to_lower (c : ascii) : ascii :=
  let n := nat_of_ascii c in
  if ((65 <=? n) && (n <=? 90)) || ((192 <=? n) && (n <=? 222) && negb (n =? 215))
  then ascii_of_nat (n + 32)
  else c.

Fixpoint toLowerCase (s : string) : string :=
  match s with
  | EmptyString => EmptyString
  | String c rest => String (to_lower c) (toLowerCase rest)
  end.

(** [s.includes(t)] *)
Fixpoint includes (s t : string) : bool :=
  String.prefix t s ||
  match s with
  | EmptyString => false
  | String _ rest => includes rest t
  end.

(** [split("\n")]: never empty, the last piece is what follows the last
    line break. *)
Fixpoint split_lines (s : string) : list string :=
  match s with
  | EmptyString => [EmptyString]
  | String c rest =>
      if nat_of_ascii c =? 10 then EmptyString :: split_lines rest
      else match split_lines rest with
           | l :: more => String c l :: more
           | [] => [String c EmptyString]
           end
  end.

(** The [line] and [col] of [getCaretPosition] (lines 207-211); the pixel
    position it derives from them depends on the browser's metrics. *)
Definition caret_line_col (text : string) (selectionStart : nat) : nat * nat :=
  let textUntilCaret := substring 0 selectionStart text in
  let lines := split_lines textUntilCaret in
  (length lines - 1, String.length (List.last lines EmptyString)).

(** The panel element: whether it has the class [hidden], and its item
    elements in order, each with its value and whether it has the class
    [active]. *)
Record panel := Panel { hidden : bool; items : list (string * bool) }.

Definition hideAutocomplete (p : panel) : panel := Panel true [].

Definition is_nil {A} (l : list A) : bool :=
  match l with [] => true | _ => false end.

(** [items.slice(0, 8).forEach((it, i) => ...)]: the first item is made
    active. *)
Definition showAutocomplete (its : list string) (p : panel) : panel :=
  if is_nil its then hideAutocomplete p
  else Panel false (imap (fun i it => (it, i =? 0)) (take 8 its)).

Definition handleAutocomplete (catalog : list string) (s : state) (selectionStart : nat)
    (p : panel) : panel :=
  if negb (ac_checked s) then hideAutocomplete p
  else
    let token := findToken (code_value s) selectionStart in
    if JsString.is_empty token || (String.length token <? 2) then hideAutocomplete p
    else
      showAutocomplete
        (List.filter (fun it => includes (toLowerCase it) (toLowerCase token)) catalog) p.

(** [items.findIndex(i => i.classList.contains("active"))] *)
Fixpoint findIndex (its : list (string * bool)) : Z :=
  match its with
  | [] => (-1)%Z
  | (_, true) :: _ => 0%Z
  | (_, false) :: rest => let i := findIndex rest in if (i <? 0)%Z then (-1)%Z else (i + 1)%Z
  end.

(** Removing [active] from every item and adding it to the item at [i]. *)
Definition activate (i : Z) (its : list (string * bool)) : list (string * bool) :=
  imap (fun j it => (fst it, (Z.of_nat j =? i)%Z)) its.

(** The key listener on the editor (lines 286-310).  It answers the new
    panel and the new page state: Enter and Tab commit the active item. *)
Definition on_editor_key (key : string) (selectionStart : nat) (p : panel) (s : state)
    : panel * state :=
  if hidden p then (p, s)
  else if is_nil (items p) then (p, s)
  else
    let idx := findIndex (items p) in
    let last_index := (Z.of_nat (length (items p)) - 1)%Z in
    if String.eqb key "ArrowDown" then
      (Panel (hidden p) (activate (Z.min last_index (idx + 1)) (items p)), s)
    else if String.eqb key "ArrowUp" then
      (Panel (hidden p) (activate (Z.max 0 (idx - 1)) (items p)), s)
    else if String.eqb key "Enter" || String.eqb key "Tab" then
      match items p !! Z.to_nat (if (0 <=? idx)%Z then idx else 0%Z) with
      | Some active => (hideAutocomplete p, commitAutocomplete (fst active) selectionStart s)
      | None => (p, s)
      end
    else if String.eqb key "Escape" then (hideAutocomplete p, s)
    else (p, s).

End Suggest.

(** * Vocabulary of the statements *)

Module Spec.
Import Sandbox Page.

(** A script computation only appends to the messages already posted. *)
Definition framed {A} (m : M A) : Prop :=
  forall posted, m posted = (posted ++ fst (m []), snd (m [])).

(** A message of one of the four console kinds, with a string payload. *)
Definition is_console_message (m : message) : Prop :=
  exists k text, m = Message (channel_name k) (VString text).

Definition done_ok : message := Message "done" (VString "ok").
Definition done_error : message := Message "done" (VString "error").

(** How the script's own messages end, against how the script ends: with
    [done], after at most one [result] or [error] message, when it runs to
    its end; with nothing when the catch clause itself throws. *)
Inductive ending : list message -> outcome value unit -> Prop :=
| ending_ok : ending [done_ok] (Normal tt)
| ending_result payload : ending [Message "result" payload; done_ok] (Normal tt)
| ending_error payload : ending [Message "error" payload; done_error] (Normal tt)
| ending_uncaught e : ending [] (Abrupt e).

(** The lines the listener appends for a sequence of messages. *)
Definition lines_of (ms : list message) : list (string * value) :=
  map (fun m => (Sandbox.type m, Sandbox.msg m))
      (filter (fun m => Sandbox.type m ≠ "done") ms).

(** At most one timer is pending, and it is the one [debounceId] names. *)
Definition timers_ok (s : state) : Prop :=
  timers s = [] \/ exists t, timers s = [t] /\ debounceId s = Some (timer_id t).

(** During a burst that began in [s0]: the editor holds [text], nothing
    has run since [s0], and the one pending timer was set at time [t0]. *)
Definition pending (s0 : state) (text : string) (t0 : nat) (s : state) : Prop :=
  code_value s = text /\
  sandbox_docs s = sandbox_docs s0 /\
  lastRunCode s = lastRunCode s0 /\
  autorun_checked s = autorun_checked s0 /\
  t0 <= now s < t0 + DEBOUNCE_MS /\
  exists id, timers s = [Timer id (t0 + DEBOUNCE_MS)] /\ debounceId s = Some id.

(** After the timer of the burst has fired: no timer is left, and a
    sandbox document was made for [text] exactly when [text] differed from
    the last-run snapshot and was not blank. *)
Definition settled (s0 : state) (text : string) (s : state) : Prop :=
  code_value s = text /\
  timers s = [] /\
  (sandbox_docs s, lastRunCode s) =
    if String.eqb text (lastRunCode s0) || JsString.is_empty (JsString.trim text)
    then (sandbox_docs s0, lastRunCode s0)
    else (sandboxDoc text :: sandbox_docs s0, text).

(** A burst of keystrokes: a first text-change, then further ones, each
    after the given pause. *)
Definition keystrokes (first : string) (more : list (nat * string)) : list event :=
  Input first :: flat_map (fun '(pause, text) => [Elapse pause; Input text]) more.

Definition last_text (first : string) (more : list (nat * string)) : string :=
  List.last (map snd more) first.

(** The page 100 ms after "1" was typed into the empty editor of a fresh
    page with the autorun box checked. *)
Definition typed_one : state :=
  State "1" true true false [] ("idle", "Idle") [] (<[STORAGE_KEY_CODE := "1"]> ∅)
        (Some 1) "" [Timer 1 600] 2 100.

(** The value [new TypeError(text)] with the engine's stack text. *)
Definition type_error (text stack_text : string) : value :=
  VObject (Object false (Normal (Some "{}")) (Normal ("TypeError: " +:+ text))
                  (VString stack_text) (VString text) true).

(** An object [JSON.stringify] rejects by throwing [why]: one that refers
    to itself, as [a] after [const a = {}; a.self = a]. *)
Definition circular_object (why : value) : object :=
  Object false (Abrupt why) (Normal "[object Object]") VUndefined VUndefined true.
Definition circular (why : value) : value := VObject (circular_object why).

(** [Object.create(null)]: no [stack], no [message], and [String] throws
    [why] on it. *)
Definition bare_object (why : value) : value :=
  VObject (Object false (Normal (Some "{}")) (Abrupt why) VUndefined VUndefined true).

(** The payload of the error message for [throw new Error('boom')],
    given the [stack] the engine attaches. *)
Definition boom_diagnostic (stack_of : string -> option string) : string :=
  match stack_of "boom" with
  | Some t => if JsString.is_empty t then "boom" else t
  | None => "boom"
  end.

(** A stack text that opens with the error's own line, as V8 writes it. *)
Definition headed_stack (m : string) : option string :=
  Some ("Error: " +:+ m +:+ JsString.newline +:+ "    at eval (<anonymous>)").

End Spec.
Import Spec.

(** ** Further vocabulary: invariants of the page and shapes of values *)

Module Shape.
Import Sandbox Page Suggest.

(** A value that is not an object. *)
Definition primitive (v : value) : bool :=
  match v with VObject _ => false | _ => true end.

(** The text [String] gives for a value, empty where [String] throws. *)
Definition text_of (v : value) : string :=
  match Js.String_ v with Normal t => t | Abrupt _ => "" end.

(** An argument on which the shim's [String(a)] throws. *)
Definition unprintable (a : value) : Prop :=
  Js.typeof_object a = false /\ exists e, Js.String_ a = Abrupt e.

Definition protocol_kinds : list string :=
  ["log"; "info"; "warn"; "error"; "result"; "done"].

Definition hex_value (c : ascii) : nat :=
  let n := nat_of_ascii c in if n <? 58 then n - 48 else n - 87.

(** Reads back the first code unit that [json_escape] wrote. *)
Definition unescape_head (s : string) : option (ascii * string) :=
  match s with
  | EmptyString => None
  | String c rest =>
      if nat_of_ascii c =? 92 then
        match rest with
        | String x rest' =>
            let n := nat_of_ascii x in
            if n =? 98 then Some (ascii_of_nat 8, rest')
            else if n =? 116 then Some (ascii_of_nat 9, rest')
            else if n =? 110 then Some (ascii_of_nat 10, rest')
            else if n =? 102 then Some (ascii_of_nat 12, rest')
            else if n =? 114 then Some (ascii_of_nat 13, rest')
            else if n =? 117 then
              match rest' with
              | String _ (String _ (String h (String l rest''))) =>
                  Some (ascii_of_nat (16 * hex_value h + hex_value l), rest'')
              | _ => None
              end
            else Some (x, rest')
        | EmptyString => None
        end
      else Some (c, rest)
  end.

(** Every pending timer is due after now and within the debounce window. *)
Definition timers_fresh (s : state) : Prop :=
  Forall (fun t => now s < due t <= now s + DEBOUNCE_MS) (timers s).

(** The last-run snapshot is the text of the latest sandbox document, and
    is empty only while no document was ever made. *)
Definition snapshot_ok (s : state) : Prop :=
  match sandbox_docs s with
  | [] => lastRunCode s = ""
  | doc :: _ => doc = sandboxDoc (lastRunCode s) /\ ¬ JsString.all_white_space (lastRunCode s)
  end.

Definition run_states : list string := ["idle"; "running"; "success"; "error"].

(** Events that are no explicit run trigger and do not check the autorun
    box. *)
Definition no_trigger (e : event) : bool :=
  match e with
  | ClickRun => false
  | Keydown meta _ key => negb (meta && String.eqb key "Enter")
  | SetAutorun checked => negb checked
  | _ => true
  end.

(** The storage keys an event may write or remove. *)
Definition touched (e : event) : list string :=
  match e with
  | Input _ | Commit _ _ | ClickClear => [STORAGE_KEY_CODE]
  | Keydown _ alt _ => if alt then [STORAGE_KEY_CODE] else []
  | ClickTheme => [STORAGE_KEY_THEME]
  | ChangeAc _ => [STORAGE_KEY_AC]
  | _ => []
  end.

(** The stored theme and the body attribute agree. *)
Definition theme_saved (s : state) : Prop :=
  localStorage s !! STORAGE_KEY_THEME = Some (if dark_theme s then "dark" else "light").

(** Exactly one item of the panel is active, the one at index [i]. *)
Definition only_active (i : nat) (its : list (string * bool)) : Prop :=
  i < length its /\ forall j it, its !! j = Some it -> snd it = bool_decide (j = i).

Definition count_newlines (s : string) : nat :=
  length (List.filter (fun c => nat_of_ascii c =? 10) (list_ascii_of_string s)).

(** [lines.join("\n")] *)
Fixpoint join_lines (ls : list string) : string :=
  match ls with
  | [] => ""
  | [l] => l
  | l :: rest => l +:+ JsString.newline +:+ join_lines rest
  end.

(** [t] is a match of [/[A-Za-z_$][\w.$]*$/] starting at its first
    character. *)
Definition token_like (t : string) : bool :=
  match t with
  | EmptyString => false
  | String c rest => is_token_start c && forallb is_token_char (list_ascii_of_string rest)
  end.

End Shape.
Import Shape.

(** * The sandbox instance as a whole

    [Sandbox.behaviour] describes code that reaches the host through the
    console shim and through its completion only.  Nothing keeps the code
    from calling [parent.postMessage] itself, as line 89 does, and a console
    call also runs the original method (line 96), outside the shim's
    try/catch.  [Instance] keeps the script of [Sandbox] and widens the
    description of the code; built-in objects are taken as the browser
    provides them. *)

Module Instance.
Import Sandbox.

(** What the code does that the script or the host can observe. *)
Inductive action :=
| Call (k : channel) (args : list value) (native : outcome value unit)
    (* a call of an overridden console method; [native] is how
       [orig.apply(console,args)] ends for these arguments *)
| Post (type : string) (msg : value).
    (* the code's own [parent.postMessage({type,msg},'*')]; data without a
       [type] is [Post ""], which the listener ignores like it *)

(** What one execution of the user's function does: its actions before it
    completes, how it completes, and the actions of the callbacks it left
    behind. *)
Record activity := Activity {
  actions : list action;
  completion : outcome value value;
  later : list action }.

(** [console[k]=function(...args){ try{send(k, ...)}catch(e){} orig.apply(console,args); }] *)
Definition console_shim (k : channel) (args : list value) (native : outcome value unit)
    : M unit :=
  try_catch
    (parts <- map_args args ;; send (channel_name k) (VString (join parts)))
    (fun _ => ret tt) ;;;
  lift native.

Definition perform (act : action) : M unit :=
  match act with
  | Call k args native => console_shim k args native
  | Post type msg => send type msg
  end.

(** What an action returns or throws goes to the user's code, which goes
    on as the rest of the list says. *)
Fixpoint perform_all (acts : list action) : M unit :=
  match acts with
  | [] => ret tt
  | act :: rest => fun posted => perform_all rest (fst (perform act posted))
  end.

(** The messages a sequence of actions posts. *)
Definition emitted (acts : list action) : list message :=
  fst (perform_all acts []).

(** [new Function(code)] followed by [fn()]. *)
Definition call_fn (a : activity) : M value :=
  perform_all (actions a) ;;; lift (completion a).

(** The try/catch of lines 99-107. *)
Definition script (a : activity) : M unit :=
  try_catch (result <- call_fn a ;; on_return result) on_throw.

Definition sync_messages (a : activity) : list message := fst (script a []).

Definition late_messages (a : activity) : list message := emitted (later a).

(** Everything one sandbox instance posts to the host. *)
Definition messages (a : activity) : list message :=
  sync_messages a ++ late_messages a.

(** A [behaviour] as an activity: console calls whose original method
    returns, and no post of the code's own. *)
Definition plain_calls (cs : list (channel * list value)) : list action :=
  map (fun c => Call (fst c) (snd c) (Normal tt)) cs.

Definition plain (b : behaviour) : activity :=
  Activity (plain_calls (calls b)) (Sandbox.completion b) (plain_calls (deferred b)).

End Instance.
Export Instance(action, Call, activity, Activity).

(** ** How the browser reads the script element of the sandbox document

    The document is parsed as HTML.  After [<script>] the tokenizer is in
    the script data state and leaves the element at the first end tag
    [</script] that is followed by white space, [/] or [>]; the states for
    [<!--] and a nested [<script] decide which occurrences count.  The
    literal that [JSON.stringify(code)] writes keeps [<], [/], [!], [-] and
    [>] as they are, so the text of the editor takes part in this. *)

Module Html.

Inductive tokenizer :=
| ScriptData
| LessThan
| EndTagOpen
| EndTagName (name : string)
| EscapeStart
| EscapeStartDash
| Escaped
| EscapedDash
| EscapedDashDash
| EscapedLessThan
| EscapedEndTagOpen
| EscapedEndTagName (name : string)
| DoubleEscapeStart (buffer : string)
| DoubleEscaped
| DoubleEscapedDash
| DoubleEscapedDashDash
| DoubleEscapedLessThan
| DoubleEscapeEnd (buffer : string)
| Closed.   (* an end tag of the script element has been recognised *)

Definition code_is (n : nat) (c : ascii) : bool := nat_of_ascii c =? n.

Definition is_alpha (c : ascii) : bool :=
  let n := nat_of_ascii c in
  ((65 <=? n) && (n <=? 90)) || ((97 <=? n) && (n <=? 122)).

Definition lower (c : ascii) : ascii :=
  let n := nat_of_ascii c in
  if (65 <=? n) && (n <=? 90) then ascii_of_nat (n + 32) else c.

(** Tab, line feed, form feed, space, [/] and [>]: what ends a tag name. *)
Definition ends_name (c : ascii) : bool :=
  code_is 9 c || code_is 10 c || code_is 12 c || code_is 32 c || code_is 47 c || code_is 62 c.

Definition push (name : string) (c : ascii) : string :=
  name +:+ String (lower c) EmptyString.

Definition script_data (c : ascii) : tokenizer :=
  if code_is 60 c then LessThan else ScriptData.

Definition escaped (c : ascii) : tokenizer :=
  if code_is 45 c then EscapedDash else if code_is 60 c then EscapedLessThan else Escaped.

Definition double_escaped (c : ascii) : tokenizer :=
  if code_is 45 c then DoubleEscapedDash
  else if code_is 60 c then DoubleEscapedLessThan
  else DoubleEscaped.

(** The two end tag name states: [again] is the state the character is
    read in when the name is not that of the element. *)
Definition end_tag_name (name : string) (c : ascii)
    (more : string -> tokenizer) (again : ascii -> tokenizer) : tokenizer :=
  if ends_name c then (if String.eqb name "script" then Closed else again c)
  else if is_alpha c then more (push name c)
  else again c.

Definition double_escape_start (buffer : string) (c : ascii) : tokenizer :=
  if ends_name c then (if String.eqb buffer "script" then DoubleEscaped else Escaped)
  else if is_alpha c then DoubleEscapeStart (push buffer c)
  else escaped c.

Definition double_escape_end (buffer : string) (c : ascii) : tokenizer :=
  if ends_name c then (if String.eqb buffer "script" then Escaped else DoubleEscaped)
  else if is_alpha c then DoubleEscapeEnd (push buffer c)
  else double_escaped c.

Definition next (st : tokenizer) (c : ascii) : tokenizer :=
  match st with
  | ScriptData => script_data c
  | LessThan =>
      if code_is 47 c then EndTagOpen else if code_is 33 c then EscapeStart else script_data c
  | EndTagOpen => if is_alpha c then EndTagName (push "" c) else script_data c
  | EndTagName name => end_tag_name name c EndTagName script_data
  | EscapeStart => if code_is 45 c then EscapeStartDash else script_data c
  | EscapeStartDash => if code_is 45 c then EscapedDashDash else script_data c
  | Escaped => escaped c
  | EscapedDash =>
      if code_is 45 c then EscapedDashDash else if code_is 60 c then EscapedLessThan else Escaped
  | EscapedDashDash =>
      if code_is 45 c then EscapedDashDash
      else if code_is 60 c then EscapedLessThan
      else if code_is 62 c then ScriptData
      else Escaped
  | EscapedLessThan =>
      if code_is 47 c then EscapedEndTagOpen
      else if is_alpha c then double_escape_start "" c
      else escaped c
  | EscapedEndTagOpen => if is_alpha c then EscapedEndTagName (push "" c) else escaped c
  | EscapedEndTagName name => end_tag_name name c EscapedEndTagName escaped
  | DoubleEscapeStart buffer => double_escape_start buffer c
  | DoubleEscaped => double_escaped c
  | DoubleEscapedDash =>
      if code_is 45 c then DoubleEscapedDashDash
      else if code_is 60 c then DoubleEscapedLessThan
      else DoubleEscaped
  | DoubleEscapedDashDash =>
      if code_is 45 c then DoubleEscapedDashDash
      else if code_is 60 c then DoubleEscapedLessThan
      else if code_is 62 c then ScriptData
      else DoubleEscaped
  | DoubleEscapedLessThan => if code_is 47 c then DoubleEscapeEnd "" else double_escaped c
  | DoubleEscapeEnd buffer => double_escape_end buffer c
  | Closed => Closed
  end.

(** Reads [text] from state [st] up to the character that completes the
    name of an end tag of the element; answers the state reached and the
    text after that character. *)
Fixpoint feed (st : tokenizer) (text : string) : tokenizer * string :=
  match text with
  | EmptyString => (st, EmptyString)
  | String c rest =>
      match next st c with
      | Closed => (Closed, rest)
      | st' => feed st' rest
      end
  end.

(** What the sandbox document holds before the script's text. *)
Definition document_head : string :=
  "<!DOCTYPE html><html><head><meta charset=" +:+ JsString.dquote +:+ "utf-8" +:+ JsString.dquote
    +:+ " /></head><body><script>".

(** The script element holds the whole script when its first end tag is
    the [</script>] that the document ends with.  An earlier end tag cuts
    the script inside the literal, so that it cannot compile; with none
    recognised the element is never run. *)
Definition script_intact (doc : string) : bool :=
  String.prefix document_head doc &&
  match feed ScriptData
          (substring (String.length document_head)
                     (String.length doc - String.length document_head) doc) with
  | (Closed, rest) => String.eqb rest "</body></html>"
  | _ => false
  end.

End Html.

(** ** A run, from the page to the messages it receives *)

Module Live.
Import Sandbox Page.

Definition script_runs (code : string) : bool := Html.script_intact (sandboxDoc code).

(** What the script of the instance that a run trigger creates, and the
    code it runs, post to the host: nothing when no instance is created,
    and nothing when the script element is cut short.  (A text that cuts it
    short can bring markup of its own into the document; that is not the
    script's.) *)
Definition instance_messages (s : state) (a : activity) : list message :=
  if length (sandbox_docs (runCode s)) =? length (sandbox_docs s) then []
  else
    match sandbox_docs (runCode s) with
    | doc :: _ => if Html.script_intact doc then Instance.messages a else []
    | [] => []
    end.

(** The text with [ins] put in at [pos]. *)
Definition insert_at (pos : nat) (ins text : string) : string :=
  substring 0 pos text +:+ ins +:+ substring pos (String.length text - pos) text.

(** A plain Enter pressed in the editor of [src/app.js], the caret at
    [pos]: no [keydown] listener prevents the default action, so the
    browser puts a line break at the caret and fires [input] (both [input]
    listeners run, lines 153 and 285); only then does [keyup] reach the key
    listener of line 286. *)
Definition press_enter (catalog : list string) (pos : nat) (p : Suggest.panel) (s : state)
    : Suggest.panel * state :=
  let s := on_keydown false false "Enter" s in
  let s := on_input (insert_at pos JsString.newline (code_value s)) s in
  let p := Suggest.handleAutocomplete catalog s (pos + 1) p in
  Suggest.on_editor_key "Enter" (pos + 1) p s.

End Live.
Import Live.

(** ** Vocabulary for activities *)

Module Conduct.
Import Sandbox Page Instance.

Definition is_call (act : action) : bool :=
  match act with Call _ _ _ => true | Post _ _ => false end.

(** The code and its callbacks post nothing to the host themselves. *)
Definition quiet (a : activity) : Prop :=
  forallb is_call (actions a ++ later a) = true.

Definition posts_done (act : action) : bool :=
  match act with Call _ _ _ => false | Post type _ => String.eqb type "done" end.

(** The code and its callbacks post no [done] message themselves. *)
Definition leaves_done_alone (a : activity) : Prop :=
  existsb posts_done (actions a ++ later a) = false.

(** The messages the code posted itself, among its actions. *)
Definition own_posts (acts : list action) : list message :=
  flat_map (fun act => match act with
                       | Call _ _ _ => []
                       | Post type msg => [Message type msg]
                       end) acts.

(** A stack text that lists frames only, as SpiderMonkey and JavaScriptCore
    write it. *)
Definition frames_only (m : string) : option string :=
  Some ("anonymous@about:srcdoc line 14 > Function:3:7" +:+ JsString.newline).

(** An object whose [message] is a function: truthy, and not cloneable. *)
Definition message_is_function : value :=
  VObject (Object false (Normal (Some "{}")) (Normal "[object Object]") VUndefined
                  (VObject (Object true (Normal None) (Normal "function(){}")
                                   VUndefined VUndefined false))
                  true).

(** The tokenizer has recognised an end tag of the script element. *)
Definition closed (st : Html.tokenizer) : bool :=
  match st with Html.Closed => true | _ => false end.

(** The text begins with [/] or [!]. *)
Definition starts_tag (code : string) : bool :=
  match code with
  | String d _ => Html.code_is 47 d || Html.code_is 33 d
  | EmptyString => false
  end.

(** No [<] of the text is directly followed by [/] or [!]. *)
Fixpoint tame (code : string) : bool :=
  match code with
  | String c rest => negb (Html.code_is 60 c && starts_tag rest) && tame rest
  | EmptyString => true
  end.

(** The texts a reload can show when the editor has no default text. *)
Definition restored (store : gmap string string) : string :=
  match store !! STORAGE_KEY_CODE with
  | Some saved => saved
  | None => ""
  end.

End Conduct.
Import Conduct.


(** * Properties *)

(** ** Trimming *)

Section Trimming.
Import JsString.

Lemma trimStart_blank (s : string) : all_white_space s -> trimStart s = "".
Proof.
  unfold all_white_space.
  induction s as [|c rest IH]; simpl; intros H; [reflexivity|].
  inversion H as [|? ? Hc Hrest]; subst. rewrite Hc. auto.
Qed.

Lemma trim_blank (s : string) : all_white_space s -> trim s = "".
Proof. intros H. unfold trim. rewrite trimStart_blank by assumption. reflexivity. Qed.

Lemma trimEnd_blank (s : string) : trimEnd s = "" -> all_white_space s.
Proof.
  unfold all_white_space.
  induction s as [|c rest IH]; simpl; intros H; [constructor|].
  destruct (trimEnd rest) eqn:E; [|discriminate].
  destruct (is_white_space c) eqn:Hc; [|discriminate].
  constructor; auto.
Qed.

Lemma trimStart_keeps (s : string) : all_white_space (trimStart s) -> all_white_space s.
Proof.
  unfold all_white_space.
  induction s as [|c rest IH]; simpl; intros H; [constructor|].
  destruct (is_white_space c) eqn:Hc.
  - constructor; auto.
  - simpl in H. inversion H; congruence.
Qed.

(** The guard of [runCode] fires exactly on the blank texts. *)
Lemma trim_empty_iff (s : string) : is_empty (trim s) = true <-> all_white_space s.
Proof.
  split.
  - intros H. apply trimStart_keeps, trimEnd_blank.
    unfold trim in H. destruct (trimEnd (trimStart s)); [reflexivity|discriminate].
  - intros H. rewrite trim_blank by assumption. reflexivity.
Qed.

End Trimming.

(** ** The sandbox script *)

Section Script.
Import Sandbox.

Lemma framed_ret {A} (a : A) : framed (ret a).
Proof. intros posted. unfold ret. simpl. by rewrite app_nil_r. Qed.

Lemma framed_lift {A} (o : outcome value A) : framed (lift o).
Proof. intros posted. unfold lift. simpl. by rewrite app_nil_r. Qed.

Lemma framed_send ty v : framed (send ty v).
Proof.
  intros posted. unfold send. destruct (Js.cloneable v); simpl; [done|].
  by rewrite app_nil_r.
Qed.

Lemma framed_bind {A B} (m : M A) (k : A -> M B) :
  framed m -> (forall a, framed (k a)) -> framed (bind m k).
Proof.
  intros Hm Hk posted. unfold bind. rewrite (Hm posted).
  destruct (m []) as [p [a|e]]; simpl; [|done].
  rewrite (Hk a (posted ++ p)), (Hk a p). simpl. by rewrite app_assoc.
Qed.

Lemma framed_try_catch {A} (body : M A) (handler : value -> M A) :
  framed body -> (forall e, framed (handler e)) -> framed (try_catch body handler).
Proof.
  intros Hm Hk posted. unfold try_catch. rewrite (Hm posted).
  destruct (body []) as [p [a|e]]; simpl; [done|].
  rewrite (Hk e (posted ++ p)), (Hk e p). simpl. by rewrite app_assoc.
Qed.

Create HintDb framed.
#[local] Hint Resolve framed_ret framed_lift framed_send framed_bind framed_try_catch : framed.

Lemma framed_serialize_arg a : framed (serialize_arg a).
Proof. unfold serialize_arg. destruct (Js.typeof_object a); auto 6 with framed. Qed.
#[local] Hint Resolve framed_serialize_arg : framed.

Lemma framed_map_args args : framed (map_args args).
Proof. induction args; simpl; auto 8 with framed. Qed.
#[local] Hint Resolve framed_map_args : framed.

Lemma framed_console_shim k args : framed (console_shim k args).
Proof. unfold console_shim. auto 8 with framed. Qed.
#[local] Hint Resolve framed_console_shim : framed.

Lemma framed_console_calls cs : framed (console_calls cs).
Proof. induction cs as [|[k args] rest IH]; simpl; auto 8 with framed. Qed.
#[local] Hint Resolve framed_console_calls : framed.

Lemma framed_serialize_result v : framed (serialize_result v).
Proof. unfold serialize_result. destruct (Js.typeof_object v); auto 6 with framed. Qed.

Lemma framed_diagnostic e : framed (diagnostic e).
Proof.
  unfold diagnostic.
  destruct (Js.truthy e), (Js.truthy (Js.get_stack e)), (Js.truthy (Js.get_message e));
    auto 6 with framed.
Qed.
#[local] Hint Resolve framed_serialize_result framed_diagnostic : framed.

(** Serialising arguments posts nothing. *)
Lemma serialize_arg_silent a posted : fst (serialize_arg a posted) = posted.
Proof.
  unfold serialize_arg, try_catch, bind, lift, ret.
  destruct (Js.typeof_object a).
  - destruct (Js.JSON_stringify a); reflexivity.
  - destruct (Js.String_ a); reflexivity.
Qed.

Lemma map_args_silent args posted : fst (map_args args posted) = posted.
Proof.
  revert posted. induction args as [|a rest IH]; intros posted; simpl; [reflexivity|].
  unfold bind. pose proof (serialize_arg_silent a posted) as Ha.
  destruct (serialize_arg a posted) as [p [x|e]]; simpl in *; subst; [|reflexivity].
  pose proof (IH posted) as Hr.
  destruct (map_args rest posted) as [p' [xs|e]]; simpl in *; subst; reflexivity.
Qed.

(** One console call posts at most one message, of its own kind and with
    a string for payload, and never throws. *)
Lemma console_shim_spec k args :
  snd (console_shim k args []) = Normal tt /\
  (fst (console_shim k args []) = [] \/
   exists text, fst (console_shim k args []) = [Message (channel_name k) (VString text)]).
Proof.
  unfold console_shim, try_catch, bind.
  pose proof (map_args_silent args []) as Hs.
  destruct (map_args args []) as [p [parts|e]]; simpl in *; subst.
  - unfold send. simpl. split; [reflexivity|]. right. eauto.
  - unfold ret. simpl. auto.
Qed.

Lemma console_calls_returns cs posted : snd (console_calls cs posted) = Normal tt.
Proof.
  revert posted. induction cs as [|[k args] rest IH]; intros posted; simpl; [reflexivity|].
  unfold bind. rewrite (framed_console_shim k args posted).
  destruct (console_shim_spec k args) as [Hr _].
  destruct (console_shim k args []) as [p r]. simpl in *. subst. apply IH.
Qed.

Lemma console_calls_run cs posted :
  console_calls cs posted = (posted ++ console_messages cs, Normal tt).
Proof.
  rewrite (framed_console_calls cs posted). unfold console_messages.
  by rewrite (console_calls_returns cs []).
Qed.

(** The messages of a sequence of calls are those of each call, in call
    order. *)
Lemma console_messages_cons k args cs :
  console_messages ((k, args) :: cs) = console_messages [(k, args)] ++ console_messages cs.
Proof.
  unfold console_messages at 1 2. simpl. unfold bind.
  destruct (console_shim_spec k args) as [Hr _].
  destruct (console_shim k args []) as [p r] eqn:E. simpl in Hr. subst r.
  unfold ret. simpl. by rewrite console_calls_run.
Qed.

Lemma console_messages_kinds cs : Forall is_console_message (console_messages cs).
Proof.
  induction cs as [|[k args] rest IH]; [constructor|].
  rewrite console_messages_cons. apply Forall_app. split; [|exact IH].
  unfold console_messages. simpl. unfold bind.
  destruct (console_shim_spec k args) as [Hr Hm].
  destruct (console_shim k args []) as [p r]. simpl in *. subst r. unfold ret. simpl.
  destruct Hm as [->|[text ->]]; repeat constructor. by exists k, text.
Qed.

Lemma console_messages_app cs1 cs2 :
  console_messages (cs1 ++ cs2) = console_messages cs1 ++ console_messages cs2.
Proof.
  induction cs1 as [|[k args] rest IH]; [reflexivity|].
  simpl. rewrite (console_messages_cons k args (rest ++ cs2)), IH.
  rewrite (console_messages_cons k args rest). by rewrite app_assoc.
Qed.

Lemma console_message_not_done m : is_console_message m -> type m ≠ "done".
Proof. intros (k & text & ->). destruct k; discriminate. Qed.

Lemma console_message_typed m : is_console_message m -> type m ≠ "".
Proof. intros (k & text & ->). destruct k; discriminate. Qed.

(** The payload of a result message is a string or undefined, and
    computing it posts nothing. *)
Lemma serialize_result_spec v :
  fst (serialize_result v []) = [] /\
  forall payload, snd (serialize_result v []) = Normal payload -> Js.cloneable payload = true.
Proof.
  unfold serialize_result, bind, lift, ret.
  destruct (Js.typeof_object v).
  - destruct (Js.JSON_stringify v) as [[t|]|e]; simpl; split; try reflexivity;
      intros payload [= <-]; reflexivity.
  - destruct (Js.String_ v) as [t|e]; simpl; split; try reflexivity;
      intros payload [= <-]; reflexivity.
Qed.

Lemma on_return_spec result :
  on_return result [] =
    if is_undefined result then ([done_ok], Normal tt)
    else match snd (serialize_result result []) with
         | Normal payload => ([Message "result" payload; done_ok], Normal tt)
         | Abrupt e => ([], Abrupt e)
         end.
Proof.
  unfold on_return, bind. destruct (is_undefined result); [reflexivity|].
  destruct (serialize_result_spec result) as [Hs Hc].
  destruct (serialize_result result []) as [p [payload|e]]; simpl in *; subst p; [|reflexivity].
  unfold send. rewrite (Hc payload eq_refl). reflexivity.
Qed.

Lemma diagnostic_silent e : fst (diagnostic e []) = [].
Proof.
  unfold diagnostic, bind, lift, ret.
  destruct (Js.truthy e), (Js.truthy (Js.get_stack e)), (Js.truthy (Js.get_message e));
    try reflexivity; destruct (Js.String_ e); reflexivity.
Qed.

Lemma on_throw_spec e :
  on_throw e [] =
    match snd (diagnostic e []) with
    | Normal payload =>
        if Js.cloneable payload then ([Message "error" payload; done_error], Normal tt)
        else ([], Abrupt Js.DataCloneError)
    | Abrupt x => ([], Abrupt x)
    end.
Proof.
  unfold on_throw, bind. pose proof (diagnostic_silent e) as Hs.
  destruct (diagnostic e []) as [p [payload|x]]; simpl in *; subst p; [|reflexivity].
  unfold send. destruct (Js.cloneable payload); reflexivity.
Qed.

Lemma on_throw_ending e : ending (fst (on_throw e [])) (snd (on_throw e [])).
Proof.
  rewrite on_throw_spec. destruct (snd (diagnostic e [])) as [payload|x]; simpl.
  - destruct (Js.cloneable payload); simpl; constructor.
  - constructor.
Qed.

Lemma framed_on_throw e : framed (on_throw e).
Proof. unfold on_throw. auto 8 with framed. Qed.

Lemma framed_on_return result : framed (on_return result).
Proof. unfold on_return. destruct (is_undefined result); auto 8 with framed. Qed.

(** The script first lets the console calls post, then reports how the
    function completed. *)
Lemma script_spec b :
  script b [] =
    let cm := console_messages (calls b) in
    match completion b with
    | Normal result =>
        match on_return result [] with
        | (ms, Normal _) => (cm ++ ms, Normal tt)
        | (_, Abrupt e) => (cm ++ fst (on_throw e []), snd (on_throw e []))
        end
    | Abrupt e => (cm ++ fst (on_throw e []), snd (on_throw e []))
    end.
Proof.
  unfold script, try_catch, call_fn, bind. rewrite console_calls_run. simpl.
  unfold lift. destruct (completion b) as [result|e].
  - rewrite (framed_on_return result (console_messages (calls b))).
    rewrite on_return_spec. destruct (is_undefined result); [reflexivity|].
    destruct (snd (serialize_result result [])) as [payload|e]; simpl; [reflexivity|].
    rewrite app_nil_r. apply framed_on_throw.
  - apply framed_on_throw.
Qed.

(** Whatever the user's function does, the script's messages are those of
    the console calls followed by an [ending]. *)
Lemma script_ending b :
  exists tail,
    fst (script b []) = console_messages (calls b) ++ tail /\
    ending tail (snd (script b [])).
Proof.
  rewrite script_spec. simpl. destruct (completion b) as [result|e].
  - rewrite on_return_spec. destruct (is_undefined result).
    + eexists. split; [reflexivity|constructor].
    + destruct (snd (serialize_result result [])) as [payload|e]; simpl.
      * eexists. split; [reflexivity|constructor].
      * eexists. split; [reflexivity|apply on_throw_ending].
  - eexists. split; [reflexivity|apply on_throw_ending].
Qed.

End Script.

(** ** The run controller *)

Section Controller.
Import Sandbox Page.

Lemma runCode_blank s :
  JsString.is_empty (JsString.trim (code_value s)) = true ->
  runCode s = setStatus "idle" "Nothing to run" s.
Proof. intros H. unfold runCode. by rewrite H. Qed.

Lemma runCode_launch s :
  JsString.is_empty (JsString.trim (code_value s)) = false ->
  runCode s =
    with_sandbox_docs (sandboxDoc (code_value s) :: sandbox_docs s)
      (with_lastRunCode (code_value s)
         (setStatus "running" "Running…" (clearOutput s))).
Proof. intros H. unfold runCode. by rewrite H. Qed.

Lemma run_messages_blank s b :
  JsString.is_empty (JsString.trim (code_value s)) = true -> run_messages s b = [].
Proof.
  intros H. unfold run_messages. rewrite runCode_blank by assumption.
  simpl. by rewrite Nat.eqb_refl.
Qed.

Lemma run_messages_launch s b :
  JsString.is_empty (JsString.trim (code_value s)) = false ->
  run_messages s b = Sandbox.messages b.
Proof.
  intros H. unfold run_messages. rewrite runCode_launch by assumption.
  cbn [sandbox_docs with_sandbox_docs]. change (length (?d :: ?l)) with (S (length l)).
  destruct (Nat.eqb_spec (S (length (sandbox_docs s))) (length (sandbox_docs s))); [lia|done].
Qed.

Lemma messages_typed b : Forall (fun m => type m ≠ "") (Sandbox.messages b).
Proof.
  unfold Sandbox.messages, sync_messages, late_messages.
  destruct (script_ending b) as (tail & -> & Hend).
  rewrite !Forall_app. repeat split.
  - eapply Forall_impl; [apply console_messages_kinds|]. apply console_message_typed.
  - inversion Hend; repeat constructor; discriminate.
  - eapply Forall_impl; [apply console_messages_kinds|]. apply console_message_typed.
Qed.

Lemma lines_of_cons m ms :
  lines_of (m :: ms) =
    if decide (type m ≠ "done") then (type m, msg m) :: lines_of ms else lines_of ms.
Proof. unfold lines_of. rewrite filter_cons. by case_decide. Qed.

(** Delivering messages appends one line per message that is not [done],
    in order. *)
Lemma deliver_output ms s :
  Forall (fun m => type m ≠ "") ms ->
  output (deliver ms s) = output s ++ lines_of ms.
Proof.
  revert s. induction ms as [|m rest IH]; intros s H.
  - simpl. by rewrite app_nil_r.
  - inversion H as [|? ? Hm Hrest]; subst. unfold deliver in *. simpl fold_left.
    rewrite IH by assumption. rewrite lines_of_cons. unfold on_message.
    destruct (type m) as [|c t] eqn:E; [done|]. simpl JsString.is_empty. cbv iota.
    destruct (String.eqb_spec (String c t) "done") as [Heq|Hne].
    + rewrite decide_False by (intros Hn; by apply Hn).
      destruct (Js.strict_eq_string (msg m) "ok"); reflexivity.
    + rewrite decide_True by assumption. simpl. by rewrite <- app_assoc.
Qed.

Lemma on_message_console m s :
  is_console_message m -> status (on_message (Some m) s) = status s.
Proof. intros (k & text & ->). destruct k; reflexivity. Qed.

Lemma deliver_app ms1 ms2 s : deliver (ms1 ++ ms2) s = deliver ms2 (deliver ms1 s).
Proof. unfold deliver. apply fold_left_app. Qed.

Lemma deliver_status_console ms s :
  Forall is_console_message ms -> status (deliver ms s) = status s.
Proof.
  revert s. induction ms as [|m rest IH]; intros s H; [reflexivity|].
  inversion H; subst. unfold deliver in *. simpl. rewrite IH by assumption.
  by apply on_message_console.
Qed.

End Controller.

(** ** The claims about one run *)

Section Runs.
Import Sandbox Page.

(** C4. When the editor text is empty or only white space, a run trigger
    (the run button, the keyboard shortcut, the timer's callback: all call
    [runCode]) gives the sandbox no document, so no instance exists to post
    anything; the status becomes the idle "Nothing to run", and the output,
    the last-run snapshot and the timers are left as they were. *)
Theorem blank_input_runs_nothing (s : state) (b : behaviour) :
  JsString.all_white_space (code_value s) ->
  sandbox_docs (runCode s) = sandbox_docs s /\
  run_messages s b = [] /\
  status (runCode s) = ("idle", "Nothing to run") /\
  output (runCode s) = output s /\
  lastRunCode (runCode s) = lastRunCode s /\
  step s ClickRun = runCode s /\
  step s (Keydown true false "Enter") = runCode s.
Proof.
  intros H. apply trim_empty_iff in H.
  rewrite run_messages_blank by assumption.
  split; [by rewrite runCode_blank|]. split; [reflexivity|].
  split; [by rewrite runCode_blank|]. split; [by rewrite runCode_blank|].
  split; [by rewrite runCode_blank|]. split; [reflexivity|].
  reflexivity.
Qed.

Lemma blank_input_runs_nothing_witness :
  let s := with_code (JsString.chr 32 +:+ JsString.chr 9 +:+ JsString.newline)
             (load (Markup "" false true false) ∅) in
  JsString.all_white_space (code_value s) /\
  run_messages s (Behaviour [(Log, [VString "hi"])] (Normal (VNumber 4)) []) = [] /\
  status (runCode s) = ("idle", "Nothing to run").
Proof.
  intros s.
  assert (Hw : JsString.all_white_space (code_value s)) by (repeat constructor).
  split; [exact Hw|].
  pose proof (blank_input_runs_nothing s
                (Behaviour [(Log, [VString "hi"])] (Normal (VNumber 4)) []) Hw) as H.
  split; [apply H|apply H].
Defined.

(** C7. A [done] message with payload "ok" sets the run state to success,
    one with payload "error" sets it to error, and neither touches the
    output; a message of any other kind appends one line to the output and
    leaves the run state alone. *)
Theorem message_arrival (s : state) (kind : string) (payload : value) :
  kind ≠ "done" -> kind ≠ "" ->
  status (on_message (Some done_ok) s) = ("success", "Completed") /\
  output (on_message (Some done_ok) s) = output s /\
  status (on_message (Some done_error) s) = ("error", "Error") /\
  output (on_message (Some done_error) s) = output s /\
  status (on_message (Some (Message kind payload)) s) = status s /\
  output (on_message (Some (Message kind payload)) s) = output s ++ [(kind, payload)].
Proof.
  intros Hd He. repeat split; try reflexivity.
  - unfold on_message. simpl type. destruct kind; [done|]. simpl JsString.is_empty. cbv iota.
    destruct (String.eqb_spec (String a kind) "done"); [done|reflexivity].
  - unfold on_message. simpl type. destruct kind; [done|]. simpl JsString.is_empty. cbv iota.
    destruct (String.eqb_spec (String a kind) "done"); [done|reflexivity].
Qed.

Lemma message_arrival_witness :
  let s := runCode (with_code "return 1" (load (Markup "" false true false) ∅)) in
  status (on_message (Some done_ok) s) = ("success", "Completed") /\
  status (on_message (Some done_error) s) = ("error", "Error") /\
  status (on_message (Some (Message "result" (VString "1"))) s) = ("running", "Running…") /\
  output (on_message (Some (Message "result" (VString "1"))) s) = [("result", VString "1")].
Proof.
  intros s.
  destruct (message_arrival s "result" (VString "1")) as (H1 & _ & H2 & _ & H3 & H4);
    [discriminate|discriminate|].
  split; [exact H1|]. split; [exact H2|]. split; [rewrite H3; reflexivity|].
  rewrite H4. reflexivity.
Defined.

(** C10. A run triggered on a text that is not blank empties the output
    before anything of the new run arrives; from then on, after any number
    of the run's messages have been delivered, the output holds exactly the
    lines of those messages (one per message that is not [done], in order),
    whatever it held before the trigger. *)
Theorem run_replaces_output (s : state) (b : behaviour) (n : nat) :
  ¬ JsString.all_white_space (code_value s) ->
  output (runCode s) = [] /\
  output (deliver (take n (run_messages s b)) (runCode s)) = lines_of (take n (Sandbox.messages b)) /\
  output (deliver (run_messages s b) (runCode s)) = lines_of (Sandbox.messages b).
Proof.
  intros H.
  assert (Hg : JsString.is_empty (JsString.trim (code_value s)) = false).
  { destruct (JsString.is_empty _) eqn:E; [|reflexivity]. by apply trim_empty_iff in E. }
  rewrite run_messages_launch by assumption.
  assert (Ho : output (runCode s) = []) by (by rewrite runCode_launch).
  split; [exact Ho|]. split.
  - rewrite deliver_output, Ho; [reflexivity|].
    apply Forall_take, messages_typed.
  - rewrite deliver_output, Ho; [reflexivity|]. apply messages_typed.
Qed.

Lemma run_replaces_output_witness :
  let s := appendLine "log" (VString "stale")
             (with_code "console.log('hi'); return 2+2" (load (Markup "" false true false) ∅)) in
  let b := Behaviour [(Log, [VString "hi"])] (Normal (VNumber 4)) [] in
  ¬ JsString.all_white_space (code_value s) /\
  output s = [("log", VString "stale")] /\
  output (runCode s) = [] /\
  output (deliver (run_messages s b) (runCode s)) = [("log", VString "hi"); ("result", VString "4")].
Proof.
  intros s b.
  assert (Hn : ¬ JsString.all_white_space (code_value s)).
  { intros H. apply trim_empty_iff in H. discriminate. }
  destruct (run_replaces_output s b 0 Hn) as (H1 & _ & H3).
  split; [exact Hn|]. split; [reflexivity|]. split; [exact H1|].
  rewrite H3. reflexivity.
Defined.

Lemma not_blank_guard s :
  ¬ JsString.all_white_space (code_value s) ->
  JsString.is_empty (JsString.trim (code_value s)) = false.
Proof.
  intros H. destruct (JsString.is_empty _) eqn:E; [|reflexivity].
  by apply trim_empty_iff in E.
Qed.

(** C5. The text [console.log('hi'); return 2+2] makes one call of
    [console.log] with 'hi' and returns 4, and its run posts a log message
    "hi", a result message "4" and [done] "ok", in that order. *)
Theorem scenario_log_and_result (s : state) (stack_of : string -> option string) :
  exists b,
    MiniJS.behaviour_of stack_of "console.log('hi'); return 2+2" = Some b /\
    run_messages (with_code "console.log('hi'); return 2+2" s) b
      = [Message "log" (VString "hi"); Message "result" (VString "4");
         Message "done" (VString "ok")].
Proof.
  eexists. split; [reflexivity|].
  rewrite run_messages_launch by reflexivity. reflexivity.
Qed.

Lemma diagnostic_spec e :
  snd (diagnostic e []) =
    if Js.truthy e then
      if Js.truthy (Js.get_stack e) then Normal (Js.get_stack e)
      else if Js.truthy (Js.get_message e) then Normal (Js.get_message e)
      else match Js.String_ e with
           | Normal t => Normal (VString t)
           | Abrupt x => Abrupt x
           end
    else Normal e.
Proof.
  unfold diagnostic, bind, lift, ret.
  destruct (Js.truthy e), (Js.truthy (Js.get_stack e)), (Js.truthy (Js.get_message e));
    try reflexivity; destruct (Js.String_ e); reflexivity.
Qed.

Lemma deliver_error_status cm payload late s :
  Forall is_console_message cm -> Forall is_console_message late ->
  status (deliver (cm ++ [Message "error" payload; done_error] ++ late) s) = ("error", "Error").
Proof.
  intros Hc Hl. rewrite !deliver_app. rewrite deliver_status_console by assumption.
  reflexivity.
Qed.

(** C2: the code at the failing input.  An object that [JSON.stringify]
    rejects by throwing [why] is logged by a console call as the
    placeholder '[object]'; returned from the code, it makes the script
    take its catch clause: the run posts what a throw of [why] posts, no
    result message and no [done] "ok". *)
Theorem unserializable_result_is_an_error (o : object) (why : value) (k : channel)
    (cs late : list (channel * list value)) :
  Js.callable o = false ->
  Js.json o = Abrupt why ->
  console_messages [(k, [VObject o])] = [Message (channel_name k) (VString "[object]")] /\
  sync_messages (Behaviour cs (Normal (VObject o)) late)
    = console_messages cs ++ fst (on_throw why []) /\
  Forall (fun m => type m ≠ "result" /\ m ≠ done_ok)
         (sync_messages (Behaviour cs (Normal (VObject o)) late)).
Proof.
  intros Hc Hj. destruct o as [c j st sk m cl]. simpl in Hc, Hj. subst c j.
  assert (Hs : sync_messages (Behaviour cs (Normal (VObject (Object false (Abrupt why) st sk m cl))) late)
               = console_messages cs ++ fst (on_throw why [])).
  { unfold sync_messages. rewrite script_spec. cbv zeta. cbn [completion calls].
    rewrite on_return_spec. reflexivity. }
  split; [reflexivity|].
  split; [exact Hs|]. rewrite Hs. apply Forall_app. split.
  - eapply Forall_impl; [apply console_messages_kinds|].
    intros x (k' & text & ->). destruct k'; split; discriminate.
  - rewrite on_throw_spec. destruct (snd (diagnostic why [])) as [payload|x]; simpl.
    + destruct (Js.cloneable payload); simpl; repeat constructor; discriminate.
    + constructor.
Qed.

Lemma unserializable_result_is_an_error_witness :
  let why := type_error "Converting circular structure to JSON"
                        "TypeError: Converting circular structure to JSON" in
  Js.callable (circular_object why) = false /\
  Js.json (circular_object why) = Abrupt why /\
  console_messages [(Log, [circular why])] = [Message "log" (VString "[object]")] /\
  Sandbox.messages (Behaviour [] (Normal (circular why)) [])
    = [Message "error" (VString "TypeError: Converting circular structure to JSON");
       done_error].
Proof.
  intros why.
  split; [reflexivity|]. split; [reflexivity|].
  destruct (unserializable_result_is_an_error (circular_object why) why Log [] []
              eq_refl eq_refl) as (H1 & H2 & _).
  split; [exact H1|]. reflexivity.
Defined.

End Runs.

(** ** Timers and the debounce *)

Section Debounce.
Import Sandbox Page.

Lemma runCode_keeps s :
  timers (runCode s) = timers s /\ debounceId (runCode s) = debounceId s /\
  code_value (runCode s) = code_value s /\ autorun_checked (runCode s) = autorun_checked s /\
  now (runCode s) = now s /\ localStorage (runCode s) = localStorage s.
Proof. unfold runCode. destruct (JsString.is_empty _); repeat split. Qed.

Lemma autorun_callback_keeps s :
  timers (autorun_callback s) = timers s /\
  debounceId (autorun_callback s) = debounceId s /\
  code_value (autorun_callback s) = code_value s /\
  autorun_checked (autorun_callback s) = autorun_checked s /\
  now (autorun_callback s) = now s.
Proof.
  unfold autorun_callback. destruct (String.eqb _ _); [repeat split|].
  destruct (runCode_keeps s) as (? & ? & ? & ? & ? & ?). repeat split; assumption.
Qed.

Lemma timers_ok_same s s' :
  timers s' = timers s -> debounceId s' = debounceId s -> timers_ok s -> timers_ok s'.
Proof. unfold timers_ok. intros -> ->. trivial. Qed.

Lemma timers_ok_scheduleAutoRun s : timers_ok s -> timers_ok (scheduleAutoRun s).
Proof.
  intros H. unfold scheduleAutoRun. destruct (autorun_checked s); simpl; [|exact H].
  right. destruct H as [H|(t & H & Hid)].
  - unfold clearTimeout. destruct (debounceId s); simpl; rewrite H; simpl;
      eexists; split; reflexivity.
  - rewrite Hid. simpl. rewrite H. rewrite filter_cons, decide_False by (intros Hn; by apply Hn).
    simpl. eexists; split; reflexivity.
Qed.

Lemma elapse_idle s ms :
  timers s = [] -> elapse ms s = with_timers [] (with_now (now s + ms) s).
Proof. intros H. unfold elapse, run_timers. cbn [timers with_now now]. by rewrite H. Qed.

Lemma elapse_waiting s t ms :
  timers s = [t] -> now s + ms < due t ->
  elapse ms s = with_timers [t] (with_now (now s + ms) s).
Proof.
  intros H Hlt. unfold elapse, run_timers. cbn [timers with_now now]. rewrite H.
  rewrite !filter_cons, !filter_nil.
  rewrite decide_False by lia. rewrite decide_True by lia. reflexivity.
Qed.

Lemma elapse_firing s t ms :
  timers s = [t] -> due t <= now s + ms ->
  elapse ms s = autorun_callback (with_timers [] (with_now (now s + ms) s)).
Proof.
  intros H Hle. unfold elapse, run_timers. cbn [timers with_now now]. rewrite H.
  rewrite !filter_cons, !filter_nil.
  rewrite decide_True by lia. rewrite decide_False by (intros Hn; by apply Hn).
  reflexivity.
Qed.

Lemma timers_ok_elapse s ms : timers_ok s -> timers_ok (elapse ms s).
Proof.
  intros [H|(t & H & Hid)].
  - rewrite elapse_idle by assumption. by left.
  - destruct (decide (due t <= now s + ms)) as [Hle|Hgt].
    + rewrite (elapse_firing s t) by assumption. left.
      by destruct (autorun_callback_keeps (with_timers [] (with_now (now s + ms) s))) as (-> & _).
    + rewrite (elapse_waiting s t) by (assumption || lia). right. exists t. by split.
Qed.

Lemma timers_ok_runCode s : timers_ok s -> timers_ok (runCode s).
Proof.
  destruct (runCode_keeps s) as (H1 & H2 & _). by apply timers_ok_same.
Qed.

(** Every event keeps at most one timer pending, registered in
    [debounceId]. *)
Lemma timers_ok_step s e : timers_ok s -> timers_ok (step s e).
Proof.
  intros H. destruct e; simpl.
  - unfold on_input. by apply timers_ok_scheduleAutoRun.
  - exact H.
  - exact H.
  - exact H.
  - by apply timers_ok_runCode.
  - exact H.
  - unfold on_theme_click, setTheme. by destruct (String.eqb _ _).
  - unfold on_keydown.
    assert (H' : timers_ok (if meta && String.eqb key "Enter" then runCode s else s)).
    { destruct (meta && String.eqb key "Enter"); [by apply timers_ok_runCode|exact H]. }
    by destruct (alt && _).
  - unfold on_message. destruct data as [d|]; [|exact H].
    destruct (JsString.is_empty _); [exact H|].
    destruct (String.eqb _ _); [|exact H].
    by destruct (Js.strict_eq_string _ _).
  - by apply timers_ok_elapse.
Qed.

Lemma timers_ok_load m store : timers_ok (load m store).
Proof.
  left. unfold load, initState, fresh, getItem. simpl.
  repeat (match goal with |- context [match ?x with _ => _ end] => destruct x end; simpl);
    reflexivity.
Qed.

Lemma timers_ok_run es s : timers_ok s -> timers_ok (run s es).
Proof.
  revert s. induction es as [|e rest IH]; intros s H; [exact H|].
  simpl. apply IH. by apply timers_ok_step.
Qed.

(** Every state the page can reach satisfies the invariant. *)
Lemma timers_ok_reachable m store es : timers_ok (run (load m store) es).
Proof. apply timers_ok_run, timers_ok_load. Qed.

Lemma pending_timers_ok s0 text t0 s : pending s0 text t0 s -> timers_ok s.
Proof.
  intros (_ & _ & _ & _ & _ & id & Ht & Hid). right. eexists. split; [exact Ht|exact Hid].
Qed.

(** A text-change with the autorun box checked leaves exactly one timer,
    due a full [DEBOUNCE_MS] after it. *)
Lemma on_input_armed s text :
  timers_ok s -> autorun_checked s = true ->
  timers (on_input text s) = [Timer (next_timer s) (now s + DEBOUNCE_MS)] /\
  debounceId (on_input text s) = Some (next_timer s) /\
  code_value (on_input text s) = text /\
  sandbox_docs (on_input text s) = sandbox_docs s /\
  lastRunCode (on_input text s) = lastRunCode s /\
  autorun_checked (on_input text s) = true /\
  now (on_input text s) = now s.
Proof.
  intros Hok Ha. destruct s as [cv ar ac dk out st docs ls did lrc tm nt nw].
  cbn in Ha. subst ar.
  unfold on_input, scheduleAutoRun, setTimeout, clearTimeout. cbn.
  destruct Hok as [H|(t & H & Hid)]; cbn in H; subst tm.
  - destruct did; cbn; repeat split.
  - cbn in Hid. subst did. cbn.
    rewrite decide_False by (intros Hn; by apply Hn). repeat split.
Qed.

Lemma input_starts_pending s0 s text :
  timers_ok s -> autorun_checked s = true ->
  sandbox_docs s = sandbox_docs s0 -> lastRunCode s = lastRunCode s0 ->
  autorun_checked s0 = true ->
  pending s0 text (now (on_input text s)) (on_input text s).
Proof.
  intros Hok Ha Hd Hl Ha0.
  destruct (on_input_armed s text Hok Ha) as (H1 & H2 & H3 & H4 & H5 & H6 & H7).
  unfold pending. rewrite H3, H4, H5, H6, H7.
  split; [reflexivity|]. split; [exact Hd|]. split; [exact Hl|]. split; [by rewrite Ha0|].
  split; [unfold DEBOUNCE_MS; lia|].
  eexists. split; [exact H1|exact H2].
Qed.

Lemma pending_pause s0 text t0 s pause :
  pending s0 text t0 s -> now s + pause < t0 + DEBOUNCE_MS ->
  pending s0 text t0 (elapse pause s).
Proof.
  intros (H1 & H2 & H3 & H4 & H5 & id & Ht & Hid) Hlt.
  rewrite (elapse_waiting s _ pause Ht) by (simpl; lia).
  unfold pending. cbn.
  split; [assumption|]. split; [assumption|]. split; [assumption|]. split; [assumption|].
  split; [lia|]. exists id. by split.
Qed.

Lemma pending_fires s0 text t0 s wait :
  pending s0 text t0 s -> t0 + DEBOUNCE_MS <= now s + wait ->
  settled s0 text (elapse wait s).
Proof.
  intros (H1 & H2 & H3 & H4 & H5 & id & Ht & Hid) Hle.
  rewrite (elapse_firing s _ wait Ht) by (simpl; lia).
  unfold settled, autorun_callback. cbn [code_value lastRunCode with_timers with_now].
  rewrite H1, H3. destruct (String.eqb text (lastRunCode s0)); cbn.
  - repeat split; congruence.
  - unfold runCode. cbn [code_value with_timers with_now]. rewrite H1.
    destruct (JsString.is_empty (JsString.trim text)); cbn; repeat split; congruence.
Qed.

Lemma settled_elapse s0 text s wait : settled s0 text s -> settled s0 text (elapse wait s).
Proof.
  intros (H1 & H2 & H3). rewrite elapse_idle by assumption.
  unfold settled. cbn. repeat split; assumption.
Qed.

Lemma settled_waits s0 text waits s :
  settled s0 text s -> settled s0 text (run s (map Elapse waits)).
Proof.
  revert s. induction waits as [|w rest IH]; intros s H; [exact H|].
  simpl. apply IH. by apply settled_elapse.
Qed.

Lemma last_cons {A} (a d : A) (l : list A) : List.last (a :: l) d = List.last l a.
Proof.
  revert a d. induction l as [|b rest IH]; intros a d; [reflexivity|].
  change (List.last (a :: b :: rest) d) with (List.last (b :: rest) d).
  rewrite IH. symmetry. apply IH.
Qed.

(** Keystrokes that follow one another within the window keep the timer
    pending and run nothing. *)
Lemma burst_stays_pending s0 more : forall s text,
  autorun_checked s0 = true ->
  pending s0 text (now s) s ->
  Forall (fun '(pause, _) => pause < DEBOUNCE_MS) more ->
  let s' := run s (flat_map (fun '(pause, t) => [Elapse pause; Input t]) more) in
  pending s0 (List.last (map snd more) text) (now s') s'.
Proof.
  induction more as [|[pause t] rest IH]; intros s text Ha Hp Hf; [exact Hp|].
  inversion Hf as [|? ? Hpause Hrest]; subst.
  cbn [flat_map app run fold_left step map snd]. rewrite last_cons.
  apply IH; [assumption| |assumption].
  assert (Hq : pending s0 text (now s) (elapse pause s)) by (apply pending_pause; [assumption|lia]).
  destruct Hq as (H1 & H2 & H3 & H4 & H5 & id & Ht & Hid).
  apply input_starts_pending; try assumption; try congruence.
  right. eexists. split; [exact Ht|exact Hid].
Qed.

(** Once the burst is over, the timer fires when the window has passed,
    and never before. *)
Lemma pending_waits s0 text t0 waits : forall s,
  pending s0 text t0 s ->
  let s' := run s (map Elapse waits) in
  (now s + sum_list waits < t0 + DEBOUNCE_MS -> pending s0 text t0 s') /\
  (t0 + DEBOUNCE_MS <= now s + sum_list waits -> settled s0 text s').
Proof.
  induction waits as [|w rest IH]; intros s Hp.
  - simpl. split; [trivial|]. destruct Hp as (_ & _ & _ & _ & H5 & _). lia.
  - cbn [map run fold_left step sum_list foldr].
    destruct (decide (now s + w < t0 + DEBOUNCE_MS)) as [Hlt|Hge].
    + pose proof (pending_pause _ _ _ _ _ Hp Hlt) as Hq.
      assert (Hn : now (elapse w s) = now s + w).
      { destruct Hp as (_ & _ & _ & _ & _ & id & Ht & _).
        rewrite (elapse_waiting s _ w Ht) by (simpl; lia). reflexivity. }
      destruct (IH _ Hq) as [IH1 IH2]. rewrite Hn in IH1, IH2.
      split; intros H; [apply IH1|apply IH2]; simpl in *; lia.
    + assert (Hs : settled s0 text (elapse w s)) by (apply (pending_fires _ _ t0); [assumption|lia]).
      split; [intros H; simpl in *; lia|]. intros _. by apply settled_waits.
Qed.

Lemma run_app s es1 es2 : run s (es1 ++ es2) = run (run s es1) es2.
Proof. unfold run. apply fold_left_app. Qed.

Lemma autorun_callback_docs s :
  sandbox_docs (autorun_callback s) =
    if String.eqb (code_value s) (lastRunCode s)
       || JsString.is_empty (JsString.trim (code_value s))
    then sandbox_docs s
    else sandboxDoc (code_value s) :: sandbox_docs s.
Proof.
  unfold autorun_callback, runCode.
  destruct (String.eqb _ _); [reflexivity|].
  destruct (JsString.is_empty _); reflexivity.
Qed.

(** C8. With the autorun box checked, a burst of keystrokes in which
    each follows the previous one within the debounce window, followed by
    any waiting, makes at most one run, and that run is of the text present
    after the last keystroke: no run while the waiting adds up to less than
    the window, and once it reaches the window the timer has fired once
    (running that text unless it equals the last-run snapshot or is blank)
    and no timer is left to fire again. *)
Theorem burst_runs_at_most_once (s : state) (first : string)
    (more : list (nat * string)) (waits : list nat) :
  autorun_checked s = true ->
  timers_ok s ->
  Forall (fun '(pause, _) => pause < DEBOUNCE_MS) more ->
  let text := last_text first more in
  let s' := run s (keystrokes first more ++ map Elapse waits) in
  code_value s' = text /\
  (sandbox_docs s' = sandbox_docs s \/ sandbox_docs s' = sandboxDoc text :: sandbox_docs s) /\
  (sum_list waits < DEBOUNCE_MS -> sandbox_docs s' = sandbox_docs s) /\
  (DEBOUNCE_MS <= sum_list waits ->
   timers s' = [] /\
   (sandbox_docs s', lastRunCode s') =
     if String.eqb text (lastRunCode s) || JsString.is_empty (JsString.trim text)
     then (sandbox_docs s, lastRunCode s)
     else (sandboxDoc text :: sandbox_docs s, text)).
Proof.
  intros Ha Hok Hf text s'. subst s'. rewrite run_app. unfold keystrokes.
  cbn [run fold_left step]. fold (run (on_input first s)
    (flat_map (fun '(pause, t) => [Elapse pause; Input t]) more)).
  pose proof (input_starts_pending s s first Hok Ha eq_refl eq_refl Ha) as Hp.
  pose proof (burst_stays_pending s more _ _ Ha Hp Hf) as Hq. cbv zeta in Hq.
  fold (last_text first more) in Hq. fold text in Hq.
  set (s2 := run (on_input first s) _) in *.
  destruct (pending_waits s text (now s2) waits s2 Hq) as [Hw1 Hw2]. cbv zeta in Hw1, Hw2.
  set (s3 := run s2 (map Elapse waits)) in *.
  destruct (decide (sum_list waits < DEBOUNCE_MS)) as [Hlt|Hge].
  - destruct Hw1 as (H1 & H2 & _); [lia|].
    split; [exact H1|]. split; [by left|]. split; [intros _; exact H2|]. lia.
  - destruct Hw2 as (H1 & H2 & H3); [lia|].
    split; [exact H1|]. split.
    { destruct (_ || _); injection H3 as -> _; [by left|by right]. }
    split; [lia|]. intros _. by split.
Qed.

Lemma burst_runs_at_most_once_witness :
  let s := with_autorun true (load (Markup "" false true false) ∅) in
  let s' := run s (keystrokes "1" [(100, "12"); (599, "1+2")] ++ map Elapse [300; 300]) in
  autorun_checked s = true /\
  Forall (fun '(pause, _) => pause < DEBOUNCE_MS) [(100, "12"); (599, "1+2")] /\
  code_value s' = "1+2" /\
  timers s' = [] /\
  (sandbox_docs s', lastRunCode s') = ([sandboxDoc "1+2"], "1+2").
Proof.
  intros s s'.
  assert (Hf : Forall (fun '(pause, _) => pause < DEBOUNCE_MS) [(100, "12"); (599, "1+2")]).
  { repeat constructor; unfold DEBOUNCE_MS; lia. }
  assert (Hok : timers_ok s) by (left; reflexivity).
  destruct (burst_runs_at_most_once s "1" [(100, "12"); (599, "1+2")] [300; 300]
              eq_refl Hok Hf) as (H1 & _ & _ & H4).
  split; [reflexivity|]. split; [exact Hf|]. split; [exact H1|].
  destruct H4 as [H5 H6]; [unfold DEBOUNCE_MS; simpl; lia|].
  split; [exact H5|exact H6].
Defined.

(** C3, as stated, fails: a timer set while the autorun box was checked
    fires and runs the code after the box has been unchecked; and a
    text-change made while the box is unchecked leaves that timer as it
    was, due at its old time. *)
Lemma timer_fires_with_autorun_off :
  let s := run (load (Markup "" false true false) ∅)
               [SetAutorun true; Input "1"; Elapse 100; SetAutorun false] in
  (autorun_checked s = false /\
   timers s = [Timer 1 600] /\
   now s = 100 /\
   sandbox_docs s = [] /\
   sandbox_docs (step s (Elapse 500)) = [sandboxDoc "1"]) /\
  (timers (step s (Input "12")) = [Timer 1 600] /\
   sandbox_docs (run s [Input "12"; Elapse 500]) = [sandboxDoc "12"]).
Proof. intros s. vm_compute. repeat split; reflexivity. Qed.

(** C3 (amended). When the debounce timer fires, the code is run exactly
    when the editor text differs from the last-run snapshot (and gets a
    sandbox when it is not blank), whatever the autorun box says at that
    moment; until it is due nothing runs.  A text-change made while the
    autorun box is checked replaces the pending timer by one due
    [DEBOUNCE_MS] = 600 ms later; one made while it is unchecked leaves the
    timers as they are. *)
Theorem debounce_timer_policy (s : state) (t : timer) (text : string) (ms : nat) (box : bool) :
  timers_ok s ->
  DEBOUNCE_MS = 600 /\
  (timers s = [t] -> due t <= now s + ms ->
   elapse ms s = autorun_callback (with_timers [] (with_now (now s + ms) s)) /\
   sandbox_docs (elapse ms s) =
     (if String.eqb (code_value s) (lastRunCode s)
         || JsString.is_empty (JsString.trim (code_value s))
      then sandbox_docs s
      else sandboxDoc (code_value s) :: sandbox_docs s) /\
   sandbox_docs (elapse ms (with_autorun box s)) = sandbox_docs (elapse ms s)) /\
  (timers s = [t] -> now s + ms < due t ->
   sandbox_docs (elapse ms s) = sandbox_docs s /\ timers (elapse ms s) = [t]) /\
  (autorun_checked s = true ->
   timers (on_input text s) = [Timer (next_timer s) (now s + DEBOUNCE_MS)]) /\
  (autorun_checked s = false -> timers (on_input text s) = timers s).
Proof.
  intros Hok. split; [reflexivity|]. split; [|split; [|split]].
  - intros Ht Hdue.
    split; [by apply (elapse_firing s t)|].
    rewrite (elapse_firing s t ms Ht Hdue).
    rewrite (elapse_firing (with_autorun box s) t ms Ht Hdue).
    rewrite !autorun_callback_docs.
    cbn [code_value lastRunCode sandbox_docs with_timers with_now with_autorun].
    split; reflexivity.
  - intros Ht Hlt. rewrite (elapse_waiting s t ms Ht Hlt). split; reflexivity.
  - intros Ha. by destruct (on_input_armed s text Hok Ha) as (H1 & _).
  - intros Ha. unfold on_input, scheduleAutoRun. cbn [autorun_checked setItem with_code
      with_localStorage]. rewrite Ha. reflexivity.
Qed.

Lemma typed_one_reached :
  run (load (Markup "" false true false) ∅) [SetAutorun true; Input "1"; Elapse 100] = typed_one.
Proof. vm_compute. reflexivity. Qed.

Lemma debounce_timer_policy_witness :
  timers_ok typed_one /\
  sandbox_docs (elapse 500 typed_one) = [sandboxDoc "1"] /\
  sandbox_docs (elapse 500 (with_autorun false typed_one)) = [sandboxDoc "1"] /\
  sandbox_docs (elapse 499 typed_one) = [] /\
  timers (on_input "12" typed_one) = [Timer 2 700] /\
  timers (on_input "12" (with_autorun false typed_one)) = [Timer 1 600].
Proof.
  assert (Hok : timers_ok typed_one) by (right; exists (Timer 1 600); split; reflexivity).
  assert (Hok' : timers_ok (with_autorun false typed_one))
    by (right; exists (Timer 1 600); split; reflexivity).
  destruct (debounce_timer_policy typed_one (Timer 1 600) "12" 500 false Hok)
    as (_ & H1 & _ & H3 & _).
  destruct (debounce_timer_policy typed_one (Timer 1 600) "12" 499 false Hok)
    as (_ & _ & H2 & _).
  destruct (debounce_timer_policy (with_autorun false typed_one) (Timer 1 600) "12" 0 false Hok')
    as (_ & _ & _ & _ & H4).
  destruct H1 as (_ & H1a & H1b); [reflexivity|vm_compute; lia|].
  destruct H2 as (H2a & _); [reflexivity|vm_compute; lia|].
  split; [exact Hok|].
  split; [rewrite H1a; vm_compute; reflexivity|].
  split; [rewrite H1b, H1a; vm_compute; reflexivity|].
  split; [rewrite H2a; reflexivity|].
  split; [rewrite H3 by reflexivity; reflexivity|].
  rewrite H4 by reflexivity. reflexivity.
Defined.

End Debounce.

(** ** Persistence of the editor text *)

Section Persistence.
Import Page.

Lemma scheduleAutoRun_keeps s :
  localStorage (scheduleAutoRun s) = localStorage s /\
  code_value (scheduleAutoRun s) = code_value s.
Proof.
  unfold scheduleAutoRun. destruct (autorun_checked s); cbn; [|split; reflexivity].
  unfold clearTimeout. destruct (debounceId s); split; reflexivity.
Qed.

(** What the editor shows after a load: the saved text when there is one
    and it is not empty, the markup's default otherwise. *)
Lemma load_code m (store : gmap string string) :
  code_value (load m store) =
    match store !! STORAGE_KEY_CODE with
    | Some saved => if JsString.is_empty saved then markup_code m else saved
    | None => markup_code m
    end.
Proof.
  unfold load, initState, fresh, getItem. cbn [localStorage setStatus with_status code_value].
  destruct (store !! STORAGE_KEY_CODE) as [saved|]; [destruct (JsString.is_empty saved)|];
    cbn [localStorage with_code];
    (destruct (store !! STORAGE_KEY_THEME) as [theme|];
     [destruct (String.eqb theme "dark")|]);
    cbn;
    repeat (match goal with |- context [match ?x with _ => _ end] => destruct x end; cbn);
    reflexivity.
Qed.

(** What the three ways of changing the text leave in the store, and what
    a reload then shows, whatever default text the markup gives the editor:
    the stored text when it is not empty, the default otherwise. *)
Theorem edits_are_persisted (s : state) (text suggestion : string) (pos : nat) (m : markup) :
  let typed := on_input text s in
  let committed := commitAutocomplete suggestion pos s in
  let cleared := on_clear_click s in
  code_value typed = text /\
  localStorage typed !! STORAGE_KEY_CODE = Some text /\
  code_value (load m (localStorage typed))
    = (if JsString.is_empty text then markup_code m else text) /\
  localStorage committed !! STORAGE_KEY_CODE = Some (code_value committed) /\
  code_value (load m (localStorage committed))
    = (if JsString.is_empty (code_value committed) then markup_code m else code_value committed) /\
  code_value cleared = "" /\
  localStorage cleared !! STORAGE_KEY_CODE = None /\
  code_value (load m (localStorage cleared)) = markup_code m.
Proof.
  intros typed committed cleared.
  assert (Ht : localStorage typed !! STORAGE_KEY_CODE = Some text).
  { subst typed. unfold on_input.
    destruct (scheduleAutoRun_keeps
                (setItem STORAGE_KEY_CODE (code_value (with_code text s)) (with_code text s)))
      as [-> _].
    cbn. apply lookup_insert_eq. }
  assert (Hc : localStorage committed !! STORAGE_KEY_CODE = Some (code_value committed)).
  { subst committed. unfold commitAutocomplete. cbn. apply lookup_insert_eq. }
  assert (Hx : localStorage cleared !! STORAGE_KEY_CODE = None).
  { subst cleared. unfold on_clear_click. cbn. apply lookup_delete_eq. }
  split.
  { subst typed. unfold on_input.
    by destruct (scheduleAutoRun_keeps
                   (setItem STORAGE_KEY_CODE (code_value (with_code text s)) (with_code text s)))
      as [_ ->]. }
  split; [exact Ht|]. split; [by rewrite load_code, Ht|].
  split; [exact Hc|]. split; [by rewrite load_code, Hc|].
  split; [reflexivity|]. split; [exact Hx|]. by rewrite load_code, Hx.
Qed.

End Persistence.

(** * Further properties *)

(** ** More on the sandbox script *)

Section ScriptMore.
Import Sandbox Page.

Lemma map_args_primitives args :
  Forall (fun v => primitive v = true) args ->
  map_args args [] = ([], Normal (map (fun v => Some (text_of v)) args)).
Proof.
  induction args as [|a rest IH]; intros H; [reflexivity|].
  inversion H as [|? ? Ha Hrest]; subst. simpl. unfold bind.
  assert (Hs : serialize_arg a [] = ([], Normal (Some (text_of a)))).
  { destruct a; try discriminate; reflexivity. }
  rewrite Hs, (IH Hrest). reflexivity.
Qed.

(** X2. A console call whose arguments are all primitives posts one
    message whose payload is their string conversions joined by single
    spaces: strings as they are, null as "null", undefined as
    "undefined". *)
Theorem console_call_of_primitives (k : channel) (args : list value) :
  Forall (fun v => primitive v = true) args ->
  console_messages [(k, args)]
    = [Message (channel_name k) (VString (JsString.join_space (map text_of args)))].
Proof.
  intros H. unfold console_messages. simpl. unfold bind, console_shim, try_catch, bind.
  rewrite (map_args_primitives args H). unfold send, join. simpl.
  rewrite map_map. reflexivity.
Qed.

Lemma console_call_of_primitives_witness :
  Forall (fun v => primitive v = true)
         [VString "a b"; VNumber 3; VNull; VUndefined; VBool true] /\
  console_messages [(Warn, [VString "a b"; VNumber 3; VNull; VUndefined; VBool true])]
    = [Message "warn" (VString "a b 3 null undefined true")].
Proof.
  assert (H : Forall (fun v => primitive v = true)
                     [VString "a b"; VNumber 3; VNull; VUndefined; VBool true])
    by (repeat constructor).
  split; [exact H|].
  rewrite (console_call_of_primitives Warn _ H). reflexivity.
Defined.

Lemma serialize_arg_throws_iff a :
  (exists e, snd (serialize_arg a []) = Abrupt e) <-> unprintable a.
Proof.
  unfold unprintable, serialize_arg, try_catch, bind, lift, ret.
  destruct (Js.typeof_object a).
  - split.
    + intros [e H]. destruct (Js.JSON_stringify a); discriminate.
    + intros [H _]. discriminate.
  - split.
    + intros [e H]. split; [reflexivity|]. destruct (Js.String_ a) as [t|x]; [discriminate|].
      by exists x.
    + intros [_ [e H]]. rewrite H. by exists e.
Qed.

Lemma map_args_throws_iff args :
  (exists e, snd (map_args args []) = Abrupt e) <-> Exists unprintable args.
Proof.
  induction args as [|a rest IH].
  - split; [intros [e H]; discriminate|intros H; inversion H].
  - simpl. unfold bind.
    pose proof (serialize_arg_silent a []) as Hs.
    pose proof (serialize_arg_throws_iff a) as Ha.
    destruct (serialize_arg a []) as [p [x|e]]; simpl in *; subst p.
    + pose proof (map_args_silent rest []) as Hr.
      destruct (map_args rest []) as [p' [xs|e']]; simpl in *; subst p'.
      * split; [intros [e H]; discriminate|].
        intros H. inversion H as [? ? Hu|? ? Hu]; subst.
        -- apply Ha in Hu. destruct Hu as [e Hu]. discriminate.
        -- apply IH in Hu. destruct Hu as [e Hu]. discriminate.
      * split; [|by exists e'].
        intros _. apply Exists_cons_tl. apply IH. by exists e'.
    + split; [|by exists e].
      intros _. apply Exists_cons_hd. apply Ha. by exists e.
Qed.

(** X3. A console call posts nothing exactly when one of its arguments
    is not an object (a function, say) and its string conversion throws;
    an argument that [JSON.stringify] rejects never silences a call. *)
Theorem console_call_is_dropped_iff (k : channel) (args : list value) :
  console_messages [(k, args)] = [] <-> Exists unprintable args.
Proof.
  rewrite <- map_args_throws_iff.
  unfold console_messages. simpl. unfold bind, console_shim, try_catch, bind.
  pose proof (map_args_silent args []) as Hs.
  destruct (map_args args []) as [p [parts|e]]; simpl in *; subst p.
  - unfold send. simpl. split; [discriminate|intros [e H]; discriminate].
  - unfold ret. simpl. split; [by exists e|reflexivity].
Qed.

(** X4. When the code returns a primitive, the script posts, after the
    console messages, a result message carrying its string conversion
    (none at all for undefined) and then [done] "ok". *)
Theorem primitive_result_is_posted (cs late : list (channel * list value)) (v : value) :
  primitive v = true ->
  sync_messages (Behaviour cs (Normal v) late)
    = console_messages cs
      ++ (if is_undefined v then [] else [Message "result" (VString (text_of v))])
      ++ [done_ok].
Proof.
  intros H. unfold sync_messages. rewrite script_spec. cbv zeta. cbn [completion calls].
  rewrite on_return_spec. destruct v; try discriminate; reflexivity.
Qed.

Lemma primitive_result_is_posted_witness :
  primitive (VString "it's") = true /\
  sync_messages (Behaviour [(Log, [VNumber 1])] (Normal (VString "it's")) [])
    = [Message "log" (VString "1"); Message "result" (VString "it's"); done_ok] /\
  sync_messages (Behaviour [] (Normal VUndefined) []) = [done_ok].
Proof.
  split; [reflexivity|]. split.
  - rewrite (primitive_result_is_posted [(Log, [VNumber 1])] [] (VString "it's") eq_refl).
    reflexivity.
  - rewrite (primitive_result_is_posted [] [] VUndefined eq_refl). reflexivity.
Defined.

Lemma console_messages_length cs : length (console_messages cs) <= length cs.
Proof.
  induction cs as [|[k args] rest IH]; [reflexivity|].
  rewrite console_messages_cons, length_app. simpl.
  assert (length (console_messages [(k, args)]) <= 1); [|lia].
  unfold console_messages. simpl. unfold bind.
  destruct (console_shim_spec k args) as [Hr Hm].
  destruct (console_shim k args []) as [p r]. simpl in *. subst r. unfold ret. simpl.
  destruct Hm as [->|[text ->]]; simpl; lia.
Qed.

Lemma append_cons (x : ascii) (a b : string) : String x a +:+ b = String x (a +:+ b).
Proof. reflexivity. Qed.

Lemma append_assoc (a b c : string) : (a +:+ b) +:+ c = a +:+ (b +:+ c).
Proof.
  induction a as [|x a IH]; [reflexivity|]. rewrite !append_cons. by rewrite IH.
Qed.

Lemma length_append (a b : string) :
  String.length (a +:+ b) = String.length a + String.length b.
Proof.
  induction a as [|x a IH]; [reflexivity|]. rewrite append_cons. simpl. by rewrite IH.
Qed.

Lemma append_cancel_l (a x y : string) : a +:+ x = a +:+ y -> x = y.
Proof.
  induction a as [|c a IH]; intros H; [exact H|].
  rewrite !append_cons in H. injection H as H. auto.
Qed.

Lemma unescape_head_escape (c : ascii) (rest : string) :
  unescape_head (JsString.json_escape c +:+ rest) = Some (c, rest).
Proof. destruct c as [[] [] [] [] [] [] [] []]; reflexivity. Qed.

Lemma json_escape_length (c : ascii) : 1 <= String.length (JsString.json_escape c).
Proof.
  pose proof (unescape_head_escape c "") as H.
  destruct (JsString.json_escape c); [discriminate|simpl; lia].
Qed.

Lemma json_escape_all_inj (a : string) : forall b tail,
  JsString.json_escape_all a +:+ tail = JsString.json_escape_all b +:+ tail -> a = b.
Proof.
  induction a as [|c a IH]; intros [|c' b] tail H; simpl in H.
  - reflexivity.
  - apply (f_equal String.length) in H. rewrite !length_append in H.
    pose proof (json_escape_length c'). simpl in H. lia.
  - apply (f_equal String.length) in H. rewrite !length_append in H.
    pose proof (json_escape_length c). simpl in H. lia.
  - rewrite !append_assoc in H. apply (f_equal unescape_head) in H.
    rewrite !unescape_head_escape in H. injection H as -> H.
    f_equal. by apply (IH b tail).
Qed.

Lemma sandboxDoc_inj (code1 code2 : string) :
  sandboxDoc code1 = sandboxDoc code2 -> code1 = code2.
Proof.
  unfold sandboxDoc, JsString.json_quote. cbv zeta. intros H.
  repeat apply append_cancel_l in H.
  rewrite !append_assoc in H. apply append_cancel_l in H.
  by apply json_escape_all_inj in H.
Qed.

(** X7. The sandbox document determines the text it was built from: two
    different editor texts never give the same document, whatever quotes,
    backslashes or control characters they contain. *)
Theorem sandboxDoc_distinct (code1 code2 : string) :
  code1 <> code2 -> sandboxDoc code1 <> sandboxDoc code2.
Proof. intros Hne H. apply Hne. by apply sandboxDoc_inj. Qed.

Lemma sandboxDoc_distinct_witness :
  "a" <> "a" +:+ JsString.backslash /\
  sandboxDoc "a" <> sandboxDoc ("a" +:+ JsString.backslash).
Proof.
  assert (H : "a" <> "a" +:+ JsString.backslash) by discriminate.
  split; [exact H|]. exact (sandboxDoc_distinct _ _ H).
Defined.

End ScriptMore.

(** ** Invariants of the page *)

Section PageMore.
Import Sandbox Page.

Lemma fold_callbacks_keep (ready : list timer) s :
  let s' := fold_left (fun s' _ => autorun_callback s') ready s in
  timers s' = timers s /\ now s' = now s /\ autorun_checked s' = autorun_checked s /\
  code_value s' = code_value s.
Proof.
  revert s. induction ready as [|t rest IH]; intros s; simpl; [repeat split|].
  destruct (IH (autorun_callback s)) as (H1 & H2 & H3 & H4).
  destruct (autorun_callback_keeps s) as (K1 & _ & K3 & K4 & K5).
  repeat split; congruence.
Qed.

Lemma timers_fresh_same s s' :
  timers s' = timers s -> now s' = now s -> timers_fresh s -> timers_fresh s'.
Proof. unfold timers_fresh. intros -> ->. trivial. Qed.

Lemma timers_fresh_runCode s : timers_fresh s -> timers_fresh (runCode s).
Proof.
  destruct (runCode_keeps s) as (H1 & _ & _ & _ & H2 & _). by apply timers_fresh_same.
Qed.

Lemma timers_fresh_scheduleAutoRun s : timers_fresh s -> timers_fresh (scheduleAutoRun s).
Proof.
  intros H. unfold scheduleAutoRun. destruct (autorun_checked s); simpl; [|exact H].
  unfold timers_fresh in *. cbn.
  assert (Hc : timers (clearTimeout (debounceId s) s) ⊆ timers s).
  { unfold clearTimeout. destruct (debounceId s); cbn; [|done]. apply list_subseteq_filter. }
  assert (Hn : now (clearTimeout (debounceId s) s) = now s).
  { unfold clearTimeout. by destruct (debounceId s). }
  rewrite Hn. apply Forall_app. split.
  - rewrite Forall_forall in H. apply Forall_forall. intros t Ht. apply H, Hc, Ht.
  - repeat constructor; cbn; unfold DEBOUNCE_MS; lia.
Qed.

Lemma timers_fresh_elapse s ms : timers_fresh s -> timers_fresh (elapse ms s).
Proof.
  intros H. unfold elapse, run_timers.
  set (s1 := with_timers _ _).
  destruct (fold_callbacks_keep
              (filter (fun t => due t <= now (with_now (now s + ms) s))
                      (timers (with_now (now s + ms) s))) s1) as (H1 & H2 & _).
  apply (timers_fresh_same s1); [exact H1|exact H2|].
  unfold timers_fresh, s1 in *. cbn. apply Forall_forall. intros t Ht.
  apply list_elem_of_filter in Ht as [Hd Ht]. rewrite Forall_forall in H.
  specialize (H t Ht). lia.
Qed.

Lemma timers_fresh_step s e : timers_fresh s -> timers_fresh (step s e).
Proof.
  intros H. destruct e; simpl.
  - unfold on_input. by apply timers_fresh_scheduleAutoRun.
  - exact H.
  - exact H.
  - exact H.
  - by apply timers_fresh_runCode.
  - exact H.
  - unfold on_theme_click, setTheme. by destruct (String.eqb _ _).
  - unfold on_keydown.
    assert (H' : timers_fresh (if meta && String.eqb key "Enter" then runCode s else s)).
    { destruct (meta && String.eqb key "Enter"); [by apply timers_fresh_runCode|exact H]. }
    by destruct (alt && _).
  - unfold on_message. destruct data as [d|]; [|exact H].
    destruct (JsString.is_empty _); [exact H|].
    destruct (String.eqb _ _); [|exact H].
    by destruct (Js.strict_eq_string _ _).
  - by apply timers_fresh_elapse.
Qed.

Lemma timers_fresh_run es : forall s, timers_fresh s -> timers_fresh (run s es).
Proof.
  induction es as [|e rest IH]; intros s H; [exact H|].
  simpl. apply IH. by apply timers_fresh_step.
Qed.

Lemma load_timers m store : timers (load m store) = [].
Proof.
  unfold load, initState, fresh, getItem. simpl.
  repeat (match goal with |- context [match ?x with _ => _ end] => destruct x end; simpl);
    reflexivity.
Qed.

Lemma load_quiet m store :
  sandbox_docs (load m store) = [] /\ lastRunCode (load m store) = "" /\
  output (load m store) = [] /\ status (load m store) = ("idle", "Idle") /\
  now (load m store) = 0 /\ debounceId (load m store) = None.
Proof.
  unfold load, initState, fresh, getItem. simpl.
  repeat (match goal with |- context [match ?x with _ => _ end] => destruct x end; simpl);
    repeat split.
Qed.

(** X8. From the loading of the page on, whatever happens, at most one
    timer is pending, [debounceId] names it, it is not overdue, and it is
    due within [DEBOUNCE_MS] of the present. *)
Theorem one_fresh_timer (m : markup) (store : gmap string string) (es : list event) :
  let s := run (load m store) es in
  timers_ok s /\ timers_fresh s /\ length (timers s) <= 1.
Proof.
  intros s. assert (Hok : timers_ok s) by apply timers_ok_run, timers_ok_load.
  split; [exact Hok|]. split.
  - apply timers_fresh_run. unfold timers_fresh. rewrite load_timers. constructor.
  - destruct Hok as [->|(t & -> & _)]; simpl; lia.
Qed.

Lemma snapshot_ok_runCode s : snapshot_ok s -> snapshot_ok (runCode s).
Proof.
  intros H. unfold runCode.
  destruct (JsString.is_empty (JsString.trim (code_value s))) eqn:E; [exact H|].
  unfold snapshot_ok. cbn. split; [reflexivity|].
  intros Hb. apply trim_empty_iff in Hb. congruence.
Qed.

Lemma snapshot_ok_same s s' :
  sandbox_docs s' = sandbox_docs s -> lastRunCode s' = lastRunCode s ->
  snapshot_ok s -> snapshot_ok s'.
Proof. unfold snapshot_ok. intros -> ->. trivial. Qed.

Lemma snapshot_ok_callbacks (ready : list timer) s :
  snapshot_ok s -> snapshot_ok (fold_left (fun s' _ => autorun_callback s') ready s).
Proof.
  revert s. induction ready as [|t rest IH]; intros s H; [exact H|].
  simpl. apply IH. unfold autorun_callback.
  destruct (String.eqb _ _); [exact H|by apply snapshot_ok_runCode].
Qed.

Lemma snapshot_ok_step s e : snapshot_ok s -> snapshot_ok (step s e).
Proof.
  intros H. destruct e; simpl.
  - unfold on_input, scheduleAutoRun. destruct (autorun_checked _); [|exact H].
    unfold clearTimeout. cbn. by destruct (debounceId s).
  - exact H.
  - exact H.
  - exact H.
  - by apply snapshot_ok_runCode.
  - exact H.
  - unfold on_theme_click, setTheme. by destruct (String.eqb _ _).
  - unfold on_keydown.
    assert (H' : snapshot_ok (if meta && String.eqb key "Enter" then runCode s else s)).
    { destruct (meta && String.eqb key "Enter"); [by apply snapshot_ok_runCode|exact H]. }
    by destruct (alt && _).
  - unfold on_message. destruct data as [d|]; [|exact H].
    destruct (JsString.is_empty _); [exact H|].
    destruct (String.eqb _ _); [|exact H].
    by destruct (Js.strict_eq_string _ _).
  - unfold elapse, run_timers. by apply snapshot_ok_callbacks.
Qed.

(** X9. From the loading of the page on, the last-run snapshot is the
    text of the latest sandbox document, that text is never blank, and the
    snapshot is empty as long as no document was made. *)
Theorem snapshot_matches_sandbox (m : markup) (store : gmap string string) (es : list event) :
  snapshot_ok (run (load m store) es).
Proof.
  assert (H0 : snapshot_ok (load m store)).
  { unfold snapshot_ok. destruct (load_quiet m store) as (-> & -> & _). reflexivity. }
  revert H0. generalize (load m store). induction es as [|e rest IH]; intros s0 H0;
    [exact H0|].
  simpl. apply IH. by apply snapshot_ok_step.
Qed.

Lemma run_state_runCode s :
  fst (status s) ∈ run_states -> fst (status (runCode s)) ∈ run_states.
Proof.
  intros H. unfold runCode, run_states. destruct (JsString.is_empty _); cbn; rewrite !elem_of_cons; auto 10.
Qed.

Lemma run_state_callbacks (ready : list timer) s :
  fst (status s) ∈ run_states ->
  fst (status (fold_left (fun s' _ => autorun_callback s') ready s)) ∈ run_states.
Proof.
  revert s. induction ready as [|t rest IH]; intros s H; [exact H|].
  simpl. apply IH. unfold autorun_callback.
  destruct (String.eqb _ _); [exact H|by apply run_state_runCode].
Qed.

Lemma run_state_step s e :
  fst (status s) ∈ run_states -> fst (status (step s e)) ∈ run_states.
Proof.
  intros H. destruct e; simpl.
  - unfold on_input, scheduleAutoRun. destruct (autorun_checked _); [|exact H].
    unfold clearTimeout. cbn. by destruct (debounceId s).
  - exact H.
  - exact H.
  - exact H.
  - by apply run_state_runCode.
  - unfold run_states. cbn. rewrite !elem_of_cons; auto 10.
  - unfold on_theme_click, setTheme. by destruct (String.eqb _ _).
  - unfold on_keydown.
    assert (H' : fst (status (if meta && String.eqb key "Enter" then runCode s else s))
                 ∈ run_states).
    { destruct (meta && String.eqb key "Enter"); [by apply run_state_runCode|exact H]. }
    destruct (alt && _); [|exact H']. unfold run_states. cbn. rewrite !elem_of_cons; auto 10.
  - unfold on_message. destruct data as [d|]; [|exact H].
    destruct (JsString.is_empty _); [exact H|].
    destruct (String.eqb _ _); [|exact H].
    unfold run_states. destruct (Js.strict_eq_string _ _); cbn; rewrite !elem_of_cons; auto 10.
  - unfold elapse, run_timers. by apply run_state_callbacks.
Qed.

(** X10. From the loading of the page on, the run state shown in the
    status element is always one of idle, running, success and error. *)
Theorem run_state_is_known (m : markup) (store : gmap string string) (es : list event) :
  fst (status (run (load m store) es)) ∈ run_states.
Proof.
  assert (H0 : fst (status (load m store)) ∈ run_states).
  { destruct (load_quiet m store) as (_ & _ & _ & -> & _). unfold run_states. cbn. rewrite !elem_of_cons; auto 10. }
  revert H0. generalize (load m store). induction es as [|e rest IH]; intros s0 H0;
    [exact H0|].
  simpl. apply IH. by apply run_state_step.
Qed.

Lemma idle_waits (waits : list nat) : forall s0,
  timers s0 = [] ->
  let s := run s0 (map Elapse waits) in
  timers s = [] /\ sandbox_docs s = sandbox_docs s0 /\ output s = output s0 /\
  status s = status s0 /\ code_value s = code_value s0 /\
  lastRunCode s = lastRunCode s0 /\ localStorage s = localStorage s0.
Proof.
  induction waits as [|w rest IH]; intros s0 H; [by repeat split|].
  cbn [map run fold_left step]. rewrite (elapse_idle s0 w H).
  destruct (IH (with_timers [] (with_now (now s0 + w) s0)) eq_refl)
    as (H1 & H2 & H3 & H4 & H5 & H6 & H7).
  repeat split; assumption.
Qed.

(** X11. Loading the page runs nothing: however long the page is then
    left alone, no sandbox document is made, no timer is pending and the
    status stays "Idle", also when the autorun box starts checked and a
    text was restored from the store. *)
Theorem load_runs_nothing (m : markup) (store : gmap string string) (waits : list nat) :
  let s := run (load m store) (map Elapse waits) in
  sandbox_docs s = [] /\ timers s = [] /\ output s = [] /\
  status s = ("idle", "Idle") /\ code_value s = code_value (load m store).
Proof.
  intros s. subst s.
  destruct (load_quiet m store) as (H1 & _ & H3 & H4 & _).
  destruct (idle_waits waits (load m store) (load_timers m store))
    as (K1 & K2 & K3 & K4 & K5 & _).
  repeat split; congruence.
Qed.

Lemma no_trigger_step s e :
  no_trigger e = true ->
  autorun_checked s = false -> timers s = [] ->
  autorun_checked (step s e) = false /\ timers (step s e) = [] /\
  sandbox_docs (step s e) = sandbox_docs s.
Proof.
  intros He Ha Ht. destruct e; simpl in He; simpl.
  - unfold on_input, scheduleAutoRun. cbn. rewrite Ha. cbn. by repeat split.
  - by repeat split.
  - destruct checked; [discriminate|]. by repeat split.
  - by repeat split.
  - discriminate.
  - by repeat split.
  - unfold on_theme_click, setTheme. destruct (String.eqb _ _); by repeat split.
  - unfold on_keydown. apply negb_true_iff in He. rewrite He.
    destruct (alt && _); by repeat split.
  - unfold on_message. destruct data as [d|]; [|by repeat split].
    destruct (JsString.is_empty _); [by repeat split|].
    destruct (String.eqb _ _); [|by repeat split].
    destruct (Js.strict_eq_string _ _); by repeat split.
  - rewrite (elapse_idle s ms Ht). by repeat split.
Qed.

(** X12. On a page that starts with the autorun box unchecked, typing
    and waiting never run the code: as long as nobody presses the run
    button or its shortcut or checks the box, no sandbox document is made
    and no timer is ever set. *)
Theorem autorun_off_runs_nothing (m : markup) (store : gmap string string) (es : list event) :
  markup_autorun m = false ->
  forallb no_trigger es = true ->
  sandbox_docs (run (load m store) es) = [] /\ timers (run (load m store) es) = [].
Proof.
  intros Hm Hes.
  assert (Ha : autorun_checked (load m store) = false).
  { unfold load, initState, fresh, getItem. simpl.
    repeat (match goal with |- context [match ?x with _ => _ end] => destruct x end; simpl);
      exact Hm. }
  destruct (load_quiet m store) as (Hd & _). pose proof (load_timers m store) as Ht.
  revert Ha Hd Ht. generalize (load m store).
  induction es as [|e rest IH]; intros s0 Ha Hd Ht; [by split|].
  simpl in Hes. apply andb_true_iff in Hes as [He Hrest]. simpl.
  destruct (no_trigger_step s0 e He Ha Ht) as (K1 & K2 & K3).
  apply (IH Hrest); congruence.
Qed.

Lemma autorun_off_runs_nothing_witness :
  let m := Markup "" false true false in
  let es := [Input "1+1"; Elapse 700; Commit "Math.max" 3; ClickTheme; Keydown false true "c";
             Input "2"; Elapse 5000] in
  markup_autorun m = false /\ forallb no_trigger es = true /\
  sandbox_docs (run (load m ∅) es) = [].
Proof.
  intros m es. split; [reflexivity|]. split; [reflexivity|].
  exact (proj1 (autorun_off_runs_nothing m ∅ es eq_refl eq_refl)).
Defined.

(** X13. With the autorun box checked, typing a text that is not blank
    and pressing the run button before the timer fires runs the text once:
    when the timer fires later, the text equals the last-run snapshot and
    no second sandbox document is made. *)
Theorem manual_run_preempts_timer (s : state) (text : string) (wait : nat) :
  timers_ok s ->
  autorun_checked s = true ->
  ¬ JsString.all_white_space text ->
  sandbox_docs (run s [Input text; ClickRun; Elapse wait]) = sandboxDoc text :: sandbox_docs s /\
  (DEBOUNCE_MS <= wait -> timers (run s [Input text; ClickRun; Elapse wait]) = []).
Proof.
  intros Hok Ha Hn. cbn [run fold_left step].
  destruct (on_input_armed s text Hok Ha) as (H1 & H2 & H3 & H4 & H5 & H6 & H7).
  set (s1 := on_input text s) in *.
  assert (Hg : JsString.is_empty (JsString.trim (code_value s1)) = false).
  { apply not_blank_guard. by rewrite H3. }
  pose proof (runCode_launch s1 Hg) as Hr.
  destruct (runCode_keeps s1) as (K1 & K2 & K3 & K4 & K5 & _).
  set (s2 := runCode s1) in *.
  assert (Hd : sandbox_docs s2 = sandboxDoc text :: sandbox_docs s).
  { rewrite Hr. cbn. by rewrite H3, H4. }
  assert (Hl : lastRunCode s2 = code_value s2) by (rewrite K3, Hr; reflexivity).
  destruct (decide (DEBOUNCE_MS <= wait)) as [Hle|Hlt].
  - rewrite (elapse_firing s2 (Timer (next_timer s) (now s + DEBOUNCE_MS)) wait);
      [|congruence|cbn; lia].
    split.
    + rewrite autorun_callback_docs. cbn. rewrite Hl, String.eqb_refl. exact Hd.
    + intros _. unfold autorun_callback. cbn. rewrite Hl, String.eqb_refl. reflexivity.
  - rewrite (elapse_waiting s2 (Timer (next_timer s) (now s + DEBOUNCE_MS)) wait);
      [|congruence|cbn; lia].
    split; [exact Hd|lia].
Qed.

Lemma manual_run_preempts_timer_witness :
  timers_ok typed_one /\ autorun_checked typed_one = true /\
  ¬ JsString.all_white_space "1+2" /\
  sandbox_docs (run typed_one [Input "1+2"; ClickRun; Elapse 600]) = [sandboxDoc "1+2"].
Proof.
  assert (Hok : timers_ok typed_one) by (right; exists (Timer 1 600); split; reflexivity).
  assert (Hn : ¬ JsString.all_white_space "1+2").
  { intros H. apply trim_empty_iff in H. discriminate. }
  split; [exact Hok|]. split; [reflexivity|]. split; [exact Hn|].
  exact (proj1 (manual_run_preempts_timer typed_one "1+2" 600 Hok eq_refl Hn)).
Defined.




Lemma on_message_frame data s :
  code_value (on_message data s) = code_value s /\
  localStorage (on_message data s) = localStorage s /\
  sandbox_docs (on_message data s) = sandbox_docs s /\
  lastRunCode (on_message data s) = lastRunCode s /\
  timers (on_message data s) = timers s /\
  debounceId (on_message data s) = debounceId s /\
  autorun_checked (on_message data s) = autorun_checked s.
Proof.
  unfold on_message. destruct data as [d|]; [|by repeat split].
  destruct (JsString.is_empty _); [by repeat split|].
  destruct (String.eqb _ _); [|by repeat split].
  destruct (Js.strict_eq_string _ _); by repeat split.
Qed.

(** X15. No message event, whatever its data and whoever sent it, starts
    a run, sets or cancels a timer, changes the editor text or the last-run
    snapshot, or touches the store: a sequence of message events only
    changes the output and the status. *)
Theorem messages_only_touch_display (s : state) (datas : list (option message)) :
  let s' := run s (map Post datas) in
  code_value s' = code_value s /\ localStorage s' = localStorage s /\
  sandbox_docs s' = sandbox_docs s /\ lastRunCode s' = lastRunCode s /\
  timers s' = timers s /\ debounceId s' = debounceId s /\
  autorun_checked s' = autorun_checked s.
Proof.
  unfold run. revert s. induction datas as [|d rest IH]; intros s; [by repeat split|].
  cbn [map fold_left step].
  destruct (IH (on_message d s)) as (H1 & H2 & H3 & H4 & H5 & H6 & H7).
  destruct (on_message_frame d s) as (K1 & K2 & K3 & K4 & K5 & K6 & K7).
  cbv zeta. repeat split; congruence.
Qed.

(** X16. The listener does not tell instances apart: console messages
    that a previous instance posts after a new run was triggered (calls its
    code had deferred) are appended to the new run's output, ahead of the
    new run's own lines. *)
Theorem stale_messages_reach_output (s : state) (old new : behaviour) :
  ¬ JsString.all_white_space (code_value s) ->
  output (deliver (late_messages old ++ run_messages s new) (runCode s))
    = lines_of (late_messages old) ++ lines_of (Sandbox.messages new) /\
  length (lines_of (late_messages old)) = length (late_messages old).
Proof.
  intros Hn. pose proof (not_blank_guard s Hn) as Hg.
  assert (Hl : Forall (fun m => type m ≠ "") (late_messages old)).
  { eapply Forall_impl; [apply console_messages_kinds|]. apply console_message_typed. }
  split.
  - rewrite deliver_app, (run_messages_launch s new Hg).
    rewrite deliver_output by apply messages_typed.
    rewrite deliver_output by exact Hl.
    by rewrite (runCode_launch s Hg).
  - unfold lines_of. rewrite length_map. f_equal.
    unfold late_messages. induction (console_messages_kinds (deferred old)) as [|m l Hm _ IH];
      [reflexivity|].
    rewrite filter_cons_True by (by apply console_message_not_done). by rewrite IH.
Qed.

Lemma stale_messages_reach_output_witness :
  let s := with_code "return 1" (load (Markup "" false true false) ∅) in
  let old := Behaviour [] (Normal VUndefined) [(Log, [VString "late"])] in
  let new := Behaviour [] (Normal (VNumber 1)) [] in
  ¬ JsString.all_white_space (code_value s) /\
  output (deliver (late_messages old ++ run_messages s new) (runCode s))
    = [("log", VString "late"); ("result", VString "1")].
Proof.
  intros s old new.
  assert (Hn : ¬ JsString.all_white_space (code_value s)).
  { intros H. apply trim_empty_iff in H. discriminate. }
  split; [exact Hn|].
  rewrite (proj1 (stale_messages_reach_output s old new Hn)). reflexivity.
Defined.

End PageMore.

(** ** More on the store *)

Section StoreMore.
Import Sandbox Page.

Lemma load_dark m (store : gmap string string) :
  dark_theme (load m store) =
    match store !! STORAGE_KEY_THEME with
    | Some saved => if String.eqb saved "dark" then true else markup_dark m
    | None => markup_dark m
    end.
Proof.
  unfold load, initState, fresh, getItem. cbn [localStorage setStatus with_status dark_theme].
  destruct (store !! STORAGE_KEY_CODE) as [saved|]; [destruct (JsString.is_empty saved)|];
    cbn [localStorage with_code];
    (destruct (store !! STORAGE_KEY_THEME) as [theme|];
     [destruct (String.eqb theme "dark")|]);
    cbn;
    repeat (match goal with |- context [match ?x with _ => _ end] => destruct x end; cbn);
    reflexivity.
Qed.

Lemma load_ac m (store : gmap string string) :
  ac_checked (load m store) =
    match store !! STORAGE_KEY_AC with
    | Some saved => String.eqb saved "on"
    | None => markup_ac m
    end.
Proof.
  assert (Hne : (<[STORAGE_KEY_THEME:="dark"]> store) !! STORAGE_KEY_AC = store !! STORAGE_KEY_AC)
    by (by apply lookup_insert_ne).
  unfold load, initState, fresh, getItem. cbn [localStorage setStatus with_status ac_checked].
  destruct (store !! STORAGE_KEY_CODE) as [saved|]; [destruct (JsString.is_empty saved)|];
    cbn [localStorage with_code];
    (destruct (store !! STORAGE_KEY_THEME) as [theme|];
     [destruct (String.eqb theme "dark")|]);
    cbn; rewrite ?Hne; destruct (store !! STORAGE_KEY_AC); reflexivity.
Qed.

(** X17. A click on the theme button flips the theme and stores it as
    "dark" or "light"; a second click flips it back.  A reload shows the
    dark theme when "dark" was stored, and otherwise leaves the theme to
    the page's markup: a stored "light" does not undo a dark default. *)
Theorem theme_round_trip (s : state) (m : markup) :
  let s' := on_theme_click s in
  dark_theme s' = negb (dark_theme s) /\
  theme_saved s' /\
  dark_theme (on_theme_click s') = dark_theme s /\
  dark_theme (load m (localStorage s')) = (dark_theme s' || markup_dark m).
Proof.
  intros s'.
  assert (Hflip : dark_theme s' = negb (dark_theme s)).
  { subst s'. unfold on_theme_click. by destruct (dark_theme s). }
  assert (Hsaved : theme_saved s').
  { subst s'. unfold on_theme_click, theme_saved.
    destruct (dark_theme s); cbn; apply lookup_insert_eq. }
  split; [exact Hflip|]. split; [exact Hsaved|]. split.
  - unfold on_theme_click at 1. rewrite Hflip. by destruct (dark_theme s).
  - rewrite load_dark, Hsaved. by destruct (dark_theme s').
Qed.

(** X18. The autocomplete preference survives a reload exactly as the
    box was last set.  On loading, any stored value other than "on"
    unchecks the box, and only a missing entry leaves it as the markup has
    it. *)
Theorem autocomplete_preference_round_trip (s : state) (m : markup) (checked : bool)
    (store : gmap string string) :
  ac_checked (load m (localStorage (on_ac_change checked s))) = checked /\
  (forall saved, store !! STORAGE_KEY_AC = Some saved ->
     ac_checked (load m store) = String.eqb saved "on") /\
  (store !! STORAGE_KEY_AC = None -> ac_checked (load m store) = markup_ac m).
Proof.
  split; [|split].
  - rewrite load_ac. unfold on_ac_change. cbn. rewrite lookup_insert_eq. by destruct checked.
  - intros saved H. by rewrite load_ac, H.
  - intros H. by rewrite load_ac, H.
Qed.

Lemma fold_callbacks_store (ready : list timer) s :
  localStorage (fold_left (fun s' _ => autorun_callback s') ready s) = localStorage s.
Proof.
  revert s. induction ready as [|t rest IH]; intros s; [reflexivity|].
  simpl. rewrite IH. unfold autorun_callback. destruct (String.eqb _ _); [reflexivity|].
  by destruct (runCode_keeps s) as (_ & _ & _ & _ & _ & ->).
Qed.

(** X19. The three stored entries are independent: an event changes at
    most the entry it is about (the text for edits and Clear, the theme for
    the theme button, the preference for the autocomplete box), and runs,
    messages and timers change none. *)
Theorem store_entries_are_independent (s : state) (e : event) (k : string) :
  k ∉ touched e ->
  localStorage (step s e) !! k = localStorage s !! k.
Proof.
  intros Hk. destruct e; simpl in Hk; simpl.
  - unfold on_input.
    destruct (scheduleAutoRun_keeps
                (setItem STORAGE_KEY_CODE (code_value (with_code text s)) (with_code text s)))
      as [-> _].
    cbn. apply lookup_insert_ne. intros <-. apply Hk. rewrite elem_of_cons. by left.
  - unfold commitAutocomplete. cbn. apply lookup_insert_ne. intros <-. apply Hk.
    rewrite elem_of_cons. by left.
  - reflexivity.
  - unfold on_ac_change. cbn. apply lookup_insert_ne. intros <-. apply Hk.
    rewrite elem_of_cons. by left.
  - by destruct (runCode_keeps s) as (_ & _ & _ & _ & _ & ->).
  - unfold on_clear_click. cbn. apply lookup_delete_ne. intros <-. apply Hk.
    rewrite elem_of_cons. by left.
  - unfold on_theme_click, setTheme. destruct (String.eqb _ _); cbn;
      apply lookup_insert_ne; intros <-; apply Hk; rewrite elem_of_cons; by left.
  - unfold on_keydown.
    assert (Hr : localStorage (if meta && String.eqb key "Enter" then runCode s else s)
                 = localStorage s).
    { destruct (meta && _); [|reflexivity].
      by destruct (runCode_keeps s) as (_ & _ & _ & _ & _ & ->). }
    destruct alt; cbn [andb]; [|by rewrite Hr].
    destruct (_ || _); [|by rewrite Hr].
    unfold on_clear_click. cbn. rewrite Hr. apply lookup_delete_ne. intros <-. apply Hk.
    rewrite elem_of_cons. by left.
  - by destruct (on_message_frame data s) as (_ & -> & _).
  - unfold elapse, run_timers. by rewrite fold_callbacks_store.
Qed.

Lemma store_entries_are_independent_witness :
  (STORAGE_KEY_THEME ∉ touched (Input "x")) /\
  localStorage (step (on_theme_click (load (Markup "" false true false) ∅)) (Input "x"))
    !! STORAGE_KEY_THEME = Some "dark".
Proof.
  assert (H : STORAGE_KEY_THEME ∉ touched (Input "x")).
  { simpl. rewrite not_elem_of_cons. split; [discriminate|apply not_elem_of_nil]. }
  split; [exact H|].
  rewrite (store_entries_are_independent _ (Input "x") STORAGE_KEY_THEME H).
  vm_compute. reflexivity.
Defined.

End StoreMore.

(** ** The suggestion panel *)

Section Suggestions.
Import Sandbox Page Suggest.

Lemma substring_all (text : string) : substring 0 (String.length text) text = text.
Proof. induction text as [|c t IH]; [reflexivity|]. simpl. by rewrite IH. Qed.

Lemma substring_split (text : string) : forall n,
  n <= String.length text ->
  text = substring 0 n text +:+ substring n (String.length text - n) text.
Proof.
  induction text as [|c t IH]; intros n Hn.
  - simpl in Hn. assert (n = 0) as -> by lia. reflexivity.
  - destruct n as [|n].
    + change (substring 0 0 (String c t)) with EmptyString.
      rewrite Nat.sub_0_r, substring_all. reflexivity.
    + simpl in Hn. simpl substring. rewrite append_cons. f_equal. apply IH. lia.
Qed.

Lemma substring_length (text : string) : forall n,
  n <= String.length text -> String.length (substring 0 n text) = n.
Proof.
  induction text as [|c t IH]; intros n Hn.
  - simpl in Hn. assert (n = 0) as -> by lia. reflexivity.
  - destruct n as [|n]; [reflexivity|]. simpl in *. rewrite IH; lia.
Qed.

Lemma substring_prefix (a b : string) : substring 0 (String.length a) (a +:+ b) = a.
Proof.
  induction a as [|c a IH].
  - simpl. by destruct b.
  - rewrite append_cons. simpl. by rewrite IH.
Qed.

Lemma match_token_suffix (upTo : string) : exists pre, upTo = pre +:+ match_token upTo.
Proof.
  induction upTo as [|c rest IH]; [by exists ""|].
  simpl. destruct (is_token_start c && _).
  - by exists "".
  - destruct IH as [pre IH]. exists (String c pre). rewrite append_cons. by f_equal.
Qed.

Lemma match_token_like (upTo : string) :
  match_token upTo = "" \/ token_like (match_token upTo) = true.
Proof.
  induction upTo as [|c rest IH]; [by left|].
  simpl. destruct (is_token_start c && _) eqn:E; [|exact IH]. right. exact E.
Qed.

Lemma match_token_leftmost (upTo : string) : forall pre t,
  upTo = pre +:+ t -> token_like t = true ->
  String.length t <= String.length (match_token upTo).
Proof.
  induction upTo as [|c rest IH]; intros pre t H Ht.
  - destruct pre; [|discriminate]. change ("" +:+ t) with t in H. subst t. discriminate.
  - simpl match_token.
    destruct (is_token_start c && forallb is_token_char (list_ascii_of_string rest)) eqn:E.
    + rewrite H, length_append. lia.
    + destruct pre as [|c' pre].
      * change ("" +:+ t) with t in H. subst t. simpl in Ht. congruence.
      * rewrite append_cons in H. injection H as -> H. by apply (IH pre).
Qed.

(** X21. The token [findToken] returns is the end of the text before the
    caret; it is empty, or starts with a letter, underscore or dollar and
    goes on with word characters, dots and dollars; and it is the longest
    such ending, so it is empty only when no ending has that form. *)
Theorem findToken_shape (text : string) (pos : nat) :
  let token := findToken text pos in
  (exists pre, substring 0 pos text = pre +:+ token) /\
  (token = "" \/ token_like token = true) /\
  (forall pre t, substring 0 pos text = pre +:+ t -> token_like t = true ->
     String.length t <= String.length token).
Proof.
  intros token. subst token. unfold findToken.
  split; [apply match_token_suffix|]. split; [apply match_token_like|].
  apply match_token_leftmost.
Qed.

(** X20. Committing a suggestion with the caret inside the text replaces
    exactly the token before the caret by the suggestion and keeps what
    precedes the token and what follows the caret; it sets no timer and
    makes no sandbox document, so the new text is not run by it. *)
Theorem commit_replaces_token (s : state) (suggestion : string) (pos : nat) :
  pos <= String.length (code_value s) ->
  exists before after,
    code_value s = before +:+ findToken (code_value s) pos +:+ after /\
    String.length before + String.length (findToken (code_value s) pos) = pos /\
    code_value (commitAutocomplete suggestion pos s) = before +:+ suggestion +:+ after /\
    timers (commitAutocomplete suggestion pos s) = timers s /\
    sandbox_docs (commitAutocomplete suggestion pos s) = sandbox_docs s.
Proof.
  intros Hpos. set (text := code_value s) in *.
  destruct (match_token_suffix (substring 0 pos text)) as [pre Hpre].
  fold (findToken text pos) in Hpre. set (token := findToken text pos) in *.
  set (after := substring pos (String.length text - pos) text).
  assert (Hlen : String.length pre + String.length token = pos).
  { rewrite <- length_append, <- Hpre. by apply substring_length. }
  assert (Htext : text = pre +:+ token +:+ after).
  { rewrite <- append_assoc, <- Hpre. by apply substring_split. }
  exists pre, after. split; [exact Htext|]. split; [exact Hlen|].
  split; [|split; reflexivity].
  unfold commitAutocomplete. cbn. fold text. fold token. fold after.
  replace (pos - String.length token) with (String.length pre) by lia.
  rewrite Htext at 1. by rewrite substring_prefix.
Qed.

Lemma commit_replaces_token_witness :
  let s := with_code "x = cons + 1" (load (Markup "" false true false) ∅) in
  8 <= String.length (code_value s) /\
  findToken (code_value s) 8 = "cons" /\
  code_value (commitAutocomplete "console.log" 8 s) = "x = console.log + 1" /\
  exists before after,
    "x = cons + 1" = before +:+ "cons" +:+ after /\
    code_value (commitAutocomplete "console.log" 8 s) = before +:+ "console.log" +:+ after.
Proof.
  intros s.
  assert (Hpos : 8 <= String.length (code_value s)) by (vm_compute; lia).
  split; [exact Hpos|]. split; [reflexivity|]. split; [reflexivity|].
  destruct (commit_replaces_token s "console.log" 8 Hpos) as (before & after & H1 & _ & H2 & _).
  exists before, after. split; [exact H1|exact H2].
Defined.

Lemma filter_sublist {A} (f : A -> bool) (l : list A) : List.filter f l `sublist_of` l.
Proof.
  induction l as [|x l IH]; simpl; [constructor|].
  destruct (f x); [by apply sublist_skip|by apply sublist_cons].
Qed.

Lemma filter_Forall {A} (f : A -> bool) (l : list A) :
  Forall (fun x => f x = true) (List.filter f l).
Proof.
  induction l as [|x l IH]; simpl; [constructor|].
  destruct (f x) eqn:E; [by constructor|exact IH].
Qed.

Lemma fst_imap {A} (g : nat -> bool) (l : list A) :
  map fst (imap (fun i it => (it, g i)) l) = l.
Proof.
  revert g. induction l as [|x l IH]; intros g; [reflexivity|].
  rewrite imap_cons. simpl. f_equal. apply (IH (g ∘ S)).
Qed.

Lemma Forall_imap_fst {A} (P : A -> Prop) (g : nat -> bool) (l : list A) :
  Forall P l -> Forall (fun it => P (fst it)) (imap (fun i it => (it, g i)) l).
Proof.
  revert g. induction l as [|x l IH]; intros g H; [constructor|].
  inversion H; subst. rewrite imap_cons. constructor; [assumption|].
  by apply (IH (g ∘ S)).
Qed.

(** X22. The panel that [handleAutocomplete] leaves shows at most eight
    items, all taken from the catalog in catalog order, each containing
    the token before the caret when letter case is ignored; it is hidden
    exactly when it has no item, and it is shown only if the autocomplete
    box is checked and the token has at least two characters, with the
    first item, and no other, active. *)
Theorem suggestions_shown (catalog : list string) (s : state) (pos : nat) (p : panel) :
  let q := handleAutocomplete catalog s pos p in
  let token := findToken (code_value s) pos in
  length (items q) <= 8 /\
  (hidden q = true <-> items q = []) /\
  map fst (items q) `sublist_of` catalog /\
  Forall (fun it => includes (toLowerCase (fst it)) (toLowerCase token) = true) (items q) /\
  (hidden q = false ->
   ac_checked s = true /\ 2 <= String.length token /\ only_active 0 (items q)).
Proof.
  intros q token. subst q. unfold handleAutocomplete. fold token.
  assert (Hhid : forall p', let q := hideAutocomplete p' in
            length (items q) <= 8 /\ (hidden q = true <-> items q = []) /\
            map fst (items q) `sublist_of` catalog /\
            Forall (fun it => includes (toLowerCase (fst it)) (toLowerCase token) = true)
                   (items q) /\
            (hidden q = false ->
             ac_checked s = true /\ 2 <= String.length token /\ only_active 0 (items q))).
  { intros p'. simpl. split; [lia|]. split; [done|]. split; [apply sublist_nil_l|].
    split; [constructor|discriminate]. }
  destruct (ac_checked s) eqn:Hac; cbn [negb]; [|apply Hhid].
  destruct (JsString.is_empty token || (String.length token <? 2)) eqn:Htok; [apply Hhid|].
  apply orb_false_iff in Htok as [_ Hlen]. apply Nat.ltb_ge in Hlen.
  set (found := List.filter _ catalog).
  unfold showAutocomplete. destruct found as [|x rest] eqn:Hf; [apply Hhid|].
  cbn [is_nil]. rewrite <- Hf. clear Hhid. cbn [items hidden].
  assert (Hne : take 8 found <> []) by (rewrite Hf; discriminate).
  split; [rewrite length_imap, length_take; lia|].
  split.
  { split; [discriminate|]. intros H. apply (f_equal length) in H.
    rewrite length_imap in H. destruct (take 8 found); [done|discriminate]. }
  split.
  { rewrite fst_imap. etrans; [apply sublist_take|]. apply filter_sublist. }
  split.
  { apply (Forall_imap_fst (fun it => includes (toLowerCase it) (toLowerCase token) = true)).
    apply Forall_take. subst found. apply filter_Forall. }
  intros _. split; [reflexivity|]. split; [exact Hlen|].
  split.
  - rewrite length_imap. destruct (take 8 found); [done|simpl; lia].
  - intros j it Hj. rewrite list_lookup_imap in Hj.
    destruct (take 8 found !! j) as [v|]; [|discriminate]. simpl in Hj.
    injection Hj as <-. simpl. by destruct j.
Qed.

Lemma only_active_tail i x its :
  only_active (S i) (x :: its) -> snd x = false /\ only_active i its.
Proof.
  intros [Hlt H]. split.
  - rewrite (H 0 x eq_refl). reflexivity.
  - split; [simpl in Hlt; lia|]. intros j it Hj. rewrite (H (S j) it Hj).
    apply bool_decide_ext. lia.
Qed.

Lemma findIndex_only_active its : forall i, only_active i its -> findIndex its = Z.of_nat i.
Proof.
  induction its as [|[v a] its IH]; intros i H.
  - destruct H as [H _]. simpl in H. lia.
  - destruct i as [|i].
    + destruct H as [_ H]. specialize (H 0 (v, a) eq_refl). simpl in H. subst a. reflexivity.
    + apply only_active_tail in H as [Ha H]. simpl in Ha. subst a. simpl.
      rewrite (IH i H). destruct (Z.ltb_spec (Z.of_nat i) 0); lia.
Qed.

Lemma fst_activate (g : nat -> bool) (its : list (string * bool)) :
  map fst (imap (fun j it => (fst it, g j)) its) = map fst its.
Proof.
  revert g. induction its as [|x its IH]; intros g; [reflexivity|].
  rewrite imap_cons. simpl. f_equal. apply (IH (g ∘ S)).
Qed.

Lemma activate_only_active (k : Z) (its : list (string * bool)) :
  (0 <= k < Z.of_nat (length its))%Z -> only_active (Z.to_nat k) (activate k its).
Proof.
  intros Hk. unfold activate. split; [rewrite length_imap; lia|].
  intros j it Hj. rewrite list_lookup_imap in Hj.
  destruct (its !! j) as [x|]; [|discriminate]. simpl in Hj. injection Hj as <-. simpl.
  destruct (Z.eqb_spec (Z.of_nat j) k).
  - rewrite bool_decide_eq_true_2; [reflexivity|lia].
  - rewrite bool_decide_eq_false_2; [reflexivity|lia].
Qed.

(** X23. While the panel is shown with one active item, the arrow keys
    move the active mark by one place without leaving the list: ArrowDown
    on the last item and ArrowUp on the first leave it where it is.  The
    items and the page are unchanged, and exactly one item stays active. *)
Theorem arrows_stay_in_list (key : string) (pos : nat) (p : panel) (s : state) (i : nat) :
  hidden p = false ->
  only_active i (items p) ->
  key = "ArrowDown" \/ key = "ArrowUp" ->
  let r := on_editor_key key pos p s in
  snd r = s /\
  hidden (fst r) = false /\
  map fst (items (fst r)) = map fst (items p) /\
  only_active (if String.eqb key "ArrowDown"
               then Nat.min (i + 1) (length (items p) - 1)
               else i - 1)
              (items (fst r)).
Proof.
  intros Hh Ha Hkey r. subst r. unfold on_editor_key. rewrite Hh.
  pose proof (findIndex_only_active _ _ Ha) as Hidx.
  destruct Ha as [Hlt Ha].
  destruct (items p) as [|x rest] eqn:Hitems; [simpl in Hlt; lia|].
  cbn [is_nil]. rewrite Hidx. rewrite <- Hitems in *. clear Hitems x rest.
  destruct Hkey as [-> | ->]; cbn [String.eqb Ascii.eqb Bool.eqb fst snd items hidden].
  - split; [reflexivity|]. split; [reflexivity|]. split; [apply fst_activate|].
    replace (Nat.min (i + 1) (length (items p) - 1))
      with (Z.to_nat (Z.min (Z.of_nat (length (items p)) - 1) (Z.of_nat i + 1))) by lia.
    apply activate_only_active. lia.
  - split; [reflexivity|]. split; [reflexivity|]. split; [apply fst_activate|].
    replace (i - 1) with (Z.to_nat (Z.max 0 (Z.of_nat i - 1))) by lia.
    apply activate_only_active. lia.
Qed.

Lemma arrows_stay_in_list_witness :
  let p := Panel false [("console.log", false); ("console.info", true)] in
  let s := load (Markup "" false true false) ∅ in
  hidden p = false /\ only_active 1 (items p) /\
  items (fst (on_editor_key "ArrowDown" 0 p s))
    = [("console.log", false); ("console.info", true)] /\
  only_active 0 (items (fst (on_editor_key "ArrowUp" 0 p s))).
Proof.
  intros p s.
  assert (Ha : only_active 1 (items p)).
  { split; [simpl; lia|]. intros [|[|j]] it H; simpl in H; try discriminate;
      injection H as <-; reflexivity. }
  split; [reflexivity|]. split; [exact Ha|]. split; [reflexivity|].
  exact (proj2 (proj2 (proj2 (arrows_stay_in_list "ArrowUp" 0 p s 1 eq_refl Ha
                                (or_intror eq_refl))))).
Defined.

Lemma is_newline_char (c : ascii) : (nat_of_ascii c =? 10) = true -> c = ascii_of_nat 10.
Proof.
  intros H. apply Nat.eqb_eq in H. apply (f_equal ascii_of_nat) in H.
  by rewrite ascii_nat_embedding in H.
Qed.

Lemma split_lines_cons (s : string) : exists l more, split_lines s = l :: more.
Proof.
  induction s as [|c r IH]; [by exists "", []|].
  simpl. destruct (nat_of_ascii c =? 10); [by eexists _, _|].
  destruct IH as (l & more & ->). by eexists _, _.
Qed.

Lemma join_split_lines (s : string) : join_lines (split_lines s) = s.
Proof.
  induction s as [|c r IH]; [reflexivity|].
  simpl. destruct (split_lines_cons r) as (l & more & Hr). rewrite Hr in *.
  destruct (nat_of_ascii c =? 10) eqn:E.
  - apply is_newline_char in E. subst c.
    change (join_lines ("" :: l :: more)) with (JsString.newline +:+ join_lines (l :: more)).
    by rewrite IH.
  - destruct more as [|m more]; [simpl in *; by subst|].
    change (join_lines (String c l :: m :: more))
      with (String c (l +:+ JsString.newline +:+ join_lines (m :: more))).
    f_equal. exact IH.
Qed.

Lemma split_lines_length (s : string) : length (split_lines s) = S (count_newlines s).
Proof.
  induction s as [|c r IH]; [reflexivity|].
  unfold count_newlines in *. simpl.
  destruct (split_lines_cons r) as (l & more & Hr). rewrite Hr in *.
  destruct (nat_of_ascii c =? 10); simpl in *; lia.
Qed.

Lemma count_newlines_cons (c : ascii) (s : string) :
  count_newlines (String c s)
    = (if nat_of_ascii c =? 10 then 1 else 0) + count_newlines s.
Proof. unfold count_newlines. simpl. by destruct (nat_of_ascii c =? 10). Qed.

Lemma count_newlines_ends (b : string) : 1 <= count_newlines (b +:+ JsString.newline).
Proof.
  induction b as [|c b IH]; [unfold count_newlines; simpl; lia|].
  rewrite append_cons, count_newlines_cons. lia.
Qed.

Lemma last_line_spec (s : string) :
  exists before,
    s = before +:+ List.last (split_lines s) "" /\
    count_newlines (List.last (split_lines s) "") = 0 /\
    count_newlines before = count_newlines s /\
    (before = "" \/ exists b, before = b +:+ JsString.newline).
Proof.
  induction s as [|c r IH]; [exists ""; repeat split; by left|].
  destruct IH as (before & Hr & Hcur & Hcount & Hend).
  pose proof (split_lines_length r) as Hlen.
  simpl split_lines. destruct (split_lines_cons r) as (l & more & Hs). rewrite Hs in *.
  destruct (nat_of_ascii c =? 10) eqn:E.
  - change (List.last ("" :: l :: more) "") with (List.last (l :: more) "").
    exists (String c before). rewrite append_cons, !count_newlines_cons, E.
    split; [by f_equal|]. split; [exact Hcur|]. split; [lia|]. right.
    apply is_newline_char in E. subst c.
    destruct Hend as [->|[b ->]]; [by exists ""|]. exists (String (ascii_of_nat 10) b).
    by rewrite append_cons.
  - destruct more as [|m more].
    + assert (Hb : before = "").
      { destruct Hend as [->|[b ->]]; [reflexivity|].
        pose proof (count_newlines_ends b). simpl in Hlen. lia. }
      subst before. change ("" +:+ List.last [l] "") with l in Hr. subst r.
      exists "". change (List.last [String c l] "") with (String c l).
      rewrite count_newlines_cons, E. simpl in Hcur.
      split; [reflexivity|]. split; [simpl; exact Hcur|]. split; [|by left].
      unfold count_newlines at 1. simpl. lia.
    + change (List.last (String c l :: m :: more) "") with (List.last (l :: m :: more) "").
      exists (String c before). rewrite append_cons, !count_newlines_cons, E.
      split; [by f_equal|]. split; [exact Hcur|]. split; [lia|]. right.
      destruct Hend as [->|[b ->]].
      * exfalso. change ("" +:+ List.last (l :: m :: more) "")
          with (List.last (l :: m :: more) "") in Hr.
        rewrite <- Hr in Hcur. simpl in Hlen. lia.
      * exists (String c b). by rewrite append_cons.
Qed.

(** X25. In [getCaretPosition], joining the pieces of the text before the
    caret with line breaks gives that text back; [line] is the number of
    line breaks before the caret, and [col] is the length of what follows
    the last of them (of the whole text before the caret when there is
    none), a piece that holds no line break. *)
Theorem caret_line_col_spec (text : string) (pos : nat) :
  let upTo := substring 0 pos text in
  join_lines (split_lines upTo) = upTo /\
  fst (caret_line_col text pos) = count_newlines upTo /\
  exists before current,
    upTo = before +:+ current /\
    snd (caret_line_col text pos) = String.length current /\
    count_newlines current = 0 /\
    (before = "" \/ exists b, before = b +:+ JsString.newline).
Proof.
  intros upTo. split; [apply join_split_lines|]. split.
  - unfold caret_line_col. cbn [fst]. fold upTo. rewrite split_lines_length. lia.
  - destruct (last_line_spec upTo) as (before & H1 & H2 & _ & H4).
    exists before, (List.last (split_lines upTo) ""). by repeat split.
Qed.

End Suggestions.

(** * The instance as a whole *)

(** ** What the code's own posts and the original console methods add *)

Section Instances.
Import Sandbox Page Instance.

Lemma console_shim_native k args native posted :
  Instance.console_shim k args native posted
    = (posted ++ fst (Sandbox.console_shim k args []), native).
Proof.
  unfold Instance.console_shim, bind.
  change (try_catch _ _) with (Sandbox.console_shim k args).
  rewrite (framed_console_shim k args posted).
  destruct (console_shim_spec k args) as [-> _]. reflexivity.
Qed.

Lemma console_messages_one k args :
  console_messages [(k, args)] = fst (Sandbox.console_shim k args []).
Proof.
  unfold console_messages. simpl. unfold bind.
  destruct (console_shim_spec k args) as [Hr _].
  destruct (Sandbox.console_shim k args []) as [p r]. simpl in *. by subst r.
Qed.

Lemma perform_framed act posted :
  fst (perform act posted) = posted ++ fst (perform act []).
Proof.
  destruct act as [k args native|ty m]; simpl.
  - by rewrite !console_shim_native.
  - by rewrite (framed_send ty m posted).
Qed.

Lemma perform_all_run acts : forall posted,
  perform_all acts posted = (posted ++ emitted acts, Normal tt).
Proof.
  unfold emitted. induction acts as [|act rest IH]; intros posted.
  - simpl. unfold ret. by rewrite app_nil_r.
  - simpl. rewrite (IH (fst (perform act posted))), (IH (fst (perform act []))).
    simpl. by rewrite perform_framed, app_assoc.
Qed.

Lemma emitted_cons act rest : emitted (act :: rest) = emitted [act] ++ emitted rest.
Proof.
  unfold emitted at 1 2. simpl. rewrite (perform_all_run rest (fst (perform act []))).
  unfold ret. reflexivity.
Qed.

Lemma emitted_app acts1 acts2 : emitted (acts1 ++ acts2) = emitted acts1 ++ emitted acts2.
Proof.
  induction acts1 as [|act rest IH]; [reflexivity|].
  simpl. rewrite (emitted_cons act (rest ++ acts2)), IH, (emitted_cons act rest).
  by rewrite app_assoc.
Qed.

Lemma emitted_call k args native :
  emitted [Call k args native] = console_messages [(k, args)].
Proof.
  unfold emitted. simpl. unfold ret. simpl.
  by rewrite console_shim_native, console_messages_one.
Qed.

Lemma emitted_post ty m :
  emitted [Post ty m] = if Js.cloneable m then [Message ty m] else [].
Proof. unfold emitted. simpl. unfold send, ret. by destruct (Js.cloneable m). Qed.

Lemma emitted_plain cs : emitted (plain_calls cs) = console_messages cs.
Proof.
  induction cs as [|[k args] rest IH]; [reflexivity|].
  unfold plain_calls in *. simpl. rewrite emitted_cons, IH, emitted_call.
  by rewrite (console_messages_cons k args rest).
Qed.

Lemma emitted_length acts : length (emitted acts) <= length acts.
Proof.
  induction acts as [|act rest IH]; [reflexivity|].
  rewrite emitted_cons, length_app. simpl.
  assert (length (emitted [act]) <= 1); [|lia].
  destruct act as [k args native|ty m].
  - rewrite emitted_call, console_messages_one.
    destruct (console_shim_spec k args) as [_ [->|[text ->]]]; simpl; lia.
  - rewrite emitted_post. destruct (Js.cloneable m); simpl; lia.
Qed.

(** Each message of a sequence of actions is a console message or one the
    code posted itself. *)
Lemma emitted_kinds acts :
  Forall (fun m => is_console_message m \/ m ∈ own_posts acts) (emitted acts).
Proof.
  induction acts as [|act rest IH]; [constructor|].
  rewrite emitted_cons. apply Forall_app. split.
  - destruct act as [k args native|ty m].
    + rewrite emitted_call. eapply Forall_impl; [apply console_messages_kinds|].
      intros x Hx. by left.
    + rewrite emitted_post. destruct (Js.cloneable m); [|constructor].
      constructor; [|constructor]. right. simpl. rewrite elem_of_cons. by left.
  - eapply Forall_impl; [exact IH|]. intros x [Hx|Hx]; [by left|right].
    destruct act; simpl; [exact Hx|]. rewrite elem_of_cons. by right.
Qed.

Lemma own_posts_calls acts : forallb is_call acts = true -> own_posts acts = [].
Proof.
  induction acts as [|act rest IH]; [reflexivity|].
  simpl. intros H. apply andb_prop in H as [Ha Hr].
  destruct act; [|discriminate]. simpl. by apply IH.
Qed.

Lemma emitted_calls acts :
  forallb is_call acts = true -> Forall is_console_message (emitted acts).
Proof.
  intros H. eapply Forall_impl; [apply emitted_kinds|].
  intros m [Hm|Hm]; [exact Hm|]. rewrite (own_posts_calls acts H) in Hm.
  by apply not_elem_of_nil in Hm.
Qed.

Lemma emitted_not_done acts :
  existsb posts_done acts = false -> Forall (fun m => type m ≠ "done") (emitted acts).
Proof.
  induction acts as [|act rest IH]; [constructor|].
  simpl. intros H. apply orb_false_elim in H as [Ha Hr].
  rewrite emitted_cons. apply Forall_app. split; [|by apply IH].
  destruct act as [k args native|ty m].
  - rewrite emitted_call. eapply Forall_impl; [apply console_messages_kinds|].
    apply console_message_not_done.
  - rewrite emitted_post. destruct (Js.cloneable m); [|constructor].
    constructor; [|constructor]. simpl in *. by apply String.eqb_neq in Ha.
Qed.

(** The script first lets the code act, then reports how it completed. *)
Lemma instance_script_spec a :
  Instance.script a [] =
    let em := emitted (actions a) in
    match Instance.completion a with
    | Normal result =>
        match on_return result [] with
        | (ms, Normal _) => (em ++ ms, Normal tt)
        | (_, Abrupt e) => (em ++ fst (on_throw e []), snd (on_throw e []))
        end
    | Abrupt e => (em ++ fst (on_throw e []), snd (on_throw e []))
    end.
Proof.
  unfold Instance.script, try_catch, Instance.call_fn, bind. rewrite perform_all_run. simpl.
  unfold lift. destruct (Instance.completion a) as [result|e].
  - rewrite (framed_on_return result (emitted (actions a))).
    rewrite on_return_spec. destruct (is_undefined result); [reflexivity|].
    destruct (snd (serialize_result result [])) as [payload|e]; simpl; [reflexivity|].
    rewrite app_nil_r. apply framed_on_throw.
  - apply framed_on_throw.
Qed.

Lemma instance_script_ending a :
  exists tail,
    Instance.sync_messages a = emitted (actions a) ++ tail /\
    ending tail (snd (Instance.script a [])).
Proof.
  unfold Instance.sync_messages. rewrite instance_script_spec. simpl.
  destruct (Instance.completion a) as [result|e].
  - rewrite on_return_spec. destruct (is_undefined result).
    + eexists. split; [reflexivity|constructor].
    + destruct (snd (serialize_result result [])) as [payload|e]; simpl.
      * eexists. split; [reflexivity|constructor].
      * eexists. split; [reflexivity|apply on_throw_ending].
  - eexists. split; [reflexivity|apply on_throw_ending].
Qed.

(** On code that only makes console calls whose original method returns,
    the instance is the script of [Sandbox]. *)
Lemma script_plain b : Instance.script (plain b) [] = Sandbox.script b [].
Proof.
  rewrite instance_script_spec, script_spec. unfold plain. cbn [actions Instance.completion].
  by rewrite emitted_plain.
Qed.

Lemma messages_plain b : Instance.messages (plain b) = Sandbox.messages b.
Proof.
  unfold Instance.messages, Sandbox.messages, Instance.sync_messages, Sandbox.sync_messages,
    Instance.late_messages, Sandbox.late_messages.
  rewrite script_plain. unfold plain. cbn [later]. by rewrite emitted_plain.
Qed.

Lemma instance_messages_launch s a :
  JsString.is_empty (JsString.trim (code_value s)) = false ->
  instance_messages s a = if script_runs (code_value s) then Instance.messages a else [].
Proof.
  intros H. unfold instance_messages, script_runs. rewrite runCode_launch by assumption.
  cbn [sandbox_docs with_sandbox_docs]. change (length (?d :: ?l)) with (S (length l)).
  destruct (Nat.eqb_spec (S (length (sandbox_docs s))) (length (sandbox_docs s))); [lia|done].
Qed.

Lemma deliver_status_no_done ms s :
  Forall (fun m => type m ≠ "done") ms -> status (deliver ms s) = status s.
Proof.
  revert s. induction ms as [|m rest IH]; intros s H; [reflexivity|].
  inversion H as [|? ? Hm Hrest]; subst. unfold deliver in *. simpl. rewrite IH by assumption.
  unfold on_message. destruct (JsString.is_empty (type m)); [reflexivity|].
  destruct (String.eqb_spec (type m) "done"); [done|reflexivity].
Qed.

Lemma deliver_frame ms : forall s,
  code_value (deliver ms s) = code_value s /\
  localStorage (deliver ms s) = localStorage s /\
  sandbox_docs (deliver ms s) = sandbox_docs s /\
  lastRunCode (deliver ms s) = lastRunCode s /\
  timers (deliver ms s) = timers s /\
  debounceId (deliver ms s) = debounceId s /\
  autorun_checked (deliver ms s) = autorun_checked s.
Proof.
  induction ms as [|m rest IH]; intros s; [by repeat split|].
  change (deliver (m :: rest) s) with (deliver rest (on_message (Some m) s)).
  destruct (IH (on_message (Some m) s)) as (H1 & H2 & H3 & H4 & H5 & H6 & H7).
  destruct (on_message_frame (Some m) s) as (K1 & K2 & K3 & K4 & K5 & K6 & K7).
  repeat split; congruence.
Qed.

End Instances.

(** ** One run, with the code free to post *)

Section Executions.
Import Sandbox Page Instance.

Lemma quiet_parts a :
  quiet a -> forallb is_call (actions a) = true /\ forallb is_call (later a) = true.
Proof. unfold quiet. rewrite forallb_app. apply andb_prop. Qed.

Lemma leaves_done_alone_parts a :
  leaves_done_alone a ->
  existsb posts_done (actions a) = false /\ existsb posts_done (later a) = false.
Proof. unfold leaves_done_alone. rewrite existsb_app. apply orb_false_elim. Qed.

(** The script runs to its end whenever it can report how the code
    completed: the returned value is undefined or serialises, or the value
    that reaches the catch clause has a payload that can be computed and
    cloned. *)
Lemma script_completes a :
  (exists v, Instance.completion a = Normal v /\
             (is_undefined v = true \/ exists p, snd (serialize_result v []) = Normal p)) \/
  (exists e payload, Instance.completion a = Abrupt e /\
                     snd (diagnostic e []) = Normal payload /\ Js.cloneable payload = true) ->
  snd (Instance.script a []) = Normal tt.
Proof.
  rewrite instance_script_spec. cbv zeta.
  intros [(v & -> & Hv)|(e & payload & -> & Hd & Hc)].
  - rewrite on_return_spec. destruct (is_undefined v); [reflexivity|].
    destruct Hv as [Hv|[p Hv]]; [discriminate|]. by rewrite Hv.
  - by rewrite on_throw_spec, Hd, Hc.
Qed.

(** C1, as stated, fails.  The text [return '</script>'] is neither empty
    nor blank, and as JavaScript it returns a string; but the end tag in
    its literal closes the script element of the sandbox document inside
    the literal, the script cannot compile, and the run posts nothing.
    Code that calls [parent.postMessage] itself can post what it likes:
    here a message of a kind of its own and a [done], ahead of the script's
    [done].  A console call left to a timer posts its message after [done].
    When the thrown value cannot be turned into a diagnostic (here [String]
    throws on it) no [done] is posted.  And the text of one space is not
    empty, yet its run posts nothing at all. *)
Lemma nonempty_text_without_done :
  (let s := with_code "return '</script>'" (load (Markup "" false true false) ∅) in
   code_value s ≠ "" /\
   ¬ JsString.all_white_space (code_value s) /\
   script_runs (code_value s) = false /\
   exists b,
     MiniJS.behaviour_of (fun _ => None) (code_value s) = Some b /\
     Instance.messages (plain b) = [Message "result" (VString "</script>"); done_ok] /\
     instance_messages s (plain b) = []) /\
  Instance.messages
    (Activity [Instance.Post "table" (VString "1"); Instance.Post "done" (VString "ok")]
              (Normal VUndefined) [])
    = [Message "table" (VString "1"); done_ok; done_ok] /\
  Instance.messages (Activity [] (Normal VUndefined) [Call Log [VString "late"] (Normal tt)])
    = [done_ok; Message "log" (VString "late")] /\
  Instance.messages (Activity [] (Abrupt (bare_object (type_error "no" "TypeError: no"))) [])
    = [] /\
  (let s := with_code " " (load (Markup "" false true false) ∅) in
   code_value s ≠ "" /\
   instance_messages s (Activity [Call Log [VString "hi"] (Normal tt)] (Normal VUndefined) [])
     = []).
Proof.
  split.
  { intros s. split; [discriminate|]. split.
    - intros H. apply trim_empty_iff in H. discriminate.
    - split; [vm_compute; reflexivity|].
      eexists. split; [reflexivity|]. split; [reflexivity|]. vm_compute. reflexivity. }
  split; [reflexivity|]. split; [reflexivity|]. split; [reflexivity|].
  intros s. split; [discriminate|]. vm_compute. reflexivity.
Qed.

(** C1 (amended). For every text that is not blank, a run gives the
    sandbox a document built from that text.  When the script element of
    that document holds the script whole, the code and its callbacks post
    nothing to the host themselves, and the script runs to its end, the
    instance posts the script's messages followed by those of the callbacks.
    The script's messages are the messages of the console calls the code
    makes while it runs, in call order (each call posting what the shim
    posts for it), then at most one result or error message, then one
    [done], which is the only [done] and the last message of the script.
    The callbacks post console messages only, after the script's. *)
Theorem run_messages_shape (s : state) (a : activity) :
  ¬ JsString.all_white_space (code_value s) ->
  script_runs (code_value s) = true ->
  quiet a ->
  snd (Instance.script a []) = Normal tt ->
  sandbox_docs (runCode s) = sandboxDoc (code_value s) :: sandbox_docs s /\
  instance_messages s a = Instance.sync_messages a ++ Instance.late_messages a /\
  (exists tail,
     Instance.sync_messages a = emitted (actions a) ++ tail /\
     ending tail (Normal tt)) /\
  Forall is_console_message (emitted (actions a)) /\
  (forall earlier rest, actions a = earlier ++ rest ->
     emitted (actions a) = emitted earlier ++ emitted rest) /\
  (forall k args native, emitted [Call k args native] = console_messages [(k, args)]) /\
  (exists before st,
     Instance.sync_messages a = before ++ [Message "done" (VString st)] /\
     Forall (fun m => type m ≠ "done") before) /\
  Forall is_console_message (Instance.late_messages a).
Proof.
  intros Hn Hr Hq Hs. apply not_blank_guard in Hn.
  destruct (quiet_parts a Hq) as [Hqa Hql].
  destruct (instance_script_ending a) as (tail & Htail & Hend). rewrite Hs in Hend.
  split; [by rewrite runCode_launch|].
  split; [by rewrite instance_messages_launch, Hr|].
  split; [by exists tail|].
  split; [by apply emitted_calls|].
  split; [intros earlier rest ->; apply emitted_app|].
  split; [apply emitted_call|].
  split; [|by apply emitted_calls].
  assert (Hc : Forall (fun m => type m ≠ "done") (emitted (actions a))).
  { eapply Forall_impl; [by apply emitted_calls|]. apply console_message_not_done. }
  rewrite Htail. inversion Hend; subst.
  - exists (emitted (actions a)), "ok". split; [reflexivity|exact Hc].
  - exists (emitted (actions a) ++ [Message "result" payload]), "ok".
    split; [by rewrite <- app_assoc|]. apply Forall_app. split; [exact Hc|].
    repeat constructor. discriminate.
  - exists (emitted (actions a) ++ [Message "error" payload]), "error".
    split; [by rewrite <- app_assoc|]. apply Forall_app. split; [exact Hc|].
    repeat constructor. discriminate.
Qed.

Lemma run_messages_shape_witness :
  let s := with_code "console.log('hi'); return 2+2" (load (Markup "" false true false) ∅) in
  let a := Activity [Call Log [VString "hi"] (Normal tt)] (Normal (VNumber 4)) [] in
  ¬ JsString.all_white_space (code_value s) /\
  script_runs (code_value s) = true /\
  quiet a /\
  snd (Instance.script a []) = Normal tt /\
  sandbox_docs (runCode s) = [sandboxDoc "console.log('hi'); return 2+2"] /\
  instance_messages s a
    = [Message "log" (VString "hi"); Message "result" (VString "4"); done_ok] /\
  exists before st,
    Instance.sync_messages a = before ++ [Message "done" (VString st)] /\
    Forall (fun m => type m ≠ "done") before.
Proof.
  intros s a.
  assert (Hn : ¬ JsString.all_white_space (code_value s)).
  { intros H. apply trim_empty_iff in H. discriminate. }
  assert (Hr : script_runs (code_value s) = true) by (vm_compute; reflexivity).
  assert (Hq : quiet a) by reflexivity.
  assert (Hs : snd (Instance.script a []) = Normal tt) by reflexivity.
  destruct (run_messages_shape s a Hn Hr Hq Hs) as (H1 & H2 & _ & _ & _ & _ & H7 & _).
  split; [exact Hn|]. split; [exact Hr|]. split; [exact Hq|]. split; [exact Hs|].
  split; [exact H1|]. split; [rewrite H2; reflexivity|exact H7].
Defined.

(** C6, as stated, fails.  [throw null] is reported with the payload null
    itself, which is not the text "null" that the string conversion gives.
    Where the engine's stack text lists frames only, the payload for
    [throw new Error('boom')] is that text, and 'boom' does not occur in
    it.  And a thrown value is not reported at all when the payload cannot
    be computed ([String] throws on an object with neither stack nor
    message) or cannot be cloned (the message is a function). *)
Lemma thrown_value_without_diagnostic :
  (exists b,
     MiniJS.behaviour_of (fun _ => None) "throw null" = Some b /\
     Instance.completion (plain b) = Abrupt VNull /\
     Instance.messages (plain b) = [Message "error" VNull; done_error] /\
     Js.String_ VNull = Normal "null") /\
  (exists b t,
     MiniJS.behaviour_of frames_only "throw new Error('boom')" = Some b /\
     Instance.messages (plain b) = [Message "error" (VString t); done_error] /\
     Suggest.includes t "boom" = false) /\
  Instance.messages (Activity [] (Abrupt (bare_object (type_error "no" "TypeError: no"))) [])
    = [] /\
  Instance.messages (Activity [] (Abrupt message_is_function) []) = [].
Proof.
  split; [eexists; repeat split; reflexivity|].
  split; [eexists _, _; repeat split; reflexivity|].
  split; reflexivity.
Qed.

(** C6 (amended). When the code throws [e] and the payload
    [e && (e.stack || e.message || String(e))] can be computed and cloned,
    the instance posts, after what was posted while the code ran, one error
    message with that payload and then [done] "error", and the script ends
    without throwing.  The payload is [e] itself when [e] is falsy, else
    the stack when truthy, else the message when truthy, else the string
    conversion.  The failure reaches the host
    as these messages only: delivering all the messages of the instance
    changes nothing of the page but its output and status, and the status
    ends as the error state unless the code posts a [done] of its own.  For
    [throw new Error('boom')] the payload is the stack text the engine
    attached, or 'boom' when there is none; it contains 'boom' exactly when
    there is no stack text or the stack text does. *)
Theorem thrown_value_is_reported (a : activity) (e payload : value) (host : state)
    (stack_of : string -> option string) :
  Instance.completion a = Abrupt e ->
  snd (diagnostic e []) = Normal payload ->
  Js.cloneable payload = true ->
  Instance.messages a
    = emitted (actions a) ++ [Message "error" payload; done_error] ++ Instance.late_messages a /\
  snd (Instance.script a []) = Normal tt /\
  (Js.truthy e = false -> payload = e) /\
  (Js.truthy e = true -> Js.truthy (Js.get_stack e) = true -> payload = Js.get_stack e) /\
  (Js.truthy e = true -> Js.truthy (Js.get_stack e) = false ->
   Js.truthy (Js.get_message e) = true -> payload = Js.get_message e) /\
  (Js.truthy e = true -> Js.truthy (Js.get_stack e) = false ->
   Js.truthy (Js.get_message e) = false ->
   exists t, Js.String_ e = Normal t /\ payload = VString t) /\
  (let after := deliver (Instance.messages a) host in
   code_value after = code_value host /\
   localStorage after = localStorage host /\
   sandbox_docs after = sandbox_docs host /\
   lastRunCode after = lastRunCode host /\
   timers after = timers host /\
   debounceId after = debounceId host /\
   autorun_checked after = autorun_checked host) /\
  (leaves_done_alone a ->
   status (deliver (Instance.messages a) host) = ("error", "Error")) /\
  (exists b,
     MiniJS.behaviour_of stack_of "throw new Error('boom')" = Some b /\
     Instance.messages (plain b)
       = [Message "error" (VString (boom_diagnostic stack_of)); done_error]) /\
  Suggest.includes (boom_diagnostic stack_of) "boom" =
    match stack_of "boom" with
    | Some t => JsString.is_empty t || Suggest.includes t "boom"
    | None => true
    end.
Proof.
  intros Hc Hd Hcl.
  assert (Hm : Instance.messages a
    = emitted (actions a) ++ [Message "error" payload; done_error] ++ Instance.late_messages a).
  { unfold Instance.messages, Instance.sync_messages. rewrite instance_script_spec, Hc.
    cbv zeta. rewrite on_throw_spec, Hd, Hcl. cbn [fst]. by rewrite <- app_assoc. }
  split; [exact Hm|].
  split. { apply script_completes. right. by exists e, payload. }
  rewrite diagnostic_spec in Hd.
  split. { intros Ht. rewrite Ht in Hd. congruence. }
  split. { intros Ht Hs. rewrite Ht, Hs in Hd. congruence. }
  split. { intros Ht Hs Hg. rewrite Ht, Hs, Hg in Hd. congruence. }
  split.
  { intros Ht Hs Hg. rewrite Ht, Hs, Hg in Hd.
    destruct (Js.String_ e) as [t|x]; [|discriminate]. exists t. split; congruence. }
  split; [apply deliver_frame|].
  split.
  { intros Hl. destruct (leaves_done_alone_parts a Hl) as [_ Hlate].
    rewrite Hm, !deliver_app.
    rewrite deliver_status_no_done by (by apply emitted_not_done). reflexivity. }
  split.
  - eexists. split; [reflexivity|]. rewrite messages_plain.
    unfold boom_diagnostic, Sandbox.messages, Sandbox.sync_messages, Sandbox.late_messages.
    rewrite script_spec. simpl. rewrite on_throw_spec, diagnostic_spec. simpl.
    destruct (stack_of "boom") as [[|c t]|]; reflexivity.
  - unfold boom_diagnostic. destruct (stack_of "boom") as [[|c t]|]; reflexivity.
Qed.

Lemma thrown_value_is_reported_witness :
  let host := runCode (with_code "throw new Error('boom')" (load (Markup "" false true false) ∅)) in
  let stack := "Error: boom" +:+ JsString.newline +:+ "    at eval (<anonymous>)" in
  let e := MiniJS.error_object headed_stack "boom" in
  let a := Activity [] (Abrupt e) [] in
  Instance.completion a = Abrupt e /\
  snd (diagnostic e []) = Normal (VString stack) /\
  Js.cloneable (VString stack) = true /\
  MiniJS.behaviour_of headed_stack "throw new Error('boom')" = Some (Behaviour [] (Abrupt e) []) /\
  Instance.messages a = [Message "error" (VString stack); done_error] /\
  status host = ("running", "Running…") /\
  status (deliver (Instance.messages a) host) = ("error", "Error") /\
  Suggest.includes stack "boom" = true.
Proof.
  intros host stack e a.
  destruct (thrown_value_is_reported a e (VString stack) host headed_stack
              eq_refl eq_refl eq_refl)
    as (H1 & _ & _ & _ & _ & _ & _ & H7 & _ & H9).
  split; [reflexivity|]. split; [reflexivity|]. split; [reflexivity|].
  split; [reflexivity|]. split; [exact H1|]. split; [reflexivity|].
  split; [apply H7; reflexivity|]. exact H9.
Defined.

(** X1. A console call through the shim keeps what was posted before it
    and adds at most one message, of the call's own kind, with a string for
    payload; the shim's own work never throws into the user's code: the
    call ends the way the original console method ends, which runs after
    the message has been posted, outside the shim's try/catch. *)
Theorem console_call_is_safe (k : channel) (args : list value) (native : outcome value unit)
    (posted : list message) :
  exists out,
    Instance.console_shim k args native posted = (posted ++ out, native) /\
    (out = [] \/ exists text, out = [Message (channel_name k) (VString text)]).
Proof.
  exists (fst (Sandbox.console_shim k args [])).
  split; [apply console_shim_native|].
  by destruct (console_shim_spec k args) as [_ Hm].
Qed.

(** X5. While it runs, the script posts at most one message per action
    of the code (a console call or a post of the code's own) and two more;
    and every message of an instance that the code did not post itself is
    of one of the six kinds of the protocol. *)
Theorem messages_are_bounded (a : activity) :
  length (Instance.sync_messages a) <= length (actions a) + 2 /\
  Forall (fun m => type m ∈ protocol_kinds \/ m ∈ own_posts (actions a ++ later a))
         (Instance.messages a).
Proof.
  assert (Hk : forall acts, own_posts acts ⊆ own_posts (actions a ++ later a) ->
            Forall (fun m => type m ∈ protocol_kinds \/ m ∈ own_posts (actions a ++ later a))
                   (emitted acts)).
  { intros acts Hsub. eapply Forall_impl; [apply emitted_kinds|].
    intros m [(k & text & ->)|Hm]; [left|right; by apply Hsub].
    unfold protocol_kinds. destruct k; simpl; rewrite !elem_of_cons; auto 10. }
  unfold Instance.messages, Instance.late_messages.
  destruct (instance_script_ending a) as (tail & -> & Hend). split.
  - rewrite length_app. pose proof (emitted_length (actions a)).
    inversion Hend; simpl; lia.
  - unfold own_posts in *. rewrite flat_map_app in *. rewrite !Forall_app. repeat split.
    + apply Hk. intros m Hm. rewrite elem_of_app. by left.
    + unfold protocol_kinds.
      inversion Hend; repeat constructor; left; simpl; rewrite !elem_of_cons; auto 10.
    + apply Hk. intros m Hm. rewrite elem_of_app. by right.
Qed.

(** X6. Take a run on a text that is not blank, whose script element
    holds the script whole, and whose code and callbacks post no [done] of
    their own.  Once every message of the run has been delivered, the
    status is "Completed" when the code returned undefined or a value that
    serialises, and it is still "Running…" when the catch clause itself
    threw, since the script then posted no [done]. *)
Theorem final_status (s : state) (a : activity) :
  ¬ JsString.all_white_space (code_value s) ->
  script_runs (code_value s) = true ->
  leaves_done_alone a ->
  (forall v, Instance.completion a = Normal v ->
     is_undefined v = true \/ (exists p, snd (serialize_result v []) = Normal p) ->
     status (deliver (instance_messages s a) (runCode s)) = ("success", "Completed")) /\
  (forall e, snd (Instance.script a []) = Abrupt e ->
     status (deliver (instance_messages s a) (runCode s)) = ("running", "Running…")).
Proof.
  intros Hn Hr Hl. pose proof (not_blank_guard s Hn) as Hg.
  destruct (leaves_done_alone_parts a Hl) as [Hact Hlate].
  rewrite (instance_messages_launch s a Hg), Hr.
  unfold Instance.messages, Instance.late_messages.
  rewrite deliver_app.
  rewrite (deliver_status_no_done _ _ (emitted_not_done _ Hlate)).
  split.
  - intros v Hc Hs. unfold Instance.sync_messages. rewrite instance_script_spec, Hc. cbv zeta.
    rewrite on_return_spec. destruct (is_undefined v).
    + cbn [fst]. rewrite deliver_app. reflexivity.
    + destruct Hs as [Hs|[p Hs]]; [discriminate|]. rewrite Hs. cbn [fst].
      rewrite deliver_app. reflexivity.
  - intros e He.
    destruct (instance_script_ending a) as (tail & -> & Hend). rewrite He in Hend.
    inversion Hend; subst. rewrite app_nil_r.
    rewrite (deliver_status_no_done _ _ (emitted_not_done _ Hact)).
    by rewrite (runCode_launch s Hg).
Qed.

Lemma final_status_witness :
  let s := with_code "return 1" (load (Markup "" false true false) ∅) in
  let returns := Activity [Call Log [VString "hi"] (Normal tt)] (Normal (VNumber 1)) [] in
  let throws := Activity [] (Abrupt (bare_object (type_error "no" "TypeError: no"))) [] in
  ¬ JsString.all_white_space (code_value s) /\
  script_runs (code_value s) = true /\
  leaves_done_alone returns /\
  leaves_done_alone throws /\
  status (deliver (instance_messages s returns) (runCode s)) = ("success", "Completed") /\
  status (deliver (instance_messages s throws) (runCode s)) = ("running", "Running…").
Proof.
  intros s returns throws.
  assert (Hn : ¬ JsString.all_white_space (code_value s)).
  { intros H. apply trim_empty_iff in H. discriminate. }
  assert (Hr : script_runs (code_value s) = true) by (vm_compute; reflexivity).
  split; [exact Hn|]. split; [exact Hr|]. split; [reflexivity|]. split; [reflexivity|].
  split.
  - apply (proj1 (final_status s returns Hn Hr eq_refl) (VNumber 1) eq_refl).
    right. by exists (VString "1").
  - apply (proj2 (final_status s throws Hn Hr eq_refl) (type_error "no" "TypeError: no")).
    reflexivity.
Defined.

End Executions.

(** ** The editor text across a reload *)

Section Reload.
Import Sandbox Page.

Lemma load_keeps_text_entry m (store : gmap string string) :
  localStorage (load m store) !! STORAGE_KEY_CODE = store !! STORAGE_KEY_CODE.
Proof.
  assert (Hne : (<[STORAGE_KEY_THEME:="dark"]> store) !! STORAGE_KEY_CODE
                = store !! STORAGE_KEY_CODE) by (by apply lookup_insert_ne).
  unfold load, initState, fresh, getItem. cbn [localStorage setStatus with_status].
  destruct (store !! STORAGE_KEY_CODE) as [saved|] eqn:Hs;
    [destruct (JsString.is_empty saved)|];
    cbn [localStorage with_code];
    (destruct (store !! STORAGE_KEY_THEME) as [theme|];
     [destruct (String.eqb theme "dark")|]);
    cbn; rewrite ?Hne;
    repeat (match goal with |- context [match ?x with _ => _ end] => destruct x end; cbn);
    rewrite ?Hne; by rewrite ?Hs.
Qed.

Lemma is_empty_eq (t : string) : JsString.is_empty t = true -> t = "".
Proof. by destruct t. Qed.

(** Without a default text in the markup, a load shows what the store
    holds for the text. *)
Lemma load_restores m (store : gmap string string) :
  markup_code m = "" -> code_value (load m store) = restored store.
Proof.
  intros Hm. rewrite load_code, Hm. unfold restored.
  destruct (store !! STORAGE_KEY_CODE) as [saved|]; [|reflexivity].
  destruct (JsString.is_empty saved) eqn:E; [|reflexivity]. by apply is_empty_eq in E.
Qed.

Lemma restored_same (s s' : state) :
  localStorage s' !! STORAGE_KEY_CODE = localStorage s !! STORAGE_KEY_CODE ->
  code_value s' = code_value s ->
  restored (localStorage s) = code_value s ->
  restored (localStorage s') = code_value s'.
Proof. unfold restored. intros -> ->. done. Qed.

Lemma restored_on_input text s :
  localStorage (on_input text s) !! STORAGE_KEY_CODE = Some text /\
  code_value (on_input text s) = text.
Proof.
  unfold on_input.
  destruct (scheduleAutoRun_keeps
              (setItem STORAGE_KEY_CODE (code_value (with_code text s)) (with_code text s)))
    as [-> ->].
  split; [cbn; apply lookup_insert_eq|reflexivity].
Qed.

Lemma restored_on_clear s :
  restored (localStorage (on_clear_click s)) = code_value (on_clear_click s).
Proof. unfold restored, on_clear_click. cbn. by rewrite lookup_delete_eq. Qed.

(** The store holds the editor text (no entry standing for the empty
    text): every event keeps it so. *)
Lemma restored_step s e :
  restored (localStorage s) = code_value s ->
  restored (localStorage (step s e)) = code_value (step s e).
Proof.
  intros H. destruct e; cbn [step].
  - destruct (restored_on_input text s) as [Hs Hc]. unfold restored. by rewrite Hs, Hc.
  - unfold restored, commitAutocomplete. cbn. by rewrite lookup_insert_eq.
  - exact H.
  - apply (restored_same s); [|reflexivity|exact H].
    unfold on_ac_change. cbn. by apply lookup_insert_ne.
  - destruct (runCode_keeps s) as (_ & _ & Hc & _ & _ & Hl).
    apply (restored_same s); [by rewrite Hl|exact Hc|exact H].
  - apply restored_on_clear.
  - apply (restored_same s); [|by unfold on_theme_click, setTheme; destruct (String.eqb _ _)|exact H].
    unfold on_theme_click, setTheme. destruct (String.eqb _ _); cbn; by apply lookup_insert_ne.
  - unfold on_keydown.
    assert (Hr : restored (localStorage (if meta && String.eqb key "Enter" then runCode s else s))
                 = code_value (if meta && String.eqb key "Enter" then runCode s else s)).
    { destruct (meta && _); [|exact H].
      destruct (runCode_keeps s) as (_ & _ & Hc & _ & _ & Hl).
      apply (restored_same s); [by rewrite Hl|exact Hc|exact H]. }
    destruct (alt && _); [apply restored_on_clear|exact Hr].
  - destruct (on_message_frame data s) as (Hc & Hl & _).
    apply (restored_same s); [by rewrite Hl|exact Hc|exact H].
  - unfold elapse, run_timers.
    match goal with |- context [fold_left ?f ?ready ?s0] =>
      destruct (fold_callbacks_keep ready s0) as (_ & _ & _ & Hc);
      pose proof (fold_callbacks_store ready s0) as Hl
    end.
    cbv zeta in Hc.
    eapply (restored_same s); [by rewrite Hl|by rewrite Hc|exact H].
Qed.

Lemma restored_run es : forall s,
  restored (localStorage s) = code_value s ->
  restored (localStorage (run s es)) = code_value (run s es).
Proof.
  unfold run. induction es as [|e rest IH]; intros s H; [exact H|].
  simpl. apply IH. by apply restored_step.
Qed.

(** C9. On a page whose editor has no default text in the markup: after
    a text-change, and after a suggestion has been committed into the text,
    the stored entry is exactly the editor text, and a reload shows that
    text; and at any moment of a session, whatever happened before (edits,
    runs, the Clear button, timers, messages), a reload shows the text the
    editor holds at that moment. *)
Theorem text_survives_reload (m : markup) (store : gmap string string) (es : list event)
    (text suggestion : string) (pos : nat) :
  markup_code m = "" ->
  let s := run (load m store) es in
  let typed := on_input text s in
  let committed := commitAutocomplete suggestion pos s in
  code_value typed = text /\
  localStorage typed !! STORAGE_KEY_CODE = Some text /\
  code_value (load m (localStorage typed)) = text /\
  localStorage committed !! STORAGE_KEY_CODE = Some (code_value committed) /\
  code_value (load m (localStorage committed)) = code_value committed /\
  code_value (load m (localStorage s)) = code_value s.
Proof.
  intros Hm s typed committed.
  assert (Hs : restored (localStorage s) = code_value s).
  { apply restored_run. rewrite (load_restores m store Hm).
    unfold restored. by rewrite load_keeps_text_entry. }
  destruct (restored_on_input text s) as [Ht Hc]. fold typed in Ht, Hc.
  assert (Hk : localStorage committed !! STORAGE_KEY_CODE = Some (code_value committed)).
  { subst committed. unfold commitAutocomplete. cbn. apply lookup_insert_eq. }
  split; [exact Hc|]. split; [exact Ht|].
  split; [rewrite (load_restores m _ Hm); unfold restored; by rewrite Ht|].
  split; [exact Hk|].
  split; [rewrite (load_restores m _ Hm); unfold restored; by rewrite Hk|].
  by rewrite (load_restores m _ Hm).
Qed.

Lemma text_survives_reload_witness :
  let m := Markup "" false true false in
  let es := [Input "let a = 1"; ClickRun; Input "let a = 12"; Elapse 700; ClickClear;
             Input "let b"] in
  markup_code m = "" /\
  code_value (run (load m ∅) es) = "let b" /\
  code_value (load m (localStorage (run (load m ∅) es))) = "let b" /\
  code_value (load m (localStorage (on_input "" (run (load m ∅) es)))) = "".
Proof.
  intros m es.
  destruct (text_survives_reload m ∅ es "" "" 0 eq_refl) as (_ & _ & H3 & _ & _ & H6).
  split; [reflexivity|].
  assert (Hc : code_value (run (load m ∅) es) = "let b") by (vm_compute; reflexivity).
  split; [exact Hc|]. split; [rewrite H6; exact Hc|exact H3].
Defined.

End Reload.

(** ** Enter on a suggestion, in the two copies of the script *)

Section Presses.
Import Sandbox Page Suggest.

Lemma token_chars_end (b : string) :
  forallb is_token_char (list_ascii_of_string (b +:+ JsString.newline)) = false.
Proof.
  induction b as [|c b IH]; [reflexivity|].
  rewrite append_cons. simpl. rewrite IH. apply andb_false_r.
Qed.

(** No token ends at a line break. *)
Lemma match_token_line_break (b : string) : match_token (b +:+ JsString.newline) = "".
Proof.
  induction b as [|c b IH]; [reflexivity|].
  rewrite append_cons. simpl. rewrite token_chars_end, andb_false_r. exact IH.
Qed.

Lemma findToken_after_break (pos : nat) (text : string) :
  pos <= String.length text ->
  findToken (insert_at pos JsString.newline text) (pos + 1) = "".
Proof.
  intros Hp. unfold findToken, insert_at. rewrite <- append_assoc.
  replace (pos + 1) with (String.length (substring 0 pos text +:+ JsString.newline)).
  - rewrite substring_prefix. apply match_token_line_break.
  - rewrite length_append, substring_length by assumption. reflexivity.
Qed.

(** X24. In [src/app.js] the key listener of the editor is bound to
    [keyup].  When a plain Enter is pressed with the caret in the text, the
    browser has put a line break at the caret and fired [input] before the
    listener runs; no token ends at a line break, so the panel is hidden and
    empty by then, and the listener commits nothing, whatever the panel
    showed: the press leaves the text with the line break, stored as any
    typed text is. *)
Theorem enter_breaks_the_line (catalog : list string) (pos : nat) (p : panel) (s : state) :
  pos <= String.length (code_value s) ->
  let typed := on_input (insert_at pos JsString.newline (code_value s)) s in
  press_enter catalog pos p s = (Panel true [], typed) /\
  code_value typed
    = substring 0 pos (code_value s) +:+ JsString.newline
      +:+ substring pos (String.length (code_value s) - pos) (code_value s) /\
  localStorage typed !! STORAGE_KEY_CODE = Some (code_value typed).
Proof.
  intros Hp typed.
  destruct (restored_on_input (insert_at pos JsString.newline (code_value s)) s) as [Hs Hc].
  fold typed in Hs, Hc.
  split; [|split; [exact Hc|by rewrite Hs, Hc]].
  unfold press_enter. cbn [on_keydown andb]. fold typed.
  unfold handleAutocomplete. rewrite Hc, (findToken_after_break pos _ Hp).
  cbn [JsString.is_empty orb]. by destruct (negb (ac_checked typed)).
Qed.

Lemma enter_breaks_the_line_witness :
  let p := Panel false [("console.log", true); ("console.info", false)] in
  let s := with_code "x = cons" (load (Markup "" false true false) ∅) in
  8 <= String.length (code_value s) /\
  hidden (fst (press_enter JS_SUGGESTIONS 8 p s)) = true /\
  code_value (snd (press_enter JS_SUGGESTIONS 8 p s)) = "x = cons" +:+ JsString.newline.
Proof.
  intros p s.
  assert (Hp : 8 <= String.length (code_value s)) by (vm_compute; lia).
  destruct (enter_breaks_the_line JS_SUGGESTIONS 8 p s Hp) as (H1 & H2 & _).
  split; [exact Hp|]. rewrite H1. split; [reflexivity|]. cbn [snd]. rewrite H2.
  vm_compute. reflexivity.
Defined.



End Presses.

(** ** Texts that leave the script element whole *)

Section Whole.
Import Sandbox Page Html.

Lemma feed_piece (a b : string) : forall st,
  closed (fst (feed st a)) = false ->
  feed st (a +:+ b) = feed (fst (feed st a)) b.
Proof.
  induction a as [|c a IH]; intros st H; [reflexivity|].
  rewrite append_cons. cbn [feed] in *.
  destruct (next st c) eqn:E; cbn [closed fst] in *; try (by apply IH); discriminate.
Qed.

Lemma escape_state (c : ascii) :
  code_is 60 c = false ->
  fst (feed ScriptData (JsString.json_escape c)) = ScriptData.
Proof.
  destruct c as [[] [] [] [] [] [] [] []]; vm_compute; intros H;
    first [reflexivity | discriminate H].
Qed.

Lemma escape_state_after_less_than (c : ascii) :
  code_is 60 c = false ->
  code_is 47 c || code_is 33 c = false ->
  fst (feed LessThan (JsString.json_escape c)) = ScriptData.
Proof.
  destruct c as [[] [] [] [] [] [] [] []]; vm_compute; intros H H';
    first [reflexivity | discriminate H | discriminate H'].
Qed.

Lemma feed_escape (c : ascii) (rest : string) :
  code_is 60 c = false ->
  feed ScriptData (JsString.json_escape c +:+ rest) = feed ScriptData rest.
Proof.
  intros H. rewrite feed_piece; rewrite (escape_state c H); reflexivity.
Qed.

Lemma feed_escape_after_less_than (c : ascii) (rest : string) :
  code_is 60 c = false ->
  code_is 47 c || code_is 33 c = false ->
  feed LessThan (JsString.json_escape c +:+ rest) = feed ScriptData rest.
Proof.
  intros H H'. rewrite feed_piece; rewrite (escape_state_after_less_than c H H'); reflexivity.
Qed.

Lemma is_less_than (c : ascii) : code_is 60 c = true -> c = ascii_of_nat 60.
Proof.
  unfold code_is. intros H. apply Nat.eqb_eq in H. apply (f_equal ascii_of_nat) in H.
  by rewrite ascii_nat_embedding in H.
Qed.

(** Through the literal of a tame text the tokenizer stays in the script
    data state, and is back in it after the closing quote. *)
Lemma feed_literal (code : string) : forall st rest,
  tame code = true ->
  st = ScriptData \/ (st = LessThan /\ starts_tag code = false) ->
  feed st (JsString.json_escape_all code +:+ JsString.dquote +:+ rest) = feed ScriptData rest.
Proof.
  induction code as [|c code IH]; intros st rest Ht Hst.
  - destruct Hst as [->|[-> _]]; reflexivity.
  - cbn [tame] in Ht. apply andb_prop in Ht as [Hc Ht].
    cbn [JsString.json_escape_all]. rewrite append_assoc.
    destruct (code_is 60 c) eqn:E.
    + apply is_less_than in E. subst c. cbn [andb] in Hc.
      change (code_is 60 (ascii_of_nat 60)) with true in Hc. cbn [andb] in Hc.
      apply negb_true_iff in Hc.
      transitivity (feed LessThan (JsString.json_escape_all code +:+ JsString.dquote +:+ rest)).
      * destruct Hst as [->|[-> _]]; reflexivity.
      * apply IH; [exact Ht|]. right. by split.
    + destruct Hst as [->|[-> Hs]].
      * rewrite feed_escape by exact E. apply IH; [exact Ht|by left].
      * rewrite feed_escape_after_less_than by (exact E || exact Hs).
        apply IH; [exact Ht|by left].
Qed.

Lemma prefix_append (a b : string) : String.prefix a (a +:+ b) = true.
Proof.
  induction a as [|c a IH]; [by destruct b|].
  rewrite append_cons. simpl. by destruct (ascii_dec c c).
Qed.

Lemma substring_suffix (a b : string) :
  substring (String.length a) (String.length (a +:+ b) - String.length a) (a +:+ b) = b.
Proof.
  rewrite length_append, Nat.add_comm, Nat.add_sub.
  induction a as [|c a IH]; [apply substring_all|].
  rewrite append_cons. exact IH.
Qed.

Ltac feed_pieces :=
  repeat match goal with
         | |- context [feed ?st (?a +:+ ?b)] =>
             rewrite (feed_piece a b st) by (vm_compute; reflexivity);
             let st' := eval vm_compute in (fst (feed st a)) in
             change (fst (feed st a)) with st'
         end.

Lemma sandboxDoc_script (code : string) :
  tame code = true ->
  exists script,
    sandboxDoc code = document_head +:+ script /\
    feed ScriptData script = (Closed, "</body></html>").
Proof.
  intros Ht. eexists. split.
  - unfold sandboxDoc, document_head, JsString.json_quote. rewrite !append_assoc. reflexivity.
  - feed_pieces. rewrite (feed_literal code) by (exact Ht || by left).
    feed_pieces. vm_compute. reflexivity.
Qed.

(** X27. A text in which no [<] is directly followed by [/] or [!]
    cannot cut the script element of the sandbox document short: whatever
    else it holds (quotes, backslashes, line breaks, comparisons with [<]),
    the element ends at the document's own end tag and holds the script
    whole. *)
Theorem tame_text_runs_whole (code : string) :
  tame code = true -> script_runs code = true.
Proof.
  intros Ht. destruct (sandboxDoc_script code Ht) as (script & Hdoc & Hfeed).
  unfold script_runs, script_intact. rewrite Hdoc, prefix_append, substring_suffix, Hfeed.
  reflexivity.
Qed.

Lemma tame_text_runs_whole_witness :
  let code := "if (1 < 2) console.log('<p>' + " +:+ JsString.dquote +:+ "a<b" +:+ JsString.dquote
              +:+ ");" +:+ JsString.newline +:+ "return 1 <<2 // --> <script" in
  tame code = true /\ script_runs code = true /\
  tame "return '</script>'" = false /\ script_runs "return '</script>'" = false.
Proof.
  intros code.
  assert (Ht : tame code = true) by (vm_compute; reflexivity).
  split; [exact Ht|]. split; [exact (tame_text_runs_whole code Ht)|].
  split; vm_compute; reflexivity.
Defined.

End Whole.

(** ** Texts that cut the script element short *)

Section Cut.
Import Sandbox Page.



End Cut.
